(** * Schedex: a two-event (on/off) daily scheduler for Node-RED

    A shallow embedding of [index.js] and the properties of its
    scheduling engine.

    Modelling conventions.
    - A moment (moment.js object, JS [Date]) is its number of milliseconds
      since 1970-01-01 00:00 local time, a [Z].  All computation is local
      time; daylight-saving shifts are not modelled, so "one day" is
      86 400 000 ms.  A [Date] holds a time value within 100 000 000 days
      of the epoch or [NaN]; the moment of a [NaN] is invalid, and in the
      embedding an invalid moment is any number outside that range
      ([Moment.isValid]).  Setters and [add] do nothing on an invalid
      moment and [weekday()] is [NaN] on it: the functions of [Moment]
      give the arithmetic on valid moments, and the embedding of
      [schedule] tests validity wherever the code can meet an invalid
      one.
    - A string is a sequence of UTF-16 code units below 256, one [ascii]
      each; strings with other characters are outside the embedding.
    - JS numbers that the node handles (offsets, hours, minutes) are
      integers, extended with [NaN] where [Number(...)] can produce it.
      [Number] and [String] are embedded on that fragment only: the
      conversions of fractions, exponents, hexadecimal literals and
      integers beyond 2^53 are not covered, and the statements that
      depend on a conversion say so in a hypothesis ([number_text],
      [safe_integer]).
    - [Math.random()], the system clock, [SunCalc.getTimes] and
      [moment.format] are inputs of the model (record [env]).  The clock
      never reads a time within ten days of either end of the range of
      [Date].
    - The mutable objects [config], [events.on], [events.off] and the
      runtime's timer table make up the record [node]; every function of
      the source that touches them is a computation in the monad [M],
      which also carries thrown [TypeError]s and a fuel bound for the only
      loop of the program. *)

From Stdlib Require Import ZArith QArith Qround String Ascii List Lia Lqa Bool DecimalString.
From stdpp Require Import gmap strings.
Import ListNotations.

Local Open Scope string_scope.
Local Open Scope Z_scope.

(** ** moment.js: the operations the node uses *)

Module Moment.

Definition MS_SECOND : Z := 1000.
Definition MS_MINUTE : Z := 60000.
Definition MS_HOUR : Z := 3600000.
Definition MS_DAY : Z := 86400000.

(** The largest time value of a [Date], 100 000 000 days; a moment is
    valid when its time value is in range. *)
Definition MAX_TIME : Z := 100000000 * MS_DAY.
Definition isValid (m : Z) : bool := (- MAX_TIME <=? m) && (m <=? MAX_TIME).

(** [m.weekday()] in moment's default locale: 0 = Sunday ... 6 = Saturday
    (1970-01-01 was a Thursday). *)
Definition weekday (m : Z) : Z := (m / MS_DAY + 4) mod 7.

(** [m.hour(h)]: sets the hour field, keeps minutes, seconds and
    milliseconds; a value outside 0..23 carries over into the day. *)
Definition hour (m h : Z) : Z := (m / MS_DAY) * MS_DAY + h * MS_HOUR + m mod MS_HOUR.

(** [m.minute(mi)]: sets the minute field, keeps seconds and milliseconds;
    a value outside 0..59 carries over into the hour. *)
Definition minute (m mi : Z) : Z := (m / MS_HOUR) * MS_HOUR + mi * MS_MINUTE + m mod MS_MINUTE.

(** [m.seconds(s)]: sets the seconds field, keeps the milliseconds. *)
Definition seconds (m s : Z) : Z := (m / MS_MINUTE) * MS_MINUTE + s * MS_SECOND + m mod MS_SECOND.

(** [Date.prototype.setTime(x)] keeps the integral part of [x]. *)
Definition TimeClip (x : Q) : Z := if Qle_bool 0 x then Qfloor x else Qceiling x.

(** [m.add(x, 'minutes')] for a possibly fractional [x]: the duration is
    [x * 6e4] milliseconds, added to the time value and stored with
    [setTime]. *)
Definition add_minutes (m : Z) (x : Q) : Z :=
  TimeClip (inject_Z m + x * inject_Z MS_MINUTE)%Q.

(** [m.add(n, 'day')]. *)
Definition add_days (m n : Z) : Z := m + n * MS_DAY.

(** [a.isAfter(b)], [a.isBefore(b)], [a.diff(b)] of valid moments. *)
Definition isAfter (a b : Z) : bool := b <? a.
Definition isBefore (a b : Z) : bool := a <? b.
Definition diff (a b : Z) : Z := a - b.

(** Field accessors, used to state results. *)
Definition startOfDay (m : Z) : Z := (m / MS_DAY) * MS_DAY.
Definition get_hour (m : Z) : Z := (m mod MS_DAY) / MS_HOUR.
Definition get_minute (m : Z) : Z := (m mod MS_HOUR) / MS_MINUTE.
Definition get_second (m : Z) : Z := (m mod MS_MINUTE) / MS_SECOND.
Definition get_millisecond (m : Z) : Z := m mod MS_SECOND.

End Moment.

(** ** The weekday mask *)

(** [weekdays[i]] read as a condition: an index outside the array gives
    [undefined], which is falsy. *)
Definition mask_at (weekdays : list bool) (i : Z) : bool :=
  if i <? 0 then false else default false (weekdays !! Z.to_nat i).

(** [weekdays.indexOf(true)]. *)
Fixpoint indexOf_true (l : list bool) : Z :=
  match l with
  | [] => -1
  | b :: l' => if b then 0 else
      let i := indexOf_true l' in if i =? -1 then -1 else i + 1
  end.

(** The loop of [schedule]:
    [while (!weekdays[event.moment.weekday()]) event.moment.add(1, 'day')].
    The result is the number of day advances made and the final moment;
    [None] when [fuel] advances were not enough.  On an invalid moment
    [weekday()] is [NaN], [weekdays[NaN]] is [undefined] and [add] does
    nothing: the loop goes on for ever, whatever the fuel. *)
Fixpoint weekday_loop (weekdays : list bool) (fuel : nat) (m : Z) : option (nat * Z) :=
  if negb (Moment.isValid m) then None
  else if mask_at weekdays (Moment.weekday m) then Some (O, m)
  else match fuel with
       | O => None
       | S fuel' =>
           match weekday_loop weekdays fuel' (Moment.add_days m 1) with
           | Some (k, m') => Some (S k, m')
           | None => None
           end
       end.

(** ** JavaScript values and coercions *)

(** A JS number: an integer, or [NaN]. *)
Inductive number := Num (z : Z) | NaN.

(** The values a message property can hold. *)
Inductive jsval :=
| JUndefined
| JNull
| JBool (b : bool)
| JNumber (x : number)
| JString (s : string).

Definition is_digit (c : ascii) : bool :=
  let n := Z.of_nat (nat_of_ascii c) in (48 <=? n) && (n <=? 57).

Definition digit_val (c : ascii) : Z := Z.of_nat (nat_of_ascii c) - 48.

(** [\s] and the line terminators that [.] does not match, among the
    code units below 256: tab to carriage return, the blank and the
    no-break space U+00A0; line feed and carriage return. *)
Definition is_space (c : ascii) : bool :=
  let n := Z.of_nat (nat_of_ascii c) in
  ((9 <=? n) && (n <=? 13)) || (n =? 32) || (n =? 160).

Definition is_line_terminator (c : ascii) : bool :=
  let n := Z.of_nat (nat_of_ascii c) in (n =? 10) || (n =? 13).

(** Reads the longest run of digits at the head of [s], [acc] being the
    value of the digits read so far. *)
Fixpoint read_digits_from (acc : Z) (s : string) : Z * string :=
  match s with
  | String c s' =>
      if is_digit c then read_digits_from (10 * acc + digit_val c) s' else (acc, s)
  | EmptyString => (acc, s)
  end.

(** [\d+] at the head of [s]: the number read and the rest of [s]. *)
Definition read_digits (s : string) : option (Z * string) :=
  match s with
  | String c s' => if is_digit c then Some (read_digits_from (digit_val c) s') else None
  | EmptyString => None
  end.

Fixpoint starts_with (p s : string) : option string :=
  match p with
  | EmptyString => Some s
  | String a p' =>
      match s with
      | String b s' => if Ascii.eqb a b then starts_with p' s' else None
      | EmptyString => None
      end
  end.

(** [s.indexOf(p) !== -1]. *)
Fixpoint contains (p s : string) : bool :=
  match starts_with p s with
  | Some _ => true
  | None => match s with String _ s' => contains p s' | EmptyString => false end
  end.

Fixpoint drop_spaces (s : string) : string :=
  match s with
  | String c s' => if is_space c then drop_spaces s' else s
  | EmptyString => s
  end.

Fixpoint take_nonspaces (s : string) : string :=
  match s with
  | String c s' => if is_space c then EmptyString else String c (take_nonspaces s')
  | EmptyString => EmptyString
  end.

(** [toLowerCase] on one code unit below 256: A to Z, and the capitals
    U+00C0 to U+00DE but for the multiplication sign U+00D7. *)
Definition lower (c : ascii) : ascii :=
  let n := nat_of_ascii c in
  if (((65 <=? n) && (n <=? 90))
      || ((192 <=? n) && (n <=? 222) && negb (n =? 215)))%nat
  then ascii_of_nat (n + 32) else c.

Fixpoint toLowerCase (s : string) : string :=
  match s with
  | String c s' => String (lower c) (toLowerCase s')
  | EmptyString => EmptyString
  end.

Definition string_of_Z (z : Z) : string := DecimalString.NilZero.string_of_int (Z.to_int z).

(** [String(v)].  For a number the digits are those of the integer: that
    is [String] on the safe integers (up to 2^53 - 1 in size); a larger
    number is printed by [String] with fewer digits or an exponent. *)
Definition String_ (v : jsval) : string :=
  match v with
  | JUndefined => "undefined"
  | JNull => "null"
  | JBool true => "true"
  | JBool false => "false"
  | JNumber (Num z) => string_of_Z z
  | JNumber NaN => "NaN"
  | JString s => s
  end.

(** [Number(s)] for a string: surrounding white space is dropped, the
    empty string is 0, an optionally signed run of decimal digits is its
    value.  Everything else is [NaN] here: that is [Number] on the
    strings that are no numeric literal at all; the literals with a
    fraction, an exponent or a radix prefix and the word Infinity have no
    counterpart among the integers and are outside the embedding (see
    [number_text] below). *)
Definition Number_of_string (s : string) : number :=
  let t := drop_spaces s in
  let unsigned (u : string) (sign : Z) :=
    match read_digits u with
    | Some (z, r) => match drop_spaces r with EmptyString => Num (sign * z) | _ => NaN end
    | None => NaN
    end in
  match t with
  | EmptyString => Num 0
  | String "-" u => unsigned u (-1)
  | String "+" u => unsigned u 1
  | _ => unsigned t 1
  end.

(** [Number(v)]. *)
Definition Number_ (v : jsval) : number :=
  match v with
  | JUndefined => NaN
  | JNull => Num 0
  | JBool b => Num (if b then 1 else 0)
  | JNumber x => x
  | JString s => Number_of_string s
  end.

(** [toBoolean(val)]: [(val + '').toLowerCase() === 'true']. *)
Definition toBoolean (v : jsval) : bool := String.eqb (toLowerCase (String_ v)) "true".

(** [!!v]. *)
Definition truthy (v : jsval) : bool :=
  match v with
  | JUndefined | JNull => false
  | JBool b => b
  | JNumber (Num z) => negb (z =? 0)
  | JNumber NaN => false
  | JString s => negb (String.eqb s "")
  end.

(** ** The regular expressions of the node *)

(** [/(\d+):(\d+)/] anchored at the head of [s]. *)
Definition clock_here (s : string) : option (Z * Z) :=
  match read_digits s with
  | Some (h, String ":" r) =>
      match read_digits r with
      | Some (mi, _) => Some (h, mi)
      | None => None
      end
  | _ => None
  end.

(** [new RegExp(/(\d+):(\d+)/).exec(s)]: the leftmost match; the result
    holds the two groups as numbers. *)
Fixpoint exec_clock (s : string) : option (Z * Z) :=
  match clock_here s with
  | Some r => Some r
  | None => match s with String _ s' => exec_clock s' | EmptyString => None end
  end.

(** [prop\s+(\S+)] anchored at the head of [s]: the group. *)
Definition prop_here (prop s : string) : option string :=
  match starts_with prop s with
  | Some (String c r) =>
      if is_space c then
        match take_nonspaces (drop_spaces r) with
        | EmptyString => None
        | v => Some v
        end
      else None
  | _ => None
  end.

(** [.*prop\s+(\S+)] anchored at the head of [s]: the greedy [.*] first
    takes as many characters of the line as it can and gives them back one
    by one. *)
Fixpoint dotstar_prop (prop s : string) : option string :=
  match s with
  | EmptyString => prop_here prop s
  | String c s' =>
      if is_line_terminator c then prop_here prop s
      else match dotstar_prop prop s' with
           | Some v => Some v
           | None => prop_here prop s
           end
  end.

(** [new RegExp('.*' + prop + '\\s+(\\S+)').exec(s)]: the group of the
    leftmost match, [None] for [null]. *)
Fixpoint exec_prop (prop s : string) : option string :=
  match dotstar_prop prop s with
  | Some v => Some v
  | None => match s with String _ s' => exec_prop prop s' | EmptyString => None end
  end.

(** ** The node: configuration, events, timers *)

(** The two keys of [events]. *)
Inductive evname := ON | OFF.

Definition key (ev : evname) : string := match ev with ON => "on" | OFF => "off" end.
(** [event.name], [event.shape] and [event.inverse], fixed by [setupEvent]
    and the two assignments after it. *)
Definition name (ev : evname) : string := match ev with ON => "ON" | OFF => "OFF" end.
Definition shape (ev : evname) : string := match ev with ON => "dot" | OFF => "ring" end.
Definition inverse (ev : evname) : evname := match ev with ON => OFF | OFF => ON end.

(** The mutable part of an event object.  [timeout] is the handle that
    [setTimeout] returned; [clearTimeout] does not reset it. *)
Record event := Event {
  time : string;
  topic : string;
  payload : string;
  offset : number;
  randomoffset : bool;
  moment : option Z;
  timeout : option nat
}.

(** The argument of [node.send] and of [node.status]. *)
Record message := Message { msg_topic : string; msg_payload : string }.
Record status := Status { fill : string; status_shape : string; text : string }.

(** Everything the closures of a node instance share and change.
    [timers] is the runtime's table of pending timers: handle to the event
    whose callback it will run, and the delay it was armed with.  [sent]
    and [statuses] log the calls of [node.send] and [node.status], latest
    first.  [reads] and [draws] count the clock readings and random draws
    made so far.  [bootstraps] counts the calls of [bootstrap]; the program
    does not read it. *)
Record node := Node {
  suspended : bool;
  on : event;
  off : event;
  timers : gmap nat (evname * Z);
  handles : nat;
  sent : list message;
  statuses : list status;
  reads : nat;
  draws : nat;
  bootstraps : nat
}.

(** A clock reading at least ten days inside the range of [Date]. *)
Definition in_reach (m : Z) : bool :=
  Moment.isValid (m - 10 * Moment.MS_DAY) && Moment.isValid (m + 10 * Moment.MS_DAY).

(** What a node instance takes from outside: the weekday array built once
    from [config], the coordinates, the clock, the random source, SunCalc
    and moment's formatter.

    [getTimes d lat lon name] is what [moment(SunCalc.getTimes(d, lat,
    lon)[name])] gives: [None] when the value under [name] is falsy
    ([undefined], no such time), and otherwise the moment made of it.
    That moment is invalid, a number outside the range, when SunCalc has
    an Invalid Date there (a sun position the day does not reach) and
    when the value is no date at all (a property every object inherits,
    such as toString).

    [format m] is [m.format(fmt)], on an invalid moment too. *)
Record env := Env {
  weekdays : list bool;
  lat : Q;
  lon : Q;
  clock : nat -> Z;
  random : nat -> Q;
  getTimes : Z -> Q -> Q -> string -> option Z;
  format : Z -> string;
  clock_range : forall k : nat, in_reach (clock k) = true
}.

Definition set_time (s : string) (e : event) : event :=
  Event s (topic e) (payload e) (offset e) (randomoffset e) (moment e) (timeout e).
Definition set_topic (s : string) (e : event) : event :=
  Event (time e) s (payload e) (offset e) (randomoffset e) (moment e) (timeout e).
Definition set_payload (s : string) (e : event) : event :=
  Event (time e) (topic e) s (offset e) (randomoffset e) (moment e) (timeout e).
Definition set_offset (x : number) (e : event) : event :=
  Event (time e) (topic e) (payload e) x (randomoffset e) (moment e) (timeout e).
Definition set_randomoffset (b : bool) (e : event) : event :=
  Event (time e) (topic e) (payload e) (offset e) b (moment e) (timeout e).
Definition set_moment (m : option Z) (e : event) : event :=
  Event (time e) (topic e) (payload e) (offset e) (randomoffset e) m (timeout e).
Definition set_timeout (h : option nat) (e : event) : event :=
  Event (time e) (topic e) (payload e) (offset e) (randomoffset e) (moment e) h.

Definition events (ev : evname) (n : node) : event :=
  match ev with ON => on n | OFF => off n end.

Definition set_event (ev : evname) (e : event) (n : node) : node :=
  match ev with
  | ON => Node (suspended n) e (off n) (timers n) (handles n) (sent n) (statuses n)
            (reads n) (draws n) (bootstraps n)
  | OFF => Node (suspended n) (on n) e (timers n) (handles n) (sent n) (statuses n)
            (reads n) (draws n) (bootstraps n)
  end.
Definition set_suspended (b : bool) (n : node) : node :=
  Node b (on n) (off n) (timers n) (handles n) (sent n) (statuses n)
    (reads n) (draws n) (bootstraps n).
Definition set_timers (t : gmap nat (evname * Z)) (n : node) : node :=
  Node (suspended n) (on n) (off n) t (handles n) (sent n) (statuses n)
    (reads n) (draws n) (bootstraps n).
Definition set_handles (h : nat) (n : node) : node :=
  Node (suspended n) (on n) (off n) (timers n) h (sent n) (statuses n)
    (reads n) (draws n) (bootstraps n).
Definition set_sent (l : list message) (n : node) : node :=
  Node (suspended n) (on n) (off n) (timers n) (handles n) l (statuses n)
    (reads n) (draws n) (bootstraps n).
Definition set_statuses (l : list status) (n : node) : node :=
  Node (suspended n) (on n) (off n) (timers n) (handles n) (sent n) l
    (reads n) (draws n) (bootstraps n).
Definition set_reads (k : nat) (n : node) : node :=
  Node (suspended n) (on n) (off n) (timers n) (handles n) (sent n) (statuses n)
    k (draws n) (bootstraps n).
Definition set_draws (k : nat) (n : node) : node :=
  Node (suspended n) (on n) (off n) (timers n) (handles n) (sent n) (statuses n)
    (reads n) k (bootstraps n).
Definition set_bootstraps (k : nat) (n : node) : node :=
  Node (suspended n) (on n) (off n) (timers n) (handles n) (sent n) (statuses n)
    (reads n) (draws n) k.

(** ** Computations on the node *)

(** How a call ends: it returns, it throws, or it does not come back
    within the fuel given to the loop. *)
Inductive outcome (A : Type) :=
| Ret (a : A)
| Throw (e : string)
| Hang.
Arguments Ret {A} a.
Arguments Throw {A} e.
Arguments Hang {A}.

Definition M (A : Type) : Type := node -> outcome A * node.

Definition ret {A} (a : A) : M A := fun n => (Ret a, n).
Definition bind {A B} (c : M A) (k : A -> M B) : M B :=
  fun n =>
    match c n with
    | (Ret a, n') => k a n'
    | (Throw e, n') => (Throw e, n')
    | (Hang, n') => (Hang, n')
    end.
Definition throw {A} (e : string) : M A := fun n => (Throw e, n).
Definition hang {A} : M A := fun n => (Hang, n).
Definition get : M node := fun n => (Ret n, n).
Definition modify (f : node -> node) : M unit := fun n => (Ret tt, f n).

Notation "x <- c ;; k" := (bind c (fun x => k))
  (at level 100, c at next level, right associativity).
Notation "c ;; k" := (bind c (fun _ => k))
  (at level 100, right associativity).

Definition TypeError : string := "TypeError".

(** The properties of an event that a message can set, their names, and
    the constructor [eachProp] passes for each. *)
Inductive property := P_time | P_topic | P_payload | P_offset | P_randomoffset.

Definition msgProperty (p : property) : string :=
  match p with
  | P_time => "time"
  | P_topic => "topic"
  | P_payload => "payload"
  | P_offset => "offset"
  | P_randomoffset => "randomoffset"
  end.

Inductive value := VString (s : string) | VNumber (x : number) | VBoolean (b : bool).

Definition typeConstructor (p : property) (v : jsval) : value :=
  match p with
  | P_time | P_topic | P_payload => VString (String_ v)
  | P_offset => VNumber (Number_ v)
  | P_randomoffset => VBoolean (toBoolean v)
  end.

(** [events[eventName][msgProperty]], read and written. *)
Definition get_prop (p : property) (e : event) : value :=
  match p with
  | P_time => VString (time e)
  | P_topic => VString (topic e)
  | P_payload => VString (payload e)
  | P_offset => VNumber (offset e)
  | P_randomoffset => VBoolean (randomoffset e)
  end.

Definition set_prop (p : property) (v : value) (e : event) : event :=
  match p, v with
  | P_time, VString s => set_time s e
  | P_topic, VString s => set_topic s e
  | P_payload, VString s => set_payload s e
  | P_offset, VNumber x => set_offset x e
  | P_randomoffset, VBoolean b => set_randomoffset b e
  | _, _ => e
  end.

(** [a !== b]; [NaN] differs from itself. *)
Definition strict_neq (a b : value) : bool :=
  match a, b with
  | VString s, VString t => negb (String.eqb s t)
  | VNumber (Num x), VNumber (Num y) => negb (x =? y)
  | VBoolean x, VBoolean y => negb (Bool.eqb x y)
  | _, _ => true
  end.

(** [msg.payload]: a string or an object with its own properties. *)
Inductive input :=
| PayloadString (s : string)
| PayloadObject (o : gmap string jsval).

(** The closure variables [handled] and [requiresBootstrap] of the input
    handler. *)
Record flags := Flags { handled : bool; requiresBootstrap : bool }.

Section Schedex.

Variable E : env.

(** [moment()] and [new Date()]: the next clock reading. *)
Definition moment_now : M Z :=
  fun n => (Ret (clock E (reads n)), set_reads (S (reads n)) n).

Definition Math_random : M Q :=
  fun n => (Ret (random E (draws n)), set_draws (S (draws n)) n).

Definition node_send (m : message) : M unit :=
  modify (fun n => set_sent (m :: sent n) n).

Definition node_status (s : status) : M unit :=
  modify (fun n => set_statuses (s :: statuses n) n).

Definition setTimeout (ev : evname) (delay : Z) : M nat :=
  fun n => (Ret (handles n),
            set_handles (S (handles n))
              (set_timers (<[handles n := (ev, delay)]> (timers n)) n)).

(** [clearTimeout(h)]; nothing happens for [undefined] or for a timer
    that is no longer pending. *)
Definition clearTimeout (h : option nat) : M unit :=
  match h with
  | Some i => modify (fun n => set_timers (delete i (timers n)) n)
  | None => ret tt
  end.

Definition update_event (ev : evname) (f : event -> event) : M unit :=
  modify (fun n => set_event ev (f (events ev n)) n).

(** [send(event, manual)].  The message goes out first; the status
    object is built next, and [event.inverse.moment.format(fmt)] throws
    when the moment is [undefined]. *)
Definition send (ev : evname) (manual : bool) : M unit :=
  n <- get ;;
  node_send (Message (topic (events ev n)) (payload (events ev n))) ;;
  tail <- (if suspended n then ret " - scheduling suspended"
           else match moment (events (inverse ev) n) with
                | Some m => ret (" until " ++ format E m)
                | None => throw TypeError
                end) ;;
  node_status (Status (if manual then "blue" else "green") (shape ev)
                 (name ev ++ (if manual then " manual" else " auto") ++ tail)).

(** [moment().hour(h).minute(mi)] on the clock reading [m]: when the
    hour takes the time value out of range, the moment is invalid and
    [minute] does nothing. *)
Definition clock_time (m h mi : Z) : Z :=
  let mh := Moment.hour m h in
  if Moment.isValid mh then Moment.minute mh mi else mh.

(** [schedule], first part: the time spec becomes [event.moment].  When
    neither the pattern nor SunCalc gives a time, [event.moment] keeps the
    value it had. *)
Definition resolve (ev : evname) : M unit :=
  n <- get ;;
  match exec_clock (time (events ev n)) with
  | Some (h, mi) =>
      m <- moment_now ;;
      update_event ev (set_moment (Some (clock_time m h mi)))
  | None =>
      d <- moment_now ;;
      match getTimes E d (lat E) (lon E) (time (events ev n)) with
      | Some date => update_event ev (set_moment (Some date))
      | None => ret tt
      end
  end.

(** [var adjustment = event.offset; if (event.randomoffset) adjustment =
    event.offset * Math.random()]. *)
Definition adjustment (x : Z) (rnd : bool) : M Q :=
  if rnd then r <- Math_random ;; ret (inject_Z x * r)%Q
  else ret (inject_Z x).

(** [if (event.offset) { ... event.moment.add(adjustment, 'minutes') }];
    0 and [NaN] are falsy. *)
Definition apply_offset (e : event) (m : Z) : M Z :=
  match offset e with
  | Num x =>
      if x =? 0 then ret m
      else a <- adjustment x (randomoffset e) ;; ret (Moment.add_minutes m a)
  | NaN => ret m
  end.

(** The weekday loop, run on the node. *)
Definition adjust_weekday (fuel : nat) (m : Z) : M Z :=
  match weekday_loop (weekdays E) fuel m with
  | Some (_, m') => ret m'
  | None => hang
  end.

(** Lines 144 to 151 on [event.moment]: [seconds(0)], then the offset.
    On an invalid moment [seconds] and [add] do nothing; the adjustment
    is computed all the same. *)
Definition offset_moment (e : event) (m0 : Z) : M Z :=
  if Moment.isValid m0 then apply_offset e (Moment.seconds m0 0)
  else (_ <- apply_offset e m0 ;; ret m0).

(** [if (!isInitial || isInitial && now.isAfter(event.moment))
    event.moment.add(1, 'day')]. *)
Definition rollover (isInitial : bool) (now m : Z) : Z :=
  if negb isInitial || (isInitial && Moment.isAfter now m)
  then Moment.add_days m 1 else m.

(** [event.moment.diff(now)] as [setTimeout] takes it.  The day added
    after the loop can take the moment out of range; the difference is
    then [NaN], and the runtime arms a timer whose delay is not a number
    with a delay of 1. *)
Definition delay_of (m now : Z) : Z :=
  if Moment.isValid m then Moment.diff m now else 1.

(** [schedule(event, isInitial)].  The moment is kept in a local name
    while it is being adjusted and stored once it is final. *)
Definition schedule (fuel : nat) (ev : evname) (isInitial : bool) : M unit :=
  now <- moment_now ;;
  resolve ev ;;
  n <- get ;;
  match moment (events ev n) with
  | Some m0 =>
      m1 <- offset_moment (events ev n) m0 ;;
      m2 <- adjust_weekday fuel m1 ;;
      let m := rollover isInitial now m2 in
      update_event ev (set_moment (Some m)) ;;
      let delay := delay_of m now in
      clearTimeout (timeout (events ev n)) ;;
      h <- setTimeout ev delay ;;
      update_event ev (set_timeout (Some h))
  | None =>
      node_status (Status "red" "dot" ("Invalid time: " ++ time (events ev n)))
  end.

(** [event.callback], and the runtime running it when timer [h] is due. *)
Definition callback (fuel : nat) (ev : evname) : M unit :=
  send ev false ;;
  schedule fuel ev false.

Definition fire (fuel : nat) (h : nat) : M unit :=
  n <- get ;;
  match timers n !! h with
  | Some (ev, _) =>
      modify (fun n => set_timers (delete h (timers n)) n) ;;
      callback fuel ev
  | None => ret tt
  end.

Definition suspend : M unit :=
  n <- get ;;
  clearTimeout (timeout (on n)) ;;
  clearTimeout (timeout (off n)) ;;
  node_status (Status "grey" "dot"
                 ("Scheduling suspended "
                  ++ (if indexOf_true (weekdays E) =? -1
                      then "(no weekdays selected) " else "")
                  ++ "- manual mode only")).

(** [resume].  With [events.off.moment] undefined, [isBefore] compares
    with the current time and one of the two [format] calls throws.
    [isBefore] is false when one of the moments is invalid. *)
Definition resume (fuel : nat) : M unit :=
  schedule fuel ON true ;;
  schedule fuel OFF true ;;
  n <- get ;;
  match moment (on n), moment (off n) with
  | Some a, Some b =>
      let firstEvent :=
        if Moment.isValid a && Moment.isValid b && Moment.isBefore a b
        then ON else OFF in
      let moment_of (ev : evname) := match ev with ON => a | OFF => b end in
      let message :=
        name firstEvent ++ " " ++ format E (moment_of firstEvent) ++ ", "
        ++ name (inverse firstEvent) ++ " "
        ++ format E (moment_of (inverse firstEvent)) in
      node_status (Status "yellow" "dot" message)
  | Some _, None => _ <- moment_now ;; throw TypeError
  | None, _ => throw TypeError
  end.

Definition bootstrap (fuel : nat) : M unit :=
  modify (fun n => set_bootstraps (S (bootstraps n)) n) ;;
  n <- get ;;
  if suspended n || (indexOf_true (weekdays E) =? -1)
  then suspend
  else resume fuel.

(** [eachProp(callback)]: both events, five properties each, in this
    order. *)
Definition eachProp (callback : evname -> property -> flags -> M flags)
    (f : flags) : M flags :=
  let each (ev : evname) (f : flags) :=
    f <- callback ev P_time f ;;
    f <- callback ev P_topic f ;;
    f <- callback ev P_payload f ;;
    f <- callback ev P_offset f ;;
    callback ev P_randomoffset f in
  f <- each ON f ;;
  each OFF f.

(** The function passed to [eachProp] by the input handler; [lookup]
    is the regular expression on a string payload, the own property on
    an object. *)
Definition update_prop (lookup : string -> option jsval)
    (ev : evname) (p : property) (f : flags) : M flags :=
  match lookup (key ev ++ msgProperty p) with
  | Some raw =>
      n <- get ;;
      let previous := get_prop p (events ev n) in
      let new := typeConstructor p raw in
      update_event ev (set_prop p new) ;;
      ret (Flags true (requiresBootstrap f || strict_neq previous new))
  | None => ret f
  end.

Definition update_suspended (new : bool) (f : flags) : M flags :=
  n <- get ;;
  let previous := suspended n in
  modify (set_suspended new) ;;
  ret (Flags true (requiresBootstrap f || negb (Bool.eqb previous new))).

(** [node.on('input', function (msg) ...)].  An object payload is asked
    with [msg.payload.hasOwnProperty(...)]: when the payload has a
    property of that name itself, the value found there is no function
    (a message holds data) and the call throws. *)
Definition on_input (fuel : nat) (msg : input) : M unit :=
  let f0 := Flags false false in
  f <- match msg with
       | PayloadString s =>
           if String.eqb s "on" then send ON true ;; ret (Flags true false)
           else if String.eqb s "off" then send OFF true ;; ret (Flags true false)
           else
             f <- (if contains "suspended" s then
                     match exec_prop "suspended" s with
                     | Some v => update_suspended (toBoolean (JString v)) f0
                     | None => throw TypeError
                     end
                   else ret f0) ;;
             eachProp (update_prop (fun prop => JString <$> exec_prop prop s)) f
       | PayloadObject o =>
           match o !! "hasOwnProperty" with
           | Some _ => throw TypeError
           | None =>
               f <- match o !! "suspended" with
                    | Some v => update_suspended (truthy v) f0
                    | None => ret f0
                    end ;;
               eachProp (update_prop (fun prop => o !! prop)) f
           end
       end ;;
  if negb (handled f) then node_status (Status "red" "dot" "Unsupported input")
  else if requiresBootstrap f then bootstrap fuel
  else ret tt.

End Schedex.

(** ** The spec's reading of a clock time *)
(** The pattern of the spec, in its words: the whole string is hours,
    a colon, minutes, with hours 0-23 and minutes 0-59. *)
Definition spec_clock (s : string) : option (Z * Z) :=
  match read_digits s with
  | Some (h, String ":" r) =>
      match read_digits r with
      | Some (mi, EmptyString) =>
          if (h <=? 23) && (mi <=? 59) then Some (h, mi) else None
      | _ => None
      end
  | _ => None
  end.


(** ** Sample configurations *)

(** 2016-11-07, a Monday, at 00:00, and a time of day on a day. *)
Definition monday : Z := 17112 * Moment.MS_DAY.
Definition at_time (day h mi : Z) : Z := day + h * Moment.MS_HOUR + mi * Moment.MS_MINUTE.

Definition every_day : list bool := [true; true; true; true; true; true; true].
Definition mondays_only : list bool := [false; true; false; false; false; false; false].
Definition no_day : list bool := [false; false; false; false; false; false; false].

(** The names under which every object inherits a function. *)
Definition inherited_functions : list string :=
  ["constructor"; "hasOwnProperty"; "isPrototypeOf"; "propertyIsEnumerable";
   "toLocaleString"; "toString"; "valueOf"].

(** A location and date for which SunCalc has no time under any name: a
    lookup finds nothing, or one of the functions every object inherits,
    of which [moment] makes an invalid moment. *)
Definition no_solar_times : Z -> Q -> Q -> string -> option Z :=
  fun _ _ _ name =>
    if existsb (String.eqb name) inherited_functions
    then Some (Moment.MAX_TIME + 1)
    else None.

Definition sample_env (wd : list bool) (clk : nat -> Z) (rnd : nat -> Q)
    (Hclk : forall k : nat, in_reach (clk k) = true) : env :=
  Env wd 0 0 clk rnd no_solar_times string_of_Z Hclk.

Definition sample_event (t p : string) (x : Z) (rnd : bool) : event :=
  Event t "lamp" p (Num x) rnd None None.

(** A node before its first [bootstrap]: on at 08:00, off at 20:00. *)
Definition fresh_node : node :=
  Node false (sample_event "08:00" "1" 0 false) (sample_event "20:00" "0" 0 false)
    ∅ 0 [] [] 0 0 0.

(** Only Mondays enabled; it is Monday 09:00. *)
Definition monday_9am_env : env :=
  sample_env mondays_only (fun _ => at_time monday 9 0) (fun _ => 0%Q)
    (fun _ => eq_refl).

(** Every day enabled; it is Monday 08:00:00.000. *)
Definition monday_8am_env : env :=
  sample_env every_day (fun _ => at_time monday 8 0) (fun _ => 0%Q)
    (fun _ => eq_refl).



(** Every day enabled; it is Monday 07:00:00.123. *)
Definition monday_7am_env : env :=
  sample_env every_day (fun _ => at_time monday 7 0 + 123) (fun _ => 0%Q)
    (fun _ => eq_refl).

(** The fresh node after its first [bootstrap] on Monday at 07:00: both
    timers armed, for 08:00 and 20:00. *)
Definition running_node : node := snd (bootstrap monday_7am_env 7 fresh_node).

(** A message that sets the on-time to a name SunCalc does not know. *)
Definition moonrise_input : input := PayloadObject {[ "ontime" := JString "moonrise" ]}.


(** Every pending timer is the one an event holds the handle of. *)
Definition timers_owned (n : node) : Prop :=
  forall (h : nat) (x : evname * Z),
    timers n !! h = Some x -> timeout (on n) = Some h \/ timeout (off n) = Some h.

(** No weekday enabled; it is Monday 07:00:00.123. *)
Definition no_day_env : env :=
  sample_env no_day (fun _ => at_time monday 7 0 + 123) (fun _ => 0%Q)
    (fun _ => eq_refl).

(** The fresh node after [bootstrap] with no weekday enabled: suspended
    by the mask, the flag [suspended] still false, no moment computed. *)
Definition idle_node : node := snd (bootstrap no_day_env 7 fresh_node).

(** ** What a reconfiguration message changes *)

(** The ten properties [eachProp] visits, in its order. *)
Definition all_props : list (evname * property) :=
  [(ON, P_time); (ON, P_topic); (ON, P_payload); (ON, P_offset); (ON, P_randomoffset);
   (OFF, P_time); (OFF, P_topic); (OFF, P_payload); (OFF, P_offset);
   (OFF, P_randomoffset)].

(** The message holds a value for this property. *)
Definition prop_present (lookup : string -> option jsval) (ep : evname * property) : bool :=
  match lookup (key (fst ep) ++ msgProperty (snd ep)) with
  | Some _ => true
  | None => false
  end.

(** The message holds a value for this property that, once passed through
    the property's constructor, differs ([!==]) from the value the node
    has. *)
Definition prop_changes (lookup : string -> option jsval) (n : node)
    (ep : evname * property) : bool :=
  match lookup (key (fst ep) ++ msgProperty (snd ep)) with
  | Some raw =>
      strict_neq (get_prop (snd ep) (events (fst ep) n)) (typeConstructor (snd ep) raw)
  | None => false
  end.

(** The node once the message's value for one property is stored. *)
Definition apply_prop (lookup : string -> option jsval) (n : node)
    (ep : evname * property) : node :=
  match lookup (key (fst ep) ++ msgProperty (snd ep)) with
  | Some raw =>
      set_event (fst ep)
        (set_prop (snd ep) (typeConstructor (snd ep) raw) (events (fst ep) n)) n
  | None => n
  end.

(** An object payload changes the flag [suspended] or one of the ten
    properties. *)
Definition object_changes (o : gmap string jsval) (n : node) : bool :=
  match o !! "suspended" with
  | Some v => negb (Bool.eqb (suspended n) (truthy v))
  | None => false
  end
  || existsb (prop_changes (fun prop => o !! prop) n) all_props.

(** A message that sets the on-topic to the word "suspended", as a string
    command and as an object. *)
Definition topic_command : input := PayloadString "ontopic suspended".
Definition topic_object : input := PayloadObject {[ "ontopic" := JString "suspended" ]}.

(** A computation that leaves the count of [bootstrap] calls alone,
    however it ends. *)
Definition keeps_bootstraps {A : Type} (c : M A) : Prop :=
  forall n : node, bootstraps (snd (c n)) = bootstraps n.

(** The timer table and the two handles are the same in both nodes. *)
Definition same_timers (n n' : node) : Prop :=
  timers n' = timers n /\
  timeout (on n') = timeout (on n) /\ timeout (off n') = timeout (off n).

(** The nodes the runtime can reach: the constructor ends with
    [bootstrap]; afterwards messages arrive, timers fire, and [suspend]
    runs on close.  Calls that throw leave the node as it is at the
    throw. *)
Inductive reachable (E : env) : node -> Prop :=
| reach_init (fuel : nat) (n : node) :
    timers n = ∅ -> reachable E (snd (bootstrap E fuel n))
| reach_input (fuel : nat) (msg : input) (n : node) :
    reachable E n -> reachable E (snd (on_input E fuel msg n))
| reach_fire (fuel : nat) (h : nat) (n : node) :
    reachable E n -> reachable E (snd (fire E fuel h n))
| reach_close (n : node) :
    reachable E n -> reachable E (snd (suspend E n)).

(** A computation that keeps every pending timer in the hands of an
    event, however it ends. *)
Definition keeps_owned {A : Type} (c : M A) : Prop :=
  forall n : node, timers_owned n -> timers_owned (snd (c n)).


(** ** Notions used to state further properties *)

(** No character of [s] is white space. *)
Fixpoint no_space (s : string) : bool :=
  match s with
  | EmptyString => true
  | String c s' => negb (is_space c) && no_space s'
  end.

(** A computation that leaves [f] of the node as it is, however it ends. *)
Definition keeps_proj {A X : Type} (f : node -> X) (c : M A) : Prop :=
  forall n : node, f (snd (c n)) = f n.

(** A computation that keeps the property [P] of the node, however it
    ends. *)
Definition keeps_inv {A : Type} (P : node -> Prop) (c : M A) : Prop :=
  forall n : node, P n -> P (snd (c n)).

(** What a message can configure: the five properties of each event and
    the flag [suspended]. *)
Definition event_config (e : event) : string * string * string * number * bool :=
  (time e, topic e, payload e, offset e, randomoffset e).

Definition node_config (n : node) :=
  (suspended n, event_config (on n), event_config (off n)).

(** The timer table, the handle counter and the two handles held. *)
Definition timer_state (n : node) :=
  (timers n, handles n, timeout (on n), timeout (off n)).

(** Every pending timer runs the callback of the event that holds its
    handle. *)
Definition timers_matched (n : node) : Prop :=
  forall (h : nat) (ev : evname) (d : Z),
    timers n !! h = Some (ev, d) -> timeout (events ev n) = Some h.

(** The handles the events hold were all given out already. *)
Definition handles_fresh (n : node) : Prop :=
  forall (ev : evname) (h : nat), timeout (events ev n) = Some h -> (h < handles n)%nat.

Definition well_formed (n : node) : Prop := timers_matched n /\ handles_fresh n.

(** What the first part of [schedule] leaves in [event.moment] when its
    clock reading is the one of index [k]: the clock time of the pattern,
    else SunCalc's time under that name, else the moment [e] has from
    before. *)
Definition resolved_at (E : env) (k : nat) (e : event) : option Z :=
  match exec_clock (time e) with
  | Some (h, mi) => Some (clock_time (clock E k) h mi)
  | None =>
      match getTimes E (clock E k) (lat E) (lon E) (time e) with
      | Some date => Some date
      | None => moment e
      end
  end.

(** How far [schedule] can move a moment once it is resolved: the offset,
    in minutes, and eight days for the seconds, the weekday loop and the
    rollover. *)
Definition reach (e : event) : Z :=
  match offset e with
  | Num x => Z.abs x * Moment.MS_MINUTE
  | NaN => 0
  end + 8 * Moment.MS_DAY.

(** The moment is valid and stays so whatever [schedule] adds to it. *)
Definition well_inside (e : event) (m : Z) : bool :=
  Moment.isValid (m - reach e) && Moment.isValid (m + reach e).

(** No timer is pending. *)
Definition no_timer (n : node) : Prop := timers n = ∅.

(** The node as the constructor leaves it before its call of
    [bootstrap]: no timer, no handle in the events. *)
Definition started (n : node) : Prop :=
  timers n = ∅ /\ timeout (on n) = None /\ timeout (off n) = None.

(** The nodes a started node comes to: [bootstrap] at the end of the
    constructor, then messages, firing timers and the close, each call
    taken with the node it leaves, however it ends. *)
Inductive runs (E : env) (n0 : node) : node -> Prop :=
| runs_bootstrap (fuel : nat) : runs E n0 (snd (bootstrap E fuel n0))
| runs_input (fuel : nat) (msg : input) (n : node) :
    runs E n0 n -> runs E n0 (snd (on_input E fuel msg n))
| runs_fire (fuel : nat) (h : nat) (n : node) :
    runs E n0 n -> runs E n0 (snd (fire E fuel h n))
| runs_close (n : node) :
    runs E n0 n -> runs E n0 (snd (suspend E n)).

(** ** The conversions, where they are exact *)

(** The safe integers, which [String] prints digit by digit. *)
Definition safe_integer (z : Z) : bool := Z.abs z <=? 9007199254740991.

Fixpoint no_digit (s : string) : bool :=
  match s with
  | EmptyString => true
  | String c s' => negb (is_digit c) && no_digit s'
  end.

(** The strings on which [Number_of_string] is [Number]: those it reads
    as a safe integer (white space around an optionally signed run of
    digits, or white space only), and those without any digit that do not
    hold the word Infinity, which are no numeric literal. *)
Definition number_text (s : string) : bool :=
  match Number_of_string s with
  | Num z => safe_integer z
  | NaN => no_digit s && negb (contains "Infinity" s)
  end.

(** The raw values on which the constructor of property [p] is embedded
    exactly: [Number] on a string needs a [number_text], [String] on a
    number a safe integer; [toBoolean] is exact throughout. *)
Definition exact_for (p : property) (raw : jsval) : bool :=
  match p, raw with
  | P_offset, JString s => number_text s
  | P_offset, _ => true
  | P_randomoffset, _ => true
  | _, JNumber (Num z) => safe_integer z
  | _, _ => true
  end.

(** Every value the object holds for one of the ten properties is one
    the embedding converts exactly. *)
Definition exact_object (o : gmap string jsval) : Prop :=
  forall (ev : evname) (p : property) (raw : jsval),
    o !! (key ev ++ msgProperty p) = Some raw -> exact_for p raw = true.

(** No offset in the object turns into [NaN]. *)
Definition offsets_are_numbers (o : gmap string jsval) : Prop :=
  forall (ev : evname) (raw : jsval),
    o !! (key ev ++ msgProperty P_offset) = Some raw -> Number_ raw <> NaN.

(** ** Construction of the node *)

(** [config], the object Node-RED hands to the constructor: its own
    properties, in order, each key once. *)
Definition config_t : Type := list (string * jsval).

(** [config[key]]; [undefined] when there is no such property. *)
Fixpoint config_get (config : config_t) (k : string) : jsval :=
  match config with
  | [] => JUndefined
  | (k', v) :: rest => if String.eqb k' k then v else config_get rest k
  end.

Definition upper (c : ascii) : ascii :=
  let n := nat_of_ascii c in
  if ((97 <=? n) && (n <=? 122))%nat then ascii_of_nat (n - 32) else c.

Fixpoint toUpperCase (s : string) : string :=
  match s with
  | String c s' => String (upper c) (toUpperCase s')
  | EmptyString => EmptyString
  end.

(** The predicate [setupEvent] gives to [_.pickBy]:
    [key && key.indexOf(eventName) === 0]. *)
Definition picked (eventName : string) (kv : string * jsval) : bool :=
  match fst kv with
  | EmptyString => false
  | _ => match starts_with eventName (fst kv) with Some _ => true | None => false end
  end.

(** The function it gives to [_.mapKeys]:
    [key.substring(eventName.length).toLowerCase()]. *)
Definition mapped_key (eventName key : string) : string :=
  toLowerCase (String.substring (String.length eventName)
                 (String.length key - String.length eventName) key).

(** What a property of the event object holds: a value that came from
    [config] or was assigned by [setupEvent], or the function assigned to
    [callback] (which is [callback] above). *)
Inductive slot := Data (v : jsval) | Callback.

(** [_.mapKeys] builds the result property by property; a key that comes
    again overwrites. *)
Definition mapKeys (f : string -> string) (l : config_t) : gmap string slot :=
  fold_left (fun (m : gmap string slot) kv => <[f (fst kv) := Data (snd kv)]> m) l ∅.

(** [setupEvent(eventName, shape)] as the constructor calls it, with
    ['on', 'dot'] and with ['off', 'ring']: the three assignments to
    [name], [shape] and [callback] come after [_.mapKeys] and overwrite
    what a config key may have put there. *)
Definition setupEvent (config : config_t) (ev : evname) : gmap string slot :=
  let eventName := key ev in
  let filtered := List.filter (picked eventName) config in
  let event := mapKeys (mapped_key eventName) filtered in
  <["callback" := Callback]>
    (<["shape" := Data (JString (shape ev))]>
       (<["name" := Data (JString (toUpperCase eventName))]> event)).

(** [v == undefined]. *)
Definition is_nullish (v : jsval) : bool :=
  match v with JUndefined | JNull => true | _ => false end.

Definition weekday_names : list string := ["sun"; "mon"; "tue"; "wed"; "thu"; "fri"; "sat"].

(** The migration code and the array [weekdays] built after it: when none
    of the seven attributes is defined, all of them become [true]. *)
Definition weekdays_of_config (config : config_t) : list jsval :=
  let vals := map (config_get config) weekday_names in
  if forallb is_nullish vals then map (fun _ => JBool true) weekday_names else vals.

(** [weekdays.indexOf(true)] on the raw values: only the boolean [true]
    is strictly equal to [true]. *)
Fixpoint indexOf_js_true (l : list jsval) : Z :=
  match l with
  | [] => -1
  | v :: l' =>
      match v with
      | JBool true => 0
      | _ => let i := indexOf_js_true l' in if i =? -1 then -1 else i + 1
      end
  end.

(** The samples of a config. *)
Definition sample_config : config_t :=
  [("name", JString "porch"); ("ontime", JString "08:00"); ("onTopic", JString "lamp");
   ("onoffset", JNumber (Num 0)); ("offtime", JString "dusk"); ("lat", JNumber (Num 51));
   ("mon", JBool true)].

(** [q] is the end of [a]. *)
Fixpoint is_suffix (q a : string) : bool :=
  String.eqb q a
  || match a with
     | String _ a' => is_suffix q a'
     | EmptyString => false
     end.

(** The string command that sets property [p] of event [ev] to the word
    [v]: the property's name, a blank, the word. *)
Definition command (ev : evname) (p : property) (v : string) : string :=
  (key ev ++ msgProperty p) ++ String " " v.

(** ** Further samples *)

(** Every day enabled; the first four clock readings ([bootstrap]) are
    Monday 12:00, the later ones Monday 23:50. *)
Definition monday_night_env : env :=
  sample_env every_day
    (fun i => if (i <? 4)%nat then at_time monday 12 0 else at_time monday 23 50)
    (fun _ => 0%Q)
    (fun i => match (i <? 4)%nat as b
                return in_reach (if b then at_time monday 12 0 else at_time monday 23 50)
                       = true
              with true => eq_refl | false => eq_refl end).

(** On at midnight less ten minutes, off at 20:00. *)
Definition before_midnight_node : node :=
  set_event ON (sample_event "00:00" "1" (-10) false) fresh_node.

(** On at 08:00 less fifty hours. *)
Definition long_offset_node : node :=
  set_event ON (sample_event "08:00" "1" (-3000) false) fresh_node.

(** On at hour 3000000000, which no [Date] reaches. *)
Definition far_hour_node : node :=
  set_event ON (sample_event "3000000000:00" "1" 0 false) fresh_node.

(** A message that sets that on-time. *)
Definition far_hour_input : input :=
  PayloadObject {[ "ontime" := JString "3000000000:00" ]}.

(** On at a time named toString, under which SunCalc's result has
    nothing of its own. *)
Definition inherited_name_node : node :=
  set_event ON (sample_event "toString" "1" 0 false) fresh_node.

(** ** The clock pattern, in words *)



(** * Properties *)

(** ** Weekdays and the weekday loop *)

Lemma weekday_range (m : Z) : 0 <= Moment.weekday m < 7.
Proof. unfold Moment.weekday. apply Z.mod_pos_bound. lia. Qed.

Lemma weekday_add_days (m k : Z) :
  Moment.weekday (Moment.add_days m k) = (Moment.weekday m + k) mod 7.
Proof.
  unfold Moment.weekday, Moment.add_days.
  rewrite Z.div_add by (unfold Moment.MS_DAY; lia).
  rewrite Zplus_mod_idemp_l. f_equal. lia.
Qed.

Lemma add_days_succ (m : Z) (k : nat) :
  Moment.add_days (Moment.add_days m 1) (Z.of_nat k) = Moment.add_days m (Z.of_nat (S k)).
Proof. unfold Moment.add_days. lia. Qed.

Lemma isValid_range (m : Z) :
  Moment.isValid m = true <-> - Moment.MAX_TIME <= m <= Moment.MAX_TIME.
Proof. unfold Moment.isValid. rewrite andb_true_iff, !Z.leb_le. tauto. Qed.

Lemma isValid_between (a m b : Z) :
  Moment.isValid a = true -> Moment.isValid b = true -> a <= m <= b ->
  Moment.isValid m = true.
Proof. rewrite !isValid_range. lia. Qed.

(** On an invalid moment the loop never stops. *)
Lemma weekday_loop_invalid (wd : list bool) (fuel : nat) (m : Z) :
  Moment.isValid m = false -> weekday_loop wd fuel m = None.
Proof. intros H. destruct fuel; simpl; rewrite H; reflexivity. Qed.

(** If the day [k] days after [m] is enabled and within range, the loop
    stops after at most [k] advances, on an enabled day. *)
Lemma weekday_loop_reach (wd : list bool) (k : nat) :
  forall (fuel : nat) (m : Z),
    (k <= fuel)%nat ->
    Moment.isValid m = true ->
    Moment.isValid (Moment.add_days m (Z.of_nat k)) = true ->
    mask_at wd (Moment.weekday (Moment.add_days m (Z.of_nat k))) = true ->
    exists (j : nat) (m' : Z),
      weekday_loop wd fuel m = Some (j, m') /\ (j <= k)%nat /\
      m' = Moment.add_days m (Z.of_nat j) /\
      mask_at wd (Moment.weekday m') = true.
Proof.
  induction k as [|k IH]; intros fuel m Hfuel Hv Hvk Hk.
  - replace (Moment.add_days m (Z.of_nat 0)) with m in Hk
      by (unfold Moment.add_days; lia).
    exists O, m. split.
    + destruct fuel; simpl; rewrite Hv, Hk; reflexivity.
    + repeat split; [lia | unfold Moment.add_days; lia | exact Hk].
  - destruct fuel as [|fuel]; [lia|].
    simpl. rewrite Hv. cbn [negb].
    destruct (mask_at wd (Moment.weekday m)) eqn:Hhere.
    + exists O, m. repeat split; [lia | unfold Moment.add_days; lia | exact Hhere].
    + rewrite <- add_days_succ in Hk, Hvk.
      assert (Hv1 : Moment.isValid (Moment.add_days m 1) = true).
      { apply (isValid_between m _ (Moment.add_days (Moment.add_days m 1) (Z.of_nat k)));
          [exact Hv | exact Hvk |].
        unfold Moment.add_days, Moment.MS_DAY. lia. }
      destruct (IH fuel (Moment.add_days m 1) ltac:(lia) Hv1 Hvk Hk)
        as (j & m' & Hrun & Hj & Hm' & Hen).
      exists (S j), m'. rewrite Hrun. repeat split; [lia | | exact Hen].
      rewrite Hm'. apply add_days_succ.
Qed.

(** From any day, an enabled weekday is at most six days ahead. *)
Lemma enabled_day_ahead (wd : list bool) (m i : Z) :
  0 <= i < 7 -> mask_at wd i = true ->
  exists k : nat, (k <= 6)%nat /\
    mask_at wd (Moment.weekday (Moment.add_days m (Z.of_nat k))) = true.
Proof.
  intros Hi Hmask.
  pose proof (weekday_range m) as Hw.
  exists (Z.to_nat ((i - Moment.weekday m) mod 7)).
  pose proof (Z.mod_pos_bound (i - Moment.weekday m) 7 ltac:(lia)) as Hk.
  split; [lia|].
  rewrite weekday_add_days, Z2Nat.id by lia.
  rewrite Zplus_mod_idemp_r.
  replace (Moment.weekday m + (i - Moment.weekday m)) with i by lia.
  rewrite Z.mod_small by lia. exact Hmask.
Qed.

(** From a valid moment that is still valid six days later, with a
    weekday enabled, the loop stops within six advances. *)
Lemma weekday_loop_six (wd : list bool) (fuel : nat) (m i : Z) :
  0 <= i < 7 -> mask_at wd i = true -> (6 <= fuel)%nat ->
  Moment.isValid m = true -> Moment.isValid (Moment.add_days m 6) = true ->
  exists (k : nat) (m' : Z),
    weekday_loop wd fuel m = Some (k, m') /\ (k <= 6)%nat /\
    m' = Moment.add_days m (Z.of_nat k) /\
    mask_at wd (Moment.weekday m') = true.
Proof.
  intros Hi Hmask Hfuel Hv Hv6.
  destruct (enabled_day_ahead wd m i Hi Hmask) as (k & Hk & Hen).
  assert (Hvk : Moment.isValid (Moment.add_days m (Z.of_nat k)) = true).
  { apply (isValid_between m _ (Moment.add_days m 6)); [exact Hv | exact Hv6 |].
    unfold Moment.add_days, Moment.MS_DAY. lia. }
  destruct (weekday_loop_reach wd k fuel m ltac:(lia) Hv Hvk Hen)
    as (j & m' & Hrun & Hj & Hm' & Hen').
  exists j, m'. repeat split; auto. lia.
Qed.

(** The result of the loop, whenever it stops, is a valid moment on an
    enabled day and not before its start. *)
Lemma weekday_loop_sound (wd : list bool) :
  forall (fuel : nat) (m : Z) (k : nat) (m' : Z),
    weekday_loop wd fuel m = Some (k, m') ->
    m' = Moment.add_days m (Z.of_nat k) /\ mask_at wd (Moment.weekday m') = true.
Proof.
  induction fuel as [|fuel IH]; intros m k m' Hrun; simpl in Hrun;
    destruct (Moment.isValid m); cbn [negb] in Hrun; try discriminate;
    destruct (mask_at wd (Moment.weekday m)) eqn:Hhere.
  - inversion Hrun; subst. split; [unfold Moment.add_days; lia | exact Hhere].
  - discriminate.
  - inversion Hrun; subst. split; [unfold Moment.add_days; lia | exact Hhere].
  - destruct (weekday_loop wd fuel (Moment.add_days m 1)) as [[j m'']|] eqn:Hrec;
      [|discriminate].
    inversion Hrun; subst.
    destruct (IH _ _ _ Hrec) as [Hm' Hen]. split; [|exact Hen].
    rewrite Hm'. apply add_days_succ.
Qed.

Lemma weekday_loop_valid (wd : list bool) :
  forall (fuel : nat) (m : Z) (k : nat) (m' : Z),
    weekday_loop wd fuel m = Some (k, m') ->
    Moment.isValid m = true /\ Moment.isValid m' = true.
Proof.
  induction fuel as [|fuel IH]; intros m k m' Hrun; simpl in Hrun;
    destruct (Moment.isValid m) eqn:Hv; cbn [negb] in Hrun; try discriminate;
    destruct (mask_at wd (Moment.weekday m)) eqn:Hhere.
  - inversion Hrun; subst. auto.
  - discriminate.
  - inversion Hrun; subst. auto.
  - destruct (weekday_loop wd fuel (Moment.add_days m 1)) as [[j m'']|] eqn:Hrec;
      [|discriminate].
    inversion Hrun; subst. destruct (IH _ _ _ Hrec) as [_ Hm']. auto.
Qed.

(** With no weekday enabled the loop never stops. *)
Lemma weekday_loop_diverges (wd : list bool) :
  (forall i : Z, mask_at wd i = false) ->
  forall (fuel : nat) (m : Z), weekday_loop wd fuel m = None.
Proof.
  intros Hnone. induction fuel as [|fuel IH]; intros m; simpl; rewrite Hnone;
    destruct (Moment.isValid m); cbn [negb]; auto.
  now rewrite IH.
Qed.

(** ** Time resolution *)

(** Setting hour and minute and clearing the seconds gives the start of
    the day of [t] plus [h] hours and [mi] minutes, with the milliseconds
    of [t]. *)
Lemma clock_moment (t h mi : Z) :
  Moment.seconds (Moment.minute (Moment.hour t h) mi) 0
  = Moment.startOfDay t + h * Moment.MS_HOUR + mi * Moment.MS_MINUTE
    + Moment.get_millisecond t.
Proof.
  unfold Moment.seconds, Moment.minute, Moment.hour, Moment.startOfDay,
    Moment.get_millisecond, Moment.MS_DAY, Moment.MS_HOUR, Moment.MS_MINUTE,
    Moment.MS_SECOND.
  Z.div_mod_to_equations. lia.
Qed.

Lemma clock_moment_fields (t h mi : Z) :
  0 <= h <= 23 -> 0 <= mi <= 59 ->
  let m := Moment.seconds (Moment.minute (Moment.hour t h) mi) 0 in
  Moment.startOfDay m = Moment.startOfDay t /\
  Moment.get_hour m = h /\ Moment.get_minute m = mi /\
  Moment.get_second m = 0 /\
  Moment.get_millisecond m = Moment.get_millisecond t.
Proof.
  intros Hh Hmi m. subst m. rewrite clock_moment.
  unfold Moment.startOfDay, Moment.get_hour, Moment.get_minute, Moment.get_second,
    Moment.get_millisecond, Moment.MS_DAY, Moment.MS_HOUR, Moment.MS_MINUTE,
    Moment.MS_SECOND.
  repeat split; Z.div_mod_to_equations; lia.
Qed.

Lemma read_digits_from_nonneg (s : string) :
  forall acc, 0 <= acc -> 0 <= fst (read_digits_from acc s).
Proof.
  induction s as [|c s IH]; intros acc Hacc; simpl; [exact Hacc|].
  destruct (is_digit c) eqn:Hd; simpl; [|exact Hacc].
  apply IH. unfold is_digit in Hd. unfold digit_val. lia.
Qed.

Lemma read_digits_nonneg (s r : string) (z : Z) :
  read_digits s = Some (z, r) -> 0 <= z.
Proof.
  destruct s as [|c s]; simpl; [discriminate|].
  destruct (is_digit c) eqn:Hd; [|discriminate].
  intros H. inversion H as [H1].
  pose proof (read_digits_from_nonneg s (digit_val c)) as Hn.
  rewrite H1 in Hn. apply Hn. unfold is_digit in Hd. unfold digit_val. lia.
Qed.

(** What the spec takes for a clock time, the node's pattern takes too,
    with the same hour and minute. *)
Lemma spec_clock_exec (s : string) (h mi : Z) :
  spec_clock s = Some (h, mi) ->
  exec_clock s = Some (h, mi) /\ 0 <= h <= 23 /\ 0 <= mi <= 59.
Proof.
  unfold spec_clock. intros H.
  destruct (read_digits s) as [[h' r]|] eqn:Hh; [|discriminate].
  destruct r as [|c r]; [discriminate|].
  destruct (Ascii.eqb_spec c ":") as [->|Hc].
  2:{ destruct c as [[] [] [] [] [] [] [] []]; try discriminate. congruence. }
  destruct (read_digits r) as [[mi' r']|] eqn:Hmi; [|discriminate].
  destruct r'; [|discriminate].
  destruct ((h' <=? 23) && (mi' <=? 59)) eqn:Hrange; [|discriminate].
  inversion H; subst.
  pose proof (read_digits_nonneg _ _ _ Hh). pose proof (read_digits_nonneg _ _ _ Hmi).
  split; [|lia].
  destruct s as [|a s]; [discriminate|].
  simpl. unfold clock_here. rewrite Hh, Hmi. reflexivity.
Qed.

(** ** The clock pattern *)

Lemma append_empty (s : string) : "" ++ s = s.
Proof. reflexivity. Qed.

Lemma append_String (c : ascii) (a s : string) : String c a ++ s = String c (a ++ s).
Proof. reflexivity. Qed.

Lemma decimal_String (c : ascii) (d : string) (acc : Z) :
  fold_left (fun acc c => 10 * acc + digit_val c) (list_ascii_of_string (String c d)) acc
  = fold_left (fun acc c => 10 * acc + digit_val c) (list_ascii_of_string d)
      (10 * acc + digit_val c).
Proof. reflexivity. Qed.










(** ** Validity *)

Lemma in_reach_range (m : Z) :
  in_reach m = true <->
  - Moment.MAX_TIME + 10 * Moment.MS_DAY <= m <= Moment.MAX_TIME - 10 * Moment.MS_DAY.
Proof.
  unfold in_reach. rewrite andb_true_iff, !isValid_range.
  unfold Moment.MS_DAY. lia.
Qed.

Lemma clock_in_reach (E : env) (k : nat) :
  - Moment.MAX_TIME + 10 * Moment.MS_DAY <= clock E k
  <= Moment.MAX_TIME - 10 * Moment.MS_DAY.
Proof. apply in_reach_range, clock_range. Qed.

Lemma clock_valid (E : env) (k : nat) : Moment.isValid (clock E k) = true.
Proof.
  pose proof (clock_in_reach E k). apply isValid_range.
  unfold Moment.MS_DAY in *. lia.
Qed.

(** A clock time within the day, set on a reading of the clock: a valid
    moment of the same day, nine days or more inside the range. *)
Lemma clock_time_day (E : env) (k : nat) (h mi : Z) :
  0 <= h <= 23 -> 0 <= mi <= 59 ->
  clock_time (clock E k) h mi = Moment.minute (Moment.hour (clock E k) h) mi /\
  - Moment.MAX_TIME + 9 * Moment.MS_DAY <= clock_time (clock E k) h mi
  <= Moment.MAX_TIME - 9 * Moment.MS_DAY.
Proof.
  intros Hh Hmi. pose proof (clock_in_reach E k) as Hc.
  unfold clock_time.
  assert (Hhour : - Moment.MAX_TIME + 9 * Moment.MS_DAY <= Moment.hour (clock E k) h
                  <= Moment.MAX_TIME - 9 * Moment.MS_DAY).
  { revert Hc. unfold Moment.hour, Moment.MAX_TIME, Moment.MS_DAY, Moment.MS_HOUR.
    intros Hc. Z.div_mod_to_equations. lia. }
  assert (Hv : Moment.isValid (Moment.hour (clock E k) h) = true).
  { apply isValid_range. unfold Moment.MS_DAY in Hhour. lia. }
  rewrite Hv. split; [reflexivity|].
  revert Hc. unfold Moment.minute, Moment.hour, Moment.MAX_TIME, Moment.MS_DAY,
    Moment.MS_HOUR, Moment.MS_MINUTE.
  intros Hc. Z.div_mod_to_equations. lia.
Qed.

(** [seconds(0)] keeps a valid moment valid. *)
Lemma seconds_valid (m : Z) :
  Moment.isValid m = true -> Moment.isValid (Moment.seconds m 0) = true.
Proof.
  rewrite !isValid_range.
  unfold Moment.seconds, Moment.MAX_TIME, Moment.MS_DAY, Moment.MS_MINUTE, Moment.MS_SECOND.
  intros H. Z.div_mod_to_equations. lia.
Qed.

Lemma seconds_near (m : Z) : m - Moment.MS_MINUTE < Moment.seconds m 0 <= m.
Proof.
  unfold Moment.seconds, Moment.MS_MINUTE, Moment.MS_SECOND.
  Z.div_mod_to_equations. lia.
Qed.

(** ** Running [schedule] *)

Section ScheduleProps.

Variable E : env.

Lemma resolve_clock (ev : evname) (n : node) (h mi : Z) :
  exec_clock (time (events ev n)) = Some (h, mi) ->
  resolve E ev n =
    (Ret tt,
     set_event ev
       (set_moment (Some (clock_time (clock E (reads n)) h mi))
          (events ev (set_reads (S (reads n)) n)))
       (set_reads (S (reads n)) n)).
Proof.
  intros Hexec. unfold resolve, bind, get. rewrite Hexec. reflexivity.
Qed.

Lemma resolve_solar (ev : evname) (n : node) (date : Z) :
  exec_clock (time (events ev n)) = None ->
  getTimes E (clock E (reads n)) (lat E) (lon E) (time (events ev n)) = Some date ->
  resolve E ev n =
    (Ret tt,
     set_event ev (set_moment (Some date) (events ev (set_reads (S (reads n)) n)))
       (set_reads (S (reads n)) n)).
Proof.
  intros Hexec Hsun. unfold resolve, bind, get. rewrite Hexec.
  unfold moment_now. rewrite Hsun. reflexivity.
Qed.

(** Neither a clock time nor a solar time: the node is as it was, but
    for the clock reading. *)
Lemma resolve_fails (ev : evname) (n : node) :
  exec_clock (time (events ev n)) = None ->
  getTimes E (clock E (reads n)) (lat E) (lon E) (time (events ev n)) = None ->
  resolve E ev n = (Ret tt, set_reads (S (reads n)) n).
Proof.
  intros Hexec Hsun. unfold resolve, bind, get. rewrite Hexec.
  unfold moment_now. rewrite Hsun. reflexivity.
Qed.

Lemma resolve_returns (ev : evname) (n : node) :
  exists n1 : node, resolve E ev n = (Ret tt, n1).
Proof.
  destruct (exec_clock (time (events ev n))) as [[h mi]|] eqn:Hexec.
  - eexists. apply resolve_clock. exact Hexec.
  - destruct (getTimes E (clock E (reads n)) (lat E) (lon E) (time (events ev n)))
      as [date|] eqn:Hsun.
    + eexists. apply resolve_solar; eassumption.
    + eexists. apply resolve_fails; assumption.
Qed.

(** After [resolve] the event holds [resolved_at], and nothing else of
    the event has changed. *)
Lemma resolve_moment (ev : evname) (n n1 : node) :
  resolve E ev n = (Ret tt, n1) ->
  moment (events ev n1) = resolved_at E (reads n) (events ev n) /\
  time (events ev n1) = time (events ev n) /\
  offset (events ev n1) = offset (events ev n) /\
  randomoffset (events ev n1) = randomoffset (events ev n) /\
  timeout (events ev n1) = timeout (events ev n) /\
  draws n1 = draws n.
Proof.
  unfold resolved_at.
  destruct (exec_clock (time (events ev n))) as [[h mi]|] eqn:Hexec.
  - rewrite (resolve_clock ev n h mi Hexec). intros H. inversion H.
    destruct ev; repeat split; reflexivity.
  - destruct (getTimes E (clock E (reads n)) (lat E) (lon E) (time (events ev n)))
      as [date|] eqn:Hsun.
    + rewrite (resolve_solar ev n date Hexec Hsun). intros H. inversion H.
      destruct ev; repeat split; reflexivity.
    + rewrite (resolve_fails ev n Hexec Hsun). intros H. inversion H.
      destruct ev; repeat split; reflexivity.
Qed.

Lemma adjustment_returns (x : Z) (rnd : bool) (n : node) :
  exists (a : Q) (n' : node), adjustment E x rnd n = (Ret a, n').
Proof. destruct rnd; simpl; eexists; eexists; reflexivity. Qed.

Lemma apply_offset_returns (e : event) (m : Z) (n : node) :
  exists (m1 : Z) (n2 : node), apply_offset E e m n = (Ret m1, n2).
Proof.
  unfold apply_offset. destruct (offset e) as [x|]; [|eexists; eexists; reflexivity].
  destruct (x =? 0); [eexists; eexists; reflexivity|].
  unfold bind. destruct (adjustment_returns x (randomoffset e) n) as (a & n' & ->).
  eexists; eexists; reflexivity.
Qed.

Lemma offset_moment_returns (e : event) (m0 : Z) (n : node) :
  exists (m1 : Z) (n2 : node), offset_moment E e m0 n = (Ret m1, n2).
Proof.
  unfold offset_moment. destruct (Moment.isValid m0).
  - apply apply_offset_returns.
  - unfold bind. destruct (apply_offset_returns e m0 n) as (m1 & n2 & ->).
    eexists; eexists; reflexivity.
Qed.

(** An invalid moment stays as it is. *)
Lemma offset_moment_invalid (e : event) (m0 m1 : Z) (n n2 : node) :
  Moment.isValid m0 = false -> offset_moment E e m0 n = (Ret m1, n2) -> m1 = m0.
Proof.
  unfold offset_moment. intros ->. unfold bind.
  destruct (apply_offset_returns e m0 n) as (m & n' & ->).
  unfold ret. intros H. now inversion H.
Qed.

(** The armed path of [schedule]: once resolution has left a moment in
    the event, the offset is applied, the weekday loop is run, the
    rollover is decided against the first clock reading, the old timer is
    cleared and a new one is armed. *)
Lemma schedule_armed (fuel : nat) (ev : evname) (isInitial : bool)
    (n n1 n2 : node) (m0 m1 c : Z) (k : nat) :
  resolve E ev (set_reads (S (reads n)) n) = (Ret tt, n1) ->
  moment (events ev n1) = Some m0 ->
  offset_moment E (events ev n1) m0 n1 = (Ret m1, n2) ->
  weekday_loop (weekdays E) fuel m1 = Some (k, c) ->
  let now := clock E (reads n) in
  let m := rollover isInitial now c in
  exists n' : node,
    schedule E fuel ev isInitial n = (Ret tt, n') /\
    moment (events ev n') = Some m /\
    timeout (events ev n') = Some (handles n2) /\
    timers n' = <[handles n2 := (ev, delay_of m now)]>
                  (match timeout (events ev n1) with
                   | Some h => delete h (timers n2)
                   | None => timers n2
                   end) /\
    statuses n' = statuses n2 /\ sent n' = sent n2.
Proof.
  intros Hres Hm0 Hoff Hloop now m.
  unfold schedule, bind, moment_now at 1.
  rewrite Hres. unfold get at 1. cbv beta iota. rewrite Hm0, Hoff.
  unfold adjust_weekday. rewrite Hloop. unfold ret at 1.
  unfold update_event, clearTimeout, setTimeout, modify.
  destruct (timeout (events ev n1)); eexists; (split; [reflexivity|]);
    destruct ev; simpl; auto.
Qed.

(** The path that never ends: the weekday loop does not stop. *)
Lemma schedule_hangs (fuel : nat) (ev : evname) (isInitial : bool)
    (n n1 n2 : node) (m0 m1 : Z) :
  resolve E ev (set_reads (S (reads n)) n) = (Ret tt, n1) ->
  moment (events ev n1) = Some m0 ->
  offset_moment E (events ev n1) m0 n1 = (Ret m1, n2) ->
  weekday_loop (weekdays E) fuel m1 = None ->
  schedule E fuel ev isInitial n = (Hang, n2).
Proof.
  intros Hres Hm0 Hoff Hloop.
  unfold schedule, bind, moment_now at 1.
  rewrite Hres. unfold get at 1. cbv beta iota. rewrite Hm0, Hoff.
  unfold adjust_weekday. rewrite Hloop. reflexivity.
Qed.

(** The failing path: no moment in the event after resolution. *)
Lemma schedule_invalid (fuel : nat) (ev : evname) (isInitial : bool) (n n1 : node) :
  resolve E ev (set_reads (S (reads n)) n) = (Ret tt, n1) ->
  moment (events ev n1) = None ->
  schedule E fuel ev isInitial n =
    (Ret tt,
     set_statuses (Status "red" "dot" ("Invalid time: " ++ time (events ev n1))
                     :: statuses n1) n1).
Proof.
  intros Hres Hm0.
  unfold schedule, bind, moment_now at 1.
  rewrite Hres. unfold get at 1. cbv beta iota. rewrite Hm0. reflexivity.
Qed.

(** A moment that resolution leaves invalid: [schedule] never returns,
    whatever the weekdays and the fuel. *)
Lemma schedule_invalid_moment (fuel : nat) (ev : evname) (isInitial : bool)
    (n : node) (m0 : Z) :
  resolved_at E (S (reads n)) (events ev n) = Some m0 ->
  Moment.isValid m0 = false ->
  fst (schedule E fuel ev isInitial n) = Hang.
Proof.
  intros Hres Hinv.
  destruct (resolve_returns ev (set_reads (S (reads n)) n)) as (n1 & Hrun).
  destruct (resolve_moment ev _ n1 Hrun) as (Hm & _).
  replace (events ev (set_reads (S (reads n)) n)) with (events ev n) in Hm
    by (destruct ev; reflexivity).
  cbn [reads set_reads] in Hm. rewrite Hres in Hm.
  destruct (offset_moment_returns (events ev n1) m0 n1) as (m1 & n2 & Hoff).
  pose proof (offset_moment_invalid _ _ _ _ _ Hinv Hoff) as ->.
  rewrite (schedule_hangs fuel ev isInitial n n1 n2 m0 m0 Hrun Hm Hoff
             (weekday_loop_invalid _ fuel m0 Hinv)).
  reflexivity.
Qed.

End ScheduleProps.

(** ** The next-fire moment *)

(** C1 (the code departs from it).  Claim: with at least one weekday
    enabled, the moment [schedule] computes, rollover included, is on an
    enabled weekday.  On the code: only Mondays are enabled, it is Monday
    09:00 and the event is due at 08:00; the weekday loop accepts Monday
    08:00, the rollover then adds a day without looking at the mask, and
    the timer is armed for Tuesday 08:00, a disabled day. *)
Theorem rollover_lands_on_disabled_weekday :
  exists n' : node,
    schedule monday_9am_env 7 ON true fresh_node = (Ret tt, n') /\
    moment (events ON n') = Some (at_time (monday + Moment.MS_DAY) 8 0) /\
    Moment.weekday (at_time (monday + Moment.MS_DAY) 8 0) = 2 /\
    mask_at (weekdays monday_9am_env) 2 = false /\
    mask_at (weekdays monday_9am_env) 1 = true /\
    timers n' !! 0%nat = Some (ON, 23 * Moment.MS_HOUR).
Proof.
  eexists. split; [vm_compute; reflexivity|].
  repeat split; vm_compute; reflexivity.
Qed.

Lemma rollover_initial (now c : Z) :
  now - Moment.MS_DAY < c -> now <= rollover true now c.
Proof.
  unfold rollover, Moment.isAfter, Moment.add_days, Moment.MS_DAY. simpl.
  destruct (c <? now) eqn:Hlt; lia.
Qed.

Lemma rollover_rearm (now c : Z) : rollover false now c = c + Moment.MS_DAY.
Proof. unfold rollover, Moment.add_days. simpl. lia. Qed.

(** A first computation keeps a candidate that is not in the past, and
    with it the enabled weekday the loop stopped at. *)
Lemma rollover_initial_future (now c : Z) : now <= c -> rollover true now c = c.
Proof.
  intros Hle. unfold rollover, Moment.isAfter. simpl.
  destruct (Z.ltb_spec c now); [lia | reflexivity].
Qed.

(** The rollover adds a day at most. *)
Lemma rollover_near (isInitial : bool) (now c : Z) :
  c <= rollover isInitial now c <= c + Moment.MS_DAY.
Proof.
  unfold rollover, Moment.add_days, Moment.MS_DAY.
  destruct (negb isInitial || isInitial && Moment.isAfter now c); lia.
Qed.

(** C2 (the code departs from it).  Claim: a first computation never
    gives a moment at or before now, and re-arming after a firing gives a
    moment at least one day after that firing.  On the code, with a
    negative offset the offset is taken off today's time and the rollover
    adds one day, whatever the result.  First computation: on at 08:00
    less fifty hours, read on Monday at 07:00, gives Sunday 06:00, a day
    in the past, and a timer with a negative delay.  Re-arming: on at
    00:00 less ten minutes is armed on Monday noon for Monday 23:50; when
    that timer fires, today's 00:00 less ten minutes plus a day is Monday
    23:50 again, the moment of the firing itself, and the new timer has
    delay 0; when it fires the same happens once more.  Each firing emits
    the message. *)
Theorem negative_offset_refires :
  (exists n' : node,
      schedule monday_7am_env 7 ON true long_offset_node = (Ret tt, n') /\
      moment (events ON n') = Some (at_time (monday - Moment.MS_DAY) 6 0 + 123) /\
      at_time (monday - Moment.MS_DAY) 6 0 + 123 < clock monday_7am_env 0 /\
      timers n' !! 0%nat = Some (ON, - (25 * Moment.MS_HOUR))) /\
  (exists n1 n2 n3 : node,
      bootstrap monday_night_env 7 before_midnight_node = (Ret tt, n1) /\
      moment (on n1) = Some (at_time monday 23 50) /\
      timers n1 !! 0%nat = Some (ON, 11 * Moment.MS_HOUR + 50 * Moment.MS_MINUTE) /\
      fire monday_night_env 7 0 n1 = (Ret tt, n2) /\
      moment (on n2) = Some (at_time monday 23 50) /\
      timers n2 !! 2%nat = Some (ON, 0) /\
      fire monday_night_env 7 2 n2 = (Ret tt, n3) /\
      moment (on n3) = Some (at_time monday 23 50) /\
      timers n3 !! 3%nat = Some (ON, 0) /\
      sent n3 = [Message "lamp" "1"; Message "lamp" "1"]).
Proof.
  split.
  - eexists. split; [vm_compute; reflexivity|].
    split; [vm_compute; reflexivity|]. split; vm_compute; reflexivity.
  - eexists. eexists. eexists.
    split; [vm_compute; reflexivity|].
    split; [vm_compute; reflexivity|].
    split; [vm_compute; reflexivity|].
    split; [vm_compute; reflexivity|].
    split; [vm_compute; reflexivity|].
    split; [vm_compute; reflexivity|].
    split; [vm_compute; reflexivity|].
    split; [vm_compute; reflexivity|].
    split; vm_compute; reflexivity.
Qed.

(** ** Time specs that do not resolve *)

Section Unresolved.

Variable E : env.


End Unresolved.

(** C3 (the code departs from it).  Claim: when resolution of the time
    spec fails, [schedule] reports an error and arms no timer, whatever
    the event's earlier state.  On the code: the node runs with on at
    08:00; a message sets the on-time to "moonrise", which is no clock
    time and which SunCalc does not know.  The moment of the earlier
    computation is still in the event, so [schedule] goes on with it: no
    "Invalid time" status, and a new timer (handle 2) armed for the old
    08:00. *)
Theorem stale_moment_is_rearmed :
  exec_clock "moonrise" = None /\
  (forall d : Z, getTimes monday_7am_env d (lat monday_7am_env) (lon monday_7am_env)
                   "moonrise" = None) /\
  moment (on running_node) = Some (at_time monday 8 0 + 123) /\
  exists n' : node,
    on_input monday_7am_env 7 moonrise_input running_node = (Ret tt, n') /\
    time (on n') = "moonrise" /\
    moment (on n') = Some (at_time monday 8 0 + 123) /\
    timeout (on n') = Some 2%nat /\
    timers n' !! 2%nat = Some (ON, Moment.MS_HOUR) /\
    Forall (fun s => fill s = "yellow") (statuses n').
Proof.
  split; [reflexivity|]. split; [reflexivity|]. split; [vm_compute; reflexivity|].
  eexists. split; [vm_compute; reflexivity|].
  repeat split; try (vm_compute; reflexivity).
  cbn. repeat constructor.
Qed.

(** ** Clock times *)

Section TimeResolution.

Variable E : env.


End TimeResolution.



(** ** Suspending *)

Section Lifecycle.

Variable E : env.

Lemma suspend_run (n : node) :
  suspend E n =
    (Ret tt,
     set_statuses
       (Status "grey" "dot"
          ("Scheduling suspended "
           ++ (if indexOf_true (weekdays E) =? -1
               then "(no weekdays selected) " else "")
           ++ "- manual mode only") :: statuses n)
       (set_timers
          (match timeout (off n) with
           | Some h => delete h
           | None => fun t => t
           end (match timeout (on n) with
                | Some h => delete h (timers n)
                | None => timers n
                end)) n)).
Proof.
  unfold suspend, bind, get, clearTimeout, node_status, modify, ret.
  destruct (timeout (on n)), (timeout (off n)); reflexivity.
Qed.

(** C5.  With all seven weekday entries false, [bootstrap] suspends,
    whatever the flag [suspended] is: it returns, both events' timers are
    cancelled (no timer at all is left when every pending timer was an
    event's), the status is the one of the suspended mode, naming the
    weekdays as the cause, and nothing is scheduled. *)
Theorem bootstrap_no_weekday_suspends (fuel : nat) (n : node) :
  weekdays E = no_day ->
  exists n' : node,
    bootstrap E fuel n = (Ret tt, n') /\
    (forall h : nat, timeout (on n) = Some h -> timers n' !! h = None) /\
    (forall h : nat, timeout (off n) = Some h -> timers n' !! h = None) /\
    (timers_owned n -> timers n' = ∅) /\
    statuses n' =
      Status "grey" "dot"
        "Scheduling suspended (no weekdays selected) - manual mode only"
      :: statuses n /\
    suspended n' = suspended n /\ on n' = on n /\ off n' = off n /\
    handles n' = handles n /\ reads n' = reads n.
Proof.
  intros Hwd. unfold bootstrap, bind, modify, get. cbv beta iota.
  rewrite Hwd. replace (indexOf_true no_day =? -1) with true by reflexivity.
  rewrite orb_true_r, suspend_run, Hwd.
  eexists. split; [reflexivity|]. cbn.
  split; [|split; [|split]].
  - intros h ->. destruct (timeout (off n)) as [h'|].
    + destruct (decide (h' = h)) as [->|Hne].
      * apply lookup_delete_eq.
      * rewrite lookup_delete_ne by exact Hne. apply lookup_delete_eq.
    + apply lookup_delete_eq.
  - intros h ->. destruct (timeout (on n)); apply lookup_delete_eq.
  - intros Hown. apply map_eq. intros h. rewrite lookup_empty.
    destruct (timers n !! h) as [x|] eqn:Hh.
    + destruct (Hown h x Hh) as [Hon|Hoff].
      * rewrite Hon. destruct (timeout (off n)) as [h'|].
        -- destruct (decide (h' = h)) as [->|Hne].
           ++ apply lookup_delete_eq.
           ++ rewrite lookup_delete_ne by exact Hne. apply lookup_delete_eq.
        -- apply lookup_delete_eq.
      * rewrite Hoff. destruct (timeout (on n)); apply lookup_delete_eq.
    + destruct (timeout (on n)) as [h1|], (timeout (off n)) as [h2|];
        repeat (rewrite lookup_delete_None; right); auto.
  - repeat split; reflexivity.
Qed.

End Lifecycle.

(** A check of [timers_owned] that can be run on a given node. *)
Lemma timers_owned_list (n : node) :
  Forall (fun hx : nat * (evname * Z) =>
            timeout (on n) = Some (fst hx) \/ timeout (off n) = Some (fst hx))
    (map_to_list (timers n)) ->
  timers_owned n.
Proof.
  intros Hall h x Hh. apply elem_of_map_to_list in Hh.
  rewrite Forall_forall in Hall. exact (Hall (h, x) Hh).
Qed.

Lemma running_node_owns_timers (b : bool) : timers_owned (set_suspended b running_node).
Proof.
  apply timers_owned_list. vm_compute.
  repeat (constructor; [first [left; reflexivity | right; reflexivity]|]).
  constructor.
Qed.

(** [bootstrap_no_weekday_suspends] at work on the running node, once with
    the flag [suspended] false and once with it true. *)
Lemma bootstrap_no_weekday_suspends_witness :
  weekdays no_day_env = no_day /\
  (exists n' : node,
      bootstrap no_day_env 7 (set_suspended false running_node) = (Ret tt, n') /\
      timers n' = ∅) /\
  (exists n' : node,
      bootstrap no_day_env 7 (set_suspended true running_node) = (Ret tt, n') /\
      timers n' = ∅).
Proof.
  split; [reflexivity|]. split.
  - destruct (bootstrap_no_weekday_suspends no_day_env 7
                (set_suspended false running_node) eq_refl)
      as (n' & Hrun & _ & _ & Hnone & _).
    exists n'. split; [exact Hrun|]. apply Hnone, running_node_owns_timers.
  - destruct (bootstrap_no_weekday_suspends no_day_env 7
                (set_suspended true running_node) eq_refl)
      as (n' & Hrun & _ & _ & Hnone & _).
    exists n'. split; [exact Hrun|]. apply Hnone, running_node_owns_timers.
Defined.

(** ** Sending *)

Section Sending.

Variable E : env.

(** C10.  With the flag [suspended] false and no moment in the inverse
    event, [send] emits the message and then fails while it builds the
    status text: it throws, and no status is published. *)
Theorem send_needs_inverse_moment (ev : evname) (manual : bool) (n : node) :
  suspended n = false ->
  moment (events (inverse ev) n) = None ->
  send E ev manual n =
    (Throw TypeError,
     set_sent (Message (topic (events ev n)) (payload (events ev n)) :: sent n) n).
Proof.
  intros Hsusp Hnone.
  unfold send, bind, get, node_send, modify. cbv beta iota.
  rewrite Hsusp.
  replace (events (inverse ev)
             (set_sent (Message (topic (events ev n)) (payload (events ev n)) :: sent n) n))
    with (events (inverse ev) n) by (destruct ev; reflexivity).
  rewrite Hnone. reflexivity.
Qed.

(** In every other state [send] completes: message out, status
    published. *)
Lemma send_completes (ev : evname) (manual : bool) (n : node) :
  suspended n = true \/ (exists m : Z, moment (events (inverse ev) n) = Some m) ->
  exists tail : string,
    send E ev manual n =
      (Ret tt,
       set_statuses
         (Status (if manual then "blue" else "green") (shape ev)
            (name ev ++ (if manual then " manual" else " auto") ++ tail)
          :: statuses n)
         (set_sent (Message (topic (events ev n)) (payload (events ev n)) :: sent n) n)).
Proof.
  intros Hok. unfold send, bind, get, node_send, node_status, modify. cbv beta iota.
  destruct (suspended n) eqn:Hsusp.
  - eexists. reflexivity.
  - destruct Hok as [Hs|[m Hm]]; [discriminate|].
    replace (events (inverse ev)
               (set_sent (Message (topic (events ev n)) (payload (events ev n)) :: sent n) n))
      with (events (inverse ev) n) by (destruct ev; reflexivity).
    rewrite Hm. eexists. reflexivity.
Qed.

(** Whatever the outcome, [send] changes nothing but the two logs, and
    the message is the event's. *)
Lemma send_frame (ev : evname) (manual : bool) (n : node) :
  let n' := snd (send E ev manual n) in
  suspended n' = suspended n /\ on n' = on n /\ off n' = off n /\
  timers n' = timers n /\ handles n' = handles n /\
  sent n' = Message (topic (events ev n)) (payload (events ev n)) :: sent n.
Proof.
  unfold send, bind, get, node_send, node_status, modify. cbv beta iota zeta.
  replace (events (inverse ev)
             (set_sent (Message (topic (events ev n)) (payload (events ev n)) :: sent n) n))
    with (events (inverse ev) n) by (destruct ev; reflexivity).
  destruct (suspended n) eqn:Hs; [|destruct (moment (events (inverse ev) n))];
    cbn; rewrite ?Hs; auto 10.
Qed.

(** A manual fire request is [send] with [manual] set; the timers, the
    moments and the configuration stay as they are. *)
Lemma manual_fire_frame (fuel : nat) (ev : evname) (n : node) :
  let n' := snd (on_input E fuel (PayloadString (key ev)) n) in
  suspended n' = suspended n /\ on n' = on n /\ off n' = off n /\
  timers n' = timers n /\ handles n' = handles n /\
  sent n' = Message (topic (events ev n)) (payload (events ev n)) :: sent n.
Proof.
  pose proof (send_frame ev true n) as Hframe.
  unfold on_input, bind. destruct ev; cbn [key String.eqb Ascii.eqb Bool.eqb];
    cbv beta iota zeta in *;
    destruct (send E _ true n) as [[[]|e|] n1]; cbn in *; exact Hframe.
Qed.

Lemma manual_fire_status (fuel : nat) (ev : evname) (n : node) :
  suspended n = true \/ (exists m : Z, moment (events (inverse ev) n) = Some m) ->
  exists (tail : string) (n' : node),
    on_input E fuel (PayloadString (key ev)) n = (Ret tt, n') /\
    statuses n' = Status "blue" (shape ev) (name ev ++ " manual" ++ tail) :: statuses n.
Proof.
  intros Hok. destruct (send_completes ev true n Hok) as (tail & Hsend).
  exists tail. unfold on_input, bind.
  destruct ev; cbn [key String.eqb Ascii.eqb Bool.eqb]; rewrite Hsend;
    eexists; (split; [reflexivity|]); reflexivity.
Qed.

End Sending.

(** [send_needs_inverse_moment] at work: the timer callback's [send] of ON
    on a node whose OFF event never got a moment. *)
Lemma send_needs_inverse_moment_witness :
  suspended fresh_node = false /\
  moment (events (inverse ON) fresh_node) = None /\
  send monday_7am_env ON false fresh_node =
    (Throw TypeError, set_sent [Message "lamp" "1"] fresh_node).
Proof.
  split; [reflexivity|]. split; [reflexivity|].
  exact (send_needs_inverse_moment monday_7am_env ON false fresh_node eq_refl eq_refl).
Defined.

(** C9 (the code departs from it).  Claim: in every state a manual fire
    emits the event's message and publishes a manual-mode status, leaving
    timers, moments and configuration alone.  On the code: no weekday is
    enabled and the flag [suspended] is false; [bootstrap] has suspended
    the node with the status "... (no weekdays selected) - manual mode
    only".  The payload "on" then emits the message and throws before any
    status is published: the status is still the one of [bootstrap]. *)
Theorem manual_fire_throws_when_idle :
  statuses idle_node =
    [Status "grey" "dot" "Scheduling suspended (no weekdays selected) - manual mode only"] /\
  suspended idle_node = false /\
  exists n' : node,
    on_input no_day_env 7 (PayloadString "on") idle_node = (Throw TypeError, n') /\
    sent n' = [Message "lamp" "1"] /\
    statuses n' = statuses idle_node.
Proof.
  split; [vm_compute; reflexivity|]. split; [vm_compute; reflexivity|].
  eexists. split; [vm_compute; reflexivity|]. split; vm_compute; reflexivity.
Qed.

(** ** Offsets *)

Lemma TimeClip_inject_Z (z : Z) : Moment.TimeClip (inject_Z z) = z.
Proof.
  unfold Moment.TimeClip, Qceiling. destruct (Qle_bool 0 (inject_Z z)).
  - apply Qfloor_Z.
  - rewrite <- inject_Z_opp, Qfloor_Z. lia.
Qed.

(** Adding a whole number of minutes moves the moment by as many times
    60 000 ms. *)
Lemma add_minutes_whole (m x : Z) :
  Moment.add_minutes m (inject_Z x) = m + x * Moment.MS_MINUTE.
Proof.
  unfold Moment.add_minutes.
  rewrite <- inject_Z_mult, <- inject_Z_plus. apply TimeClip_inject_Z.
Qed.

Section Offsets.

Variable E : env.


End Offsets.


(** The moment itself moves by a whole number of milliseconds, since
    [setTime] drops the fraction of the sum: for a moment after 1970 the
    move is from 0 up to, but not including, a positive offset, and from a
    negative offset, included, up to 0. *)
Lemma random_shift_positive (m x : Z) (r : Q) :
  0 <= m -> 0 < x -> (0 <= r < 1)%Q ->
  m <= Moment.add_minutes m (inject_Z x * r) < m + x * Moment.MS_MINUTE.
Proof.
  intros Hm Hx [Hr0 Hr1]. unfold Moment.add_minutes, Moment.TimeClip.
  set (q := (inject_Z m + inject_Z x * r * inject_Z Moment.MS_MINUTE)%Q).
  assert (Hxq : (0 < inject_Z x)%Q) by (unfold Qlt; simpl; lia).
  assert (Hmq : (0 <= inject_Z m)%Q) by (unfold Qle; simpl; lia).
  assert (Hlo : (inject_Z m <= q)%Q).
  { subst q. change (inject_Z Moment.MS_MINUTE) with 60000%Q. nra. }
  assert (Hhi : (q < inject_Z (m + x * Moment.MS_MINUTE))%Q).
  { subst q. rewrite inject_Z_plus, inject_Z_mult.
    change (inject_Z Moment.MS_MINUTE) with 60000%Q. nra. }
  assert (Hq0 : Qle_bool 0 q = true) by (apply Qle_bool_iff; lra).
  rewrite Hq0. split.
  - rewrite <- (Qfloor_Z m). apply Qfloor_resp_le. exact Hlo.
  - rewrite Zlt_Qlt. eapply Qle_lt_trans; [apply Qfloor_le | exact Hhi].
Qed.

Lemma random_shift_negative (m x : Z) (r : Q) :
  0 <= m + x * Moment.MS_MINUTE -> x < 0 -> (0 <= r < 1)%Q ->
  m + x * Moment.MS_MINUTE <= Moment.add_minutes m (inject_Z x * r) <= m.
Proof.
  intros Hm Hx [Hr0 Hr1]. unfold Moment.add_minutes, Moment.TimeClip.
  set (q := (inject_Z m + inject_Z x * r * inject_Z Moment.MS_MINUTE)%Q).
  assert (Hxq : (inject_Z x < 0)%Q) by (unfold Qlt; simpl; lia).
  assert (Hhi : (q <= inject_Z m)%Q).
  { subst q. change (inject_Z Moment.MS_MINUTE) with 60000%Q. nra. }
  assert (Hlo : (inject_Z (m + x * Moment.MS_MINUTE) <= q)%Q).
  { subst q. rewrite inject_Z_plus, inject_Z_mult.
    change (inject_Z Moment.MS_MINUTE) with 60000%Q. nra. }
  assert (Hq0 : Qle_bool 0 q = true).
  { apply Qle_bool_iff. eapply Qle_trans; [|exact Hlo].
    unfold Qle; simpl; lia. }
  rewrite Hq0. split.
  - rewrite <- (Qfloor_Z (m + x * Moment.MS_MINUTE)). apply Qfloor_resp_le. exact Hlo.
  - rewrite <- (Qfloor_Z m). apply Qfloor_resp_le. exact Hhi.
Qed.

(** The lower end is reached for a negative offset: a draw of 1 - 10^-9
    with an offset of minus one minute moves the moment back by the full
    60 000 ms. *)
Example random_shift_reaches_offset :
  Moment.add_minutes monday (inject_Z (-1) * (999999999 # 1000000000))
  = monday - 1 * Moment.MS_MINUTE.
Proof. vm_compute. reflexivity. Qed.

(** ** Reconfiguration *)

Lemma keeps_ret {A : Type} (a : A) : keeps_bootstraps (ret a).
Proof. intros n. reflexivity. Qed.

Lemma keeps_throw {A : Type} (e : string) : keeps_bootstraps (@throw A e).
Proof. intros n. reflexivity. Qed.

Lemma keeps_hang {A : Type} : keeps_bootstraps (@hang A).
Proof. intros n. reflexivity. Qed.

Lemma keeps_get : keeps_bootstraps get.
Proof. intros n. reflexivity. Qed.

Lemma keeps_modify (f : node -> node) :
  (forall n, bootstraps (f n) = bootstraps n) -> keeps_bootstraps (modify f).
Proof. intros Hf n. apply Hf. Qed.

Lemma keeps_bind {A B : Type} (c : M A) (k : A -> M B) :
  keeps_bootstraps c -> (forall a, keeps_bootstraps (k a)) -> keeps_bootstraps (bind c k).
Proof.
  intros Hc Hk n. unfold bind. specialize (Hc n).
  destruct (c n) as [[a|e|] n1]; simpl in *; [|assumption|assumption].
  rewrite (Hk a n1). exact Hc.
Qed.

Ltac keeps_step :=
  first
    [ apply keeps_ret | apply keeps_throw | apply keeps_hang | apply keeps_get
    | apply keeps_bind; [|intros ?]
    | apply keeps_modify; intros ?; reflexivity
    | match goal with
      | |- keeps_bootstraps (match ?x with _ => _ end) => destruct x
      | |- keeps_bootstraps (if ?x then _ else _) => destruct x
      end ].

Section Reconfigure.

Variable E : env.

Lemma keeps_moment_now : keeps_bootstraps (moment_now E).
Proof. intros n. reflexivity. Qed.

Lemma keeps_Math_random : keeps_bootstraps (Math_random E).
Proof. intros n. reflexivity. Qed.

Lemma keeps_setTimeout (ev : evname) (d : Z) : keeps_bootstraps (setTimeout ev d).
Proof. intros n. reflexivity. Qed.

Lemma keeps_clearTimeout (h : option nat) : keeps_bootstraps (clearTimeout h).
Proof. destruct h as [i|]; intros n; reflexivity. Qed.

Lemma keeps_update_event (ev : evname) (f : event -> event) :
  keeps_bootstraps (update_event ev f).
Proof. intros n. destruct ev; reflexivity. Qed.

Lemma keeps_node_send (m : message) : keeps_bootstraps (node_send m).
Proof. intros n. reflexivity. Qed.

Lemma keeps_node_status (s : status) : keeps_bootstraps (node_status s).
Proof. intros n. reflexivity. Qed.

Ltac keeps :=
  repeat first
    [ apply keeps_moment_now | apply keeps_Math_random | apply keeps_setTimeout
    | apply keeps_clearTimeout | apply keeps_update_event | apply keeps_node_send
    | apply keeps_node_status | keeps_step ].

Lemma keeps_send (ev : evname) (manual : bool) : keeps_bootstraps (send E ev manual).
Proof. unfold send. keeps. Qed.

Lemma keeps_schedule (fuel : nat) (ev : evname) (isInitial : bool) :
  keeps_bootstraps (schedule E fuel ev isInitial).
Proof.
  unfold schedule, resolve, offset_moment, apply_offset, adjustment, adjust_weekday.
  keeps.
Qed.

Lemma keeps_suspend : keeps_bootstraps (suspend E).
Proof. unfold suspend. keeps. Qed.

Lemma keeps_resume (fuel : nat) : keeps_bootstraps (resume E fuel).
Proof.
  unfold resume.
  apply keeps_bind; [apply keeps_schedule | intros _].
  apply keeps_bind; [apply keeps_schedule | intros _].
  keeps.
Qed.

(** Every call of [bootstrap] is counted once, however it ends. *)
Lemma bootstrap_counts (fuel : nat) (n : node) :
  bootstraps (snd (bootstrap E fuel n)) = S (bootstraps n).
Proof.
  unfold bootstrap, bind, modify, get. cbv beta iota.
  match goal with
  | |- context [if ?b then _ else _] => destruct b
  end.
  - rewrite keeps_suspend. reflexivity.
  - rewrite keeps_resume. reflexivity.
Qed.

End Reconfigure.

Section InputHandler.

Variable E : env.

Lemma events_apply_prop_other (lookup : string -> option jsval) (n : node)
    (ep ep' : evname * property) :
  ep <> ep' ->
  get_prop (snd ep) (events (fst ep) (apply_prop lookup n ep'))
  = get_prop (snd ep) (events (fst ep) n).
Proof.
  intros Hne. unfold apply_prop.
  destruct (lookup _) as [raw|]; [|reflexivity].
  destruct ep as [ev p], ep' as [ev' p'].
  destruct ev, ev', p, p'; try congruence; reflexivity.
Qed.

Lemma prop_changes_apply_other (lookup : string -> option jsval) (n : node)
    (ep ep' : evname * property) :
  ep <> ep' ->
  prop_changes lookup (apply_prop lookup n ep') ep = prop_changes lookup n ep.
Proof.
  intros Hne. unfold prop_changes.
  destruct (lookup (key (fst ep) ++ msgProperty (snd ep))); [|reflexivity].
  now rewrite events_apply_prop_other.
Qed.

Lemma apply_prop_frame (lookup : string -> option jsval) (n : node)
    (ep : evname * property) :
  bootstraps (apply_prop lookup n ep) = bootstraps n /\
  suspended (apply_prop lookup n ep) = suspended n.
Proof.
  unfold apply_prop. destruct (lookup _); [|auto]. destruct ep as [[] p]; auto.
Qed.

(** One call of the function passed to [eachProp]. *)
Lemma update_prop_run (lookup : string -> option jsval) (ev : evname) (p : property)
    (f : flags) (n : node) :
  update_prop lookup ev p f n =
    (Ret (Flags (handled f || prop_present lookup (ev, p))
            (requiresBootstrap f || prop_changes lookup n (ev, p))),
     apply_prop lookup n (ev, p)).
Proof.
  unfold update_prop, prop_present, prop_changes, apply_prop. cbn [fst snd].
  destruct (lookup (key ev ++ msgProperty p)) as [raw|].
  - unfold bind, get, update_event, modify, ret. cbv beta iota.
    now rewrite orb_true_r.
  - unfold ret. destruct f. cbn. now rewrite !orb_false_r.
Qed.

(** The whole pass of [eachProp]: it returns, [handled] records whether
    any property was present, [requiresBootstrap] whether any value
    differs from the one the node had when the pass began. *)
Lemma eachProp_run (lookup : string -> option jsval) (f : flags) (n : node) :
  eachProp (update_prop lookup) f n =
    (Ret (Flags (handled f || existsb (prop_present lookup) all_props)
            (requiresBootstrap f || existsb (prop_changes lookup n) all_props)),
     fold_left (apply_prop lookup) all_props n).
Proof.
  unfold eachProp, bind.
  repeat (rewrite update_prop_run; cbv beta iota).
  cbn [handled requiresBootstrap all_props existsb fold_left].
  rewrite !prop_changes_apply_other by discriminate.
  rewrite !orb_false_r, !orb_assoc. reflexivity.
Qed.

Lemma fold_apply_prop_frame (lookup : string -> option jsval) (l : list (evname * property)) :
  forall n : node,
    bootstraps (fold_left (apply_prop lookup) l n) = bootstraps n /\
    suspended (fold_left (apply_prop lookup) l n) = suspended n.
Proof.
  induction l as [|ep l IH]; intros n; [auto|].
  cbn [fold_left]. destruct (IH (apply_prop lookup n ep)) as [Hb Hs].
  destruct (apply_prop_frame lookup n ep) as [Hb' Hs']. split; congruence.
Qed.

Lemma changes_are_present (lookup : string -> option jsval) (n : node)
    (l : list (evname * property)) :
  existsb (prop_changes lookup n) l = true -> existsb (prop_present lookup) l = true.
Proof.
  induction l as [|ep l IH]; [discriminate|]. cbn [existsb].
  rewrite !orb_true_iff. intros [H|H]; [left | right; auto].
  unfold prop_changes in H. unfold prop_present.
  destruct (lookup _); [reflexivity | discriminate].
Qed.

(** The end of the input handler, after the flags are known. *)
Lemma input_tail_counts (fuel : nat) (lookup : string -> option jsval)
    (f : flags) (n : node) :
  (requiresBootstrap f = true -> handled f = true) ->
  bootstraps
    (snd ((f' <- eachProp (update_prop lookup) f ;;
           if negb (handled f') then node_status (Status "red" "dot" "Unsupported input")
           else if requiresBootstrap f' then bootstrap E fuel
           else ret tt) n))
  = (bootstraps n
     + if requiresBootstrap f || existsb (prop_changes lookup n) all_props
       then 1 else 0)%nat.
Proof.
  intros Hf. unfold bind at 1. rewrite eachProp_run. cbn [handled requiresBootstrap].
  destruct (fold_apply_prop_frame lookup all_props n) as [Hb _].
  destruct (requiresBootstrap f || existsb (prop_changes lookup n) all_props) eqn:Hreq.
  - assert (Hh : handled f || existsb (prop_present lookup) all_props = true).
    { apply orb_true_iff in Hreq. apply orb_true_iff.
      destruct Hreq as [H|H]; [left; auto | right].
      eapply changes_are_present; eassumption. }
    rewrite Hh. cbn [negb]. rewrite bootstrap_counts, Hb, Nat.add_1_r. reflexivity.
  - rewrite Nat.add_0_r.
    destruct (handled f || existsb (prop_present lookup) all_props); cbn; exact Hb.
Qed.

Lemma bind_assoc {A B C : Type} (c : M A) (k : A -> M B) (h : B -> M C) (n : node) :
  bind (bind c k) h n = bind c (fun a => bind (k a) h) n.
Proof. unfold bind. destruct (c n) as [[a|e|] n1]; reflexivity. Qed.

Lemma bind_run {A B : Type} (c : M A) (k : A -> M B) (n n1 : node) (a : A) :
  c n = (Ret a, n1) -> bind c k n = k a n1.
Proof. intros H. unfold bind. now rewrite H. Qed.

Lemma update_suspended_run (b : bool) (f : flags) (n : node) :
  update_suspended b f n =
    (Ret (Flags true (requiresBootstrap f || negb (Bool.eqb (suspended n) b))),
     set_suspended b n).
Proof. reflexivity. Qed.

(** An object payload calls [bootstrap] exactly once when it changes
    some value, and not at all when every value it holds is the one the
    node already has. *)
Lemma object_input_bootstraps (fuel : nat) (o : gmap string jsval) (n : node) :
  o !! "hasOwnProperty" = None ->
  bootstraps (snd (on_input E fuel (PayloadObject o) n))
  = (bootstraps n + if object_changes o n then 1 else 0)%nat.
Proof.
  intros Hown. unfold on_input, object_changes. rewrite Hown, bind_assoc.
  destruct (o !! "suspended") as [v|].
  - rewrite (bind_run _ _ _ _ _ (update_suspended_run (truthy v) _ n)).
    rewrite input_tail_counts by reflexivity.
    reflexivity.
  - rewrite (bind_run _ _ n n (Flags false false) eq_refl).
    rewrite input_tail_counts by (intros H; discriminate H).
    reflexivity.
Qed.

(** An object with a property hasOwnProperty of its own: the handler
    throws at its first question, and the node is as it was. *)
Lemma object_input_throws (fuel : nat) (o : gmap string jsval) (n : node) (v : jsval) :
  o !! "hasOwnProperty" = Some v ->
  on_input E fuel (PayloadObject o) n = (Throw TypeError, n).
Proof. intros Hown. unfold on_input. rewrite Hown. reflexivity. Qed.

(** The same for a string payload that is a command, as long as the
    word "suspended", if it occurs, is followed by a value. *)
Lemma string_input_bootstraps (fuel : nat) (s : string) (n : node) :
  String.eqb s "on" = false -> String.eqb s "off" = false ->
  (contains "suspended" s = true -> exists v, exec_prop "suspended" s = Some v) ->
  bootstraps (snd (on_input E fuel (PayloadString s) n))
  = (bootstraps n
     + if (if contains "suspended" s
           then match exec_prop "suspended" s with
                | Some v => negb (Bool.eqb (suspended n) (toBoolean (JString v)))
                | None => false
                end
           else false)
          || existsb (prop_changes (fun prop => JString <$> exec_prop prop s) n) all_props
       then 1 else 0)%nat.
Proof.
  intros Hon Hoff Hsus. unfold on_input. rewrite Hon, Hoff, bind_assoc.
  destruct (contains "suspended" s).
  - destruct (Hsus eq_refl) as [v ->].
    rewrite (bind_run _ _ _ _ _ (update_suspended_run (toBoolean (JString v)) _ n)).
    rewrite input_tail_counts by reflexivity.
    reflexivity.
  - rewrite (bind_run _ _ n n (Flags false false) eq_refl).
    rewrite input_tail_counts by (intros H; discriminate H).
    reflexivity.
Qed.

End InputHandler.

(** C6 (the code departs from it).  Claim: a message that sets a field to
    a value other than its current one triggers exactly one rebootstrap.
    On the code: the string command "ontopic suspended" asks for the
    on-topic "suspended" while the topic is "lamp".  The handler finds the
    word "suspended" in the payload, the pattern for the suspend command
    does not match (no value follows the word), and reading the group of
    the missing match throws before any property is looked at: the node
    is left as it was, topic and count of [bootstrap] calls included.  The
    same setting sent as an object is stored and is followed by one
    [bootstrap]. *)
Theorem suspended_word_breaks_command :
  topic (on running_node) = "lamp" /\
  contains "suspended" "ontopic suspended" = true /\
  exec_prop "suspended" "ontopic suspended" = None /\
  exec_prop "ontopic" "ontopic suspended" = Some "suspended" /\
  on_input monday_7am_env 7 topic_command running_node = (Throw TypeError, running_node) /\
  exists n' : node,
    on_input monday_7am_env 7 topic_object running_node = (Ret tt, n') /\
    topic (on n') = "suspended" /\
    bootstraps n' = S (bootstraps running_node).
Proof.
  split; [vm_compute; reflexivity|]. split; [reflexivity|]. split; [reflexivity|].
  split; [reflexivity|]. split; [vm_compute; reflexivity|].
  eexists. split; [vm_compute; reflexivity|]. split; vm_compute; reflexivity.
Qed.

(** ** Timers and their handles *)

Lemma same_timers_refl (n : node) : same_timers n n.
Proof. repeat split. Qed.

Lemma same_timers_trans (n1 n2 n3 : node) :
  same_timers n1 n2 -> same_timers n2 n3 -> same_timers n1 n3.
Proof. unfold same_timers. intros (? & ? & ?) (? & ? & ?). repeat split; congruence. Qed.

Lemma same_timers_owned (n n' : node) :
  same_timers n n' -> timers_owned n -> timers_owned n'.
Proof.
  intros (Ht & Hon & Hoff) Hown h x Hh. rewrite Hon, Hoff. rewrite Ht in Hh. eauto.
Qed.

Section Timers.

Variable E : env.

Lemma resolve_same_timers (ev : evname) (n : node) :
  same_timers n (snd (resolve E ev n)).
Proof.
  unfold resolve, bind, get, moment_now, update_event, modify, ret. cbv beta iota.
  destruct (exec_clock _) as [[h mi]|]; [destruct ev; repeat split|].
  destruct (getTimes _ _ _ _ _); destruct ev; repeat split.
Qed.

Lemma apply_offset_same_timers (e : event) (m : Z) (n : node) :
  same_timers n (snd (apply_offset E e m n)).
Proof.
  unfold apply_offset, adjustment, bind, Math_random, ret.
  destruct (offset e) as [x|]; [|repeat split].
  destruct (x =? 0); [repeat split|].
  destruct (randomoffset e); repeat split.
Qed.

Lemma offset_moment_same_timers (e : event) (m : Z) (n : node) :
  same_timers n (snd (offset_moment E e m n)).
Proof.
  unfold offset_moment. destruct (Moment.isValid m).
  - apply apply_offset_same_timers.
  - pose proof (apply_offset_same_timers e m n) as H. unfold bind.
    destruct (apply_offset E e m n) as [[a|x|] n1]; exact H.
Qed.

(** [schedule] keeps every pending timer in the hands of an event,
    however it ends. *)
Lemma schedule_owned (fuel : nat) (ev : evname) (isInitial : bool) (n : node) :
  timers_owned n -> timers_owned (snd (schedule E fuel ev isInitial n)).
Proof.
  intros Hown.
  destruct (resolve_returns E ev (set_reads (S (reads n)) n)) as (n1 & Hres).
  assert (H1 : same_timers n n1).
  { pose proof (resolve_same_timers ev (set_reads (S (reads n)) n)) as H.
    rewrite Hres in H. exact H. }
  destruct (moment (events ev n1)) as [m0|] eqn:Hm0.
  - destruct (offset_moment_returns E (events ev n1) m0 n1) as (m1 & n2 & Hoff).
    assert (H2 : same_timers n1 n2).
    { pose proof (offset_moment_same_timers (events ev n1) m0 n1) as H.
      rewrite Hoff in H. exact H. }
    pose proof (same_timers_owned _ _ (same_timers_trans _ _ _ H1 H2) Hown) as Hown2.
    destruct (weekday_loop (weekdays E) fuel m1) as [[k c]|] eqn:Hloop.
    + unfold schedule, bind, moment_now at 1.
      rewrite Hres. unfold get at 1. cbv beta iota. rewrite Hm0, Hoff.
      unfold adjust_weekday. rewrite Hloop. unfold ret at 1.
      unfold update_event, clearTimeout, setTimeout, modify.
      destruct H2 as (Ht & Hon & Hoff').
      intros h x Hh.
      destruct ev; cbn in *; destruct (timeout (on n1)) as [h1|] eqn:Ho1;
        destruct (timeout (off n1)) as [h2|] eqn:Ho2; cbn in *;
        (destruct (decide (h = handles n2)) as [->|Hne]; [auto|]);
        rewrite lookup_insert_ne in Hh by congruence;
        try (apply lookup_delete_Some in Hh; destruct Hh as [Hne' Hh]);
        destruct (Hown2 h x Hh) as [Hc|Hc];
        first [congruence | left; congruence | right; congruence].
    + unfold schedule, bind, moment_now at 1.
      rewrite Hres. unfold get at 1. cbv beta iota. rewrite Hm0, Hoff.
      unfold adjust_weekday. rewrite Hloop. exact Hown2.
  - rewrite (schedule_invalid E fuel ev isInitial n n1 Hres Hm0).
    apply (same_timers_owned n1); [repeat split|].
    apply (same_timers_owned n); assumption.
Qed.

End Timers.

Lemma owned_ret {A : Type} (a : A) : keeps_owned (ret a).
Proof. intros n H. exact H. Qed.

Lemma owned_throw {A : Type} (e : string) : keeps_owned (@throw A e).
Proof. intros n H. exact H. Qed.

Lemma owned_get : keeps_owned get.
Proof. intros n H. exact H. Qed.

Lemma owned_bind {A B : Type} (c : M A) (k : A -> M B) :
  keeps_owned c -> (forall a, keeps_owned (k a)) -> keeps_owned (bind c k).
Proof.
  intros Hc Hk n Hown. unfold bind. specialize (Hc n Hown).
  destruct (c n) as [[a|e|] n1]; simpl in *; [|assumption|assumption].
  apply (Hk a n1 Hc).
Qed.

Lemma owned_same (f : node -> node) :
  (forall n, same_timers n (f n)) -> keeps_owned (modify f).
Proof. intros Hf n Hown. apply (same_timers_owned n); [apply Hf | exact Hown]. Qed.

Lemma owned_delete (h : nat) :
  keeps_owned (modify (fun n => set_timers (delete h (timers n)) n)).
Proof.
  intros n Hown i x Hi. cbn in *.
  apply lookup_delete_Some in Hi. destruct Hi as [_ Hi]. exact (Hown i x Hi).
Qed.

Lemma owned_clearTimeout (h : option nat) : keeps_owned (clearTimeout h).
Proof. destruct h as [i|]; [apply owned_delete | apply owned_ret]. Qed.

Lemma owned_node_send (m : message) : keeps_owned (node_send m).
Proof. apply owned_same. intros n. repeat split. Qed.

Lemma owned_node_status (s : status) : keeps_owned (node_status s).
Proof. apply owned_same. intros n. repeat split. Qed.

Lemma owned_set_prop (ev : evname) (p : property) (v : value) :
  keeps_owned (update_event ev (set_prop p v)).
Proof.
  apply owned_same. intros n.
  destruct ev, p, v; repeat split.
Qed.

Ltac owned_step :=
  first
    [ apply owned_ret | apply owned_throw | apply owned_get
    | apply owned_clearTimeout | apply owned_node_send | apply owned_node_status
    | apply owned_set_prop
    | apply owned_bind; [|intros ?]
    | match goal with
      | |- keeps_owned (match ?x with _ => _ end) => destruct x
      | |- keeps_owned (if ?x then _ else _) => destruct x
      end ].

Section Ownership.

Variable E : env.

Lemma owned_moment_now : keeps_owned (moment_now E).
Proof. intros n Hown. exact Hown. Qed.

Lemma owned_send (ev : evname) (manual : bool) : keeps_owned (send E ev manual).
Proof. unfold send. repeat owned_step. Qed.

Lemma owned_schedule (fuel : nat) (ev : evname) (isInitial : bool) :
  keeps_owned (schedule E fuel ev isInitial).
Proof. intros n. apply schedule_owned. Qed.

Lemma owned_suspend : keeps_owned (suspend E).
Proof. unfold suspend. repeat owned_step. Qed.

Lemma owned_resume (fuel : nat) : keeps_owned (resume E fuel).
Proof.
  unfold resume.
  apply owned_bind; [apply owned_schedule | intros _].
  apply owned_bind; [apply owned_schedule | intros _].
  apply owned_bind; [apply owned_get | intros n].
  destruct (moment (on n)); [destruct (moment (off n))|]; repeat owned_step.
Qed.

Lemma owned_bootstrap (fuel : nat) : keeps_owned (bootstrap E fuel).
Proof.
  unfold bootstrap.
  apply owned_bind; [apply owned_same; intros n; repeat split | intros _].
  apply owned_bind; [apply owned_get | intros n].
  destruct (suspended n || (indexOf_true (weekdays E) =? -1));
    [apply owned_suspend | apply owned_resume].
Qed.

Lemma owned_fire (fuel : nat) (h : nat) : keeps_owned (fire E fuel h).
Proof.
  unfold fire, callback.
  apply owned_bind; [apply owned_get | intros n].
  destruct (timers n !! h) as [[ev d]|]; [|apply owned_ret].
  apply owned_bind; [apply owned_delete | intros _].
  apply owned_bind; [apply owned_send | intros _].
  apply owned_schedule.
Qed.

Lemma owned_update_prop (lookup : string -> option jsval) (ev : evname) (p : property)
    (f : flags) :
  keeps_owned (update_prop lookup ev p f).
Proof. unfold update_prop. repeat owned_step. Qed.

Lemma owned_eachProp (lookup : string -> option jsval) (f : flags) :
  keeps_owned (eachProp (update_prop lookup) f).
Proof.
  unfold eachProp.
  repeat (apply owned_bind; [|intros ?]); apply owned_update_prop.
Qed.

Lemma owned_update_suspended (b : bool) (f : flags) : keeps_owned (update_suspended b f).
Proof.
  unfold update_suspended.
  apply owned_bind; [apply owned_get | intros n].
  apply owned_bind; [apply owned_same; intros n0; repeat split | intros _].
  apply owned_ret.
Qed.

Lemma owned_on_input (fuel : nat) (msg : input) : keeps_owned (on_input E fuel msg).
Proof.
  unfold on_input.
  apply owned_bind.
  - destruct msg as [s|o].
    + destruct (String.eqb s "on");
        [apply owned_bind; [apply owned_send | intros _; apply owned_ret]|].
      destruct (String.eqb s "off");
        [apply owned_bind; [apply owned_send | intros _; apply owned_ret]|].
      apply owned_bind; [|intros f; apply owned_eachProp].
      destruct (contains "suspended" s); [|apply owned_ret].
      destruct (exec_prop "suspended" s);
        [apply owned_update_suspended | apply owned_throw].
    + destruct (o !! "hasOwnProperty"); [apply owned_throw|].
      apply owned_bind; [|intros f; apply owned_eachProp].
      destruct (o !! "suspended");
        [apply owned_update_suspended | apply owned_ret].
  - intros f. destruct (negb (handled f)); [apply owned_node_status|].
    destruct (requiresBootstrap f); [apply owned_bootstrap | apply owned_ret].
Qed.

(** In every node the runtime can reach, each pending timer is the one
    an event holds the handle of; so [suspend] leaves no timer pending. *)
Lemma reachable_timers_owned (n : node) : reachable E n -> timers_owned n.
Proof.
  induction 1 as [fuel n Hempty | fuel msg n _ IH | fuel h n _ IH | n _ IH].
  - apply owned_bootstrap. intros h x Hh. rewrite Hempty, lookup_empty in Hh. discriminate.
  - apply owned_on_input, IH.
  - apply owned_fire, IH.
  - apply owned_suspend, IH.
Qed.

End Ownership.

(** ** A moment out of range *)

Section OutOfRange.

Variable E : env.

(** When the first [schedule] of [resume] does not return, [bootstrap]
    does not either. *)
Lemma bootstrap_hangs (fuel : nat) (n : node) :
  suspended n = false -> indexOf_true (weekdays E) <> -1 ->
  fst (schedule E fuel ON true (set_bootstraps (S (bootstraps n)) n)) = Hang ->
  fst (bootstrap E fuel n) = Hang.
Proof.
  intros Hs Hwd Hhang. unfold bootstrap, bind, modify, get. cbv beta iota.
  cbn [suspended set_bootstraps]. rewrite Hs.
  destruct (Z.eqb_spec (indexOf_true (weekdays E)) (-1)) as [Heq|_]; [contradiction|].
  cbn [orb]. unfold resume, bind.
  destruct (schedule E fuel ON true (set_bootstraps (S (bootstraps n)) n)) as [[[]|e|] n1];
    cbn [fst] in Hhang; try discriminate. reflexivity.
Qed.

(** An object payload that changes a property, and does not name the
    flag [suspended]: the properties are stored and [bootstrap] runs. *)
Lemma object_input_run (fuel : nat) (o : gmap string jsval) (n : node) :
  o !! "hasOwnProperty" = None -> o !! "suspended" = None ->
  existsb (prop_changes (fun prop => o !! prop) n) all_props = true ->
  on_input E fuel (PayloadObject o) n
  = bootstrap E fuel (fold_left (apply_prop (fun prop => o !! prop)) all_props n).
Proof.
  intros Hown Hsus Hch. unfold on_input. rewrite Hown, Hsus, bind_assoc.
  rewrite (bind_run _ _ n n (Flags false false) eq_refl).
  unfold bind at 1. rewrite eachProp_run. cbn [handled requiresBootstrap orb].
  rewrite Hch, (changes_are_present _ _ _ Hch). reflexivity.
Qed.

End OutOfRange.

(** C8 (the code departs from it).  Claim: with one of the seven weekdays
    enabled the weekday loop ends within seven advances, whatever moment
    it starts from.  On the code: every weekday is enabled and the on-time
    is "3000000000:00".  The pattern takes it for a clock time; hour
    3000000000 is beyond the range of [Date], the moment is invalid, its
    weekday is [NaN], no entry of the array is found under it and adding a
    day changes nothing: the loop never ends, whatever the number of
    advances allowed.  So [schedule] does not return, nor does [bootstrap]
    at the end of the constructor, nor the input handler when a message
    sets that time on the running node. *)
Theorem invalid_moment_never_leaves_loop :
  weekdays monday_7am_env = every_day /\
  exec_clock "3000000000:00" = Some (3000000000, 0) /\
  Moment.isValid (clock_time (at_time monday 7 0 + 123) 3000000000 0) = false /\
  (forall fuel : nat,
      weekday_loop every_day fuel (clock_time (at_time monday 7 0 + 123) 3000000000 0)
      = None) /\
  (forall fuel : nat, fst (schedule monday_7am_env fuel ON true far_hour_node) = Hang) /\
  (forall fuel : nat, fst (bootstrap monday_7am_env fuel far_hour_node) = Hang) /\
  (forall fuel : nat,
      fst (on_input monday_7am_env fuel far_hour_input running_node) = Hang).
Proof.
  assert (Hinv : Moment.isValid (clock_time (at_time monday 7 0 + 123) 3000000000 0)
                 = false) by (vm_compute; reflexivity).
  split; [reflexivity|]. split; [reflexivity|]. split; [exact Hinv|].
  split; [intros fuel; now apply weekday_loop_invalid|].
  split; [|split].
  - intros fuel.
    apply (schedule_invalid_moment monday_7am_env fuel ON true far_hour_node
             (clock_time (at_time monday 7 0 + 123) 3000000000 0));
      [reflexivity | exact Hinv].
  - intros fuel. apply bootstrap_hangs; [reflexivity | discriminate |].
    apply (schedule_invalid_moment monday_7am_env fuel ON true _
             (clock_time (at_time monday 7 0 + 123) 3000000000 0));
      [reflexivity | exact Hinv].
  - intros fuel. unfold far_hour_input.
    rewrite object_input_run; [| reflexivity | reflexivity | vm_compute; reflexivity].
    apply bootstrap_hangs; [vm_compute; reflexivity | discriminate |].
    apply (schedule_invalid_moment monday_7am_env fuel ON true _
             (clock_time (at_time monday 7 0 + 123) 3000000000 0));
      [vm_compute; reflexivity | exact Hinv].
Qed.

(** The same with a time spec that names a function every object
    inherits: the lookup in SunCalc's times is truthy, the moment made of
    it is invalid, and [schedule] does not return either. *)
Example inherited_name_hangs (fuel : nat) :
  fst (schedule monday_7am_env fuel ON true inherited_name_node) = Hang.
Proof.
  apply (schedule_invalid_moment monday_7am_env fuel ON true inherited_name_node
           (Moment.MAX_TIME + 1)); reflexivity.
Qed.

(** * Further properties *)

(** ** The weekday array *)

Lemma indexOf_true_cases (l : list bool) :
  (indexOf_true l = -1 /\ forall i : nat, l !! i <> Some true) \/
  (exists i : nat,
      indexOf_true l = Z.of_nat i /\ l !! i = Some true /\
      forall j : nat, (j < i)%nat -> l !! j = Some false).
Proof.
  induction l as [|b l IH]; [left; split; [reflexivity | intros i; discriminate]|].
  destruct b.
  - right. exists O. repeat split. intros j Hj. lia.
  - cbn [indexOf_true]. destruct IH as [[Hnone Hall]|(i & Hi & Htrue & Hbefore)].
    + left. rewrite Hnone. split; [reflexivity|].
      intros [|i]; [discriminate | apply Hall].
    + right. exists (S i). rewrite Hi.
      destruct (Z.eqb_spec (Z.of_nat i) (-1)); [lia|].
      split; [lia|]. split; [exact Htrue|].
      intros [|j] Hj; [reflexivity | apply Hbefore; lia].
Qed.

(** A seven-entry array in which [indexOf(true)] finds something has an
    enabled weekday. *)
Lemma indexOf_true_enabled (l : list bool) :
  indexOf_true l <> -1 -> length l = 7%nat ->
  exists i : Z, 0 <= i < 7 /\ mask_at l i = true.
Proof.
  intros Hidx Hlen.
  destruct (indexOf_true_cases l) as [[Hnone _]|(i & _ & Htrue & _)]; [congruence|].
  exists (Z.of_nat i).
  assert (i < 7)%nat by (rewrite <- Hlen; eapply lookup_lt_Some; exact Htrue).
  split; [lia|]. unfold mask_at.
  destruct (Z.ltb_spec (Z.of_nat i) 0); [lia|].
  now rewrite Nat2Z.id, Htrue.
Qed.

Lemma indexOf_true_disabled (l : list bool) :
  indexOf_true l = -1 -> forall i : Z, mask_at l i = false.
Proof.
  intros Hidx i.
  destruct (indexOf_true_cases l) as [[_ Hall]|(j & Hj & _)]; [|lia].
  unfold mask_at. destruct (i <? 0); [reflexivity|].
  specialize (Hall (Z.to_nat i)).
  destruct (l !! Z.to_nat i) as [[]|]; [congruence | reflexivity | reflexivity].
Qed.

(** X1.  [weekdays.indexOf(true)] is -1 exactly when no entry of the
    array is true; otherwise it is the position of the first true entry:
    that entry is true and every entry before it is false. *)
Theorem indexOf_true_first (l : list bool) :
  (indexOf_true l = -1 <-> forall i : nat, l !! i <> Some true) /\
  (indexOf_true l <> -1 ->
   exists i : nat,
     indexOf_true l = Z.of_nat i /\ l !! i = Some true /\
     forall j : nat, (j < i)%nat -> l !! j = Some false).
Proof.
  destruct (indexOf_true_cases l) as [[Hnone Hall]|(i & Hi & Htrue & Hbefore)].
  - split; [split; auto | congruence].
  - split.
    + split; [lia|]. intros Hall. destruct (Hall i Htrue).
    + intros _. exists i. auto.
Qed.

Lemma indexOf_true_first_witness :
  indexOf_true mondays_only <> -1 /\
  exists i : nat,
    indexOf_true mondays_only = Z.of_nat i /\ mondays_only !! i = Some true /\
    forall j : nat, (j < i)%nat -> mondays_only !! j = Some false.
Proof.
  assert (H : indexOf_true mondays_only <> -1) by discriminate.
  split; [exact H|]. exact (proj2 (indexOf_true_first mondays_only) H).
Defined.

(** The days the loop has skipped were all disabled. *)
Lemma weekday_loop_skips (wd : list bool) :
  forall (fuel : nat) (m : Z) (k : nat) (m' : Z),
    weekday_loop wd fuel m = Some (k, m') ->
    forall j : nat, (j < k)%nat ->
      mask_at wd (Moment.weekday (Moment.add_days m (Z.of_nat j))) = false.
Proof.
  induction fuel as [|fuel IH]; intros m k m' Hrun j Hj; simpl in Hrun;
    destruct (Moment.isValid m); cbn [negb] in Hrun; try discriminate;
    destruct (mask_at wd (Moment.weekday m)) eqn:Hhere;
    try (inversion Hrun; subst; lia); try discriminate.
  destruct (weekday_loop wd fuel (Moment.add_days m 1)) as [[k0 m0]|] eqn:Hrec;
    [|discriminate].
  inversion Hrun; subst.
  destruct j as [|j].
  - replace (Moment.add_days m (Z.of_nat 0)) with m by (unfold Moment.add_days; lia).
    exact Hhere.
  - rewrite <- add_days_succ. apply (IH _ _ _ Hrec). lia.
Qed.

(** X2.  When the weekday loop of [schedule] stops, it has moved the
    moment by whole days to the first enabled weekday at or after the
    start: the day it stops on is enabled and every day it passed is
    disabled. *)
Theorem weekday_loop_earliest (wd : list bool) (fuel : nat) (m : Z) (k : nat) (m' : Z) :
  weekday_loop wd fuel m = Some (k, m') ->
  m' = Moment.add_days m (Z.of_nat k) /\
  mask_at wd (Moment.weekday m') = true /\
  forall j : nat, (j < k)%nat ->
    mask_at wd (Moment.weekday (Moment.add_days m (Z.of_nat j))) = false.
Proof.
  intros Hrun. destruct (weekday_loop_sound wd fuel m k m' Hrun) as [Hm' Hen].
  split; [exact Hm'|]. split; [exact Hen|].
  exact (weekday_loop_skips wd fuel m k m' Hrun).
Qed.

Lemma weekday_loop_earliest_witness :
  weekday_loop mondays_only 7 (at_time (monday + Moment.MS_DAY) 8 0)
  = Some (6%nat, at_time (monday + 7 * Moment.MS_DAY) 8 0) /\
  mask_at mondays_only (Moment.weekday (at_time (monday + 7 * Moment.MS_DAY) 8 0)) = true /\
  mask_at mondays_only
    (Moment.weekday (Moment.add_days (at_time (monday + Moment.MS_DAY) 8 0) (Z.of_nat 5)))
  = false.
Proof.
  assert (Hrun : weekday_loop mondays_only 7 (at_time (monday + Moment.MS_DAY) 8 0)
                 = Some (6%nat, at_time (monday + 7 * Moment.MS_DAY) 8 0))
    by (vm_compute; reflexivity).
  destruct (weekday_loop_earliest _ _ _ _ _ Hrun) as (_ & Hen & Hskip).
  split; [exact Hrun|]. split; [exact Hen|]. apply Hskip. lia.
Defined.

(** X3.  With no weekday enabled the loop never stops, whatever the fuel:
    [schedule] must not be called then, and [bootstrap] does not call it. *)
Theorem weekday_loop_needs_a_day (wd : list bool) (fuel : nat) (m : Z) :
  indexOf_true wd = -1 -> weekday_loop wd fuel m = None.
Proof.
  intros Hidx. apply weekday_loop_diverges. now apply indexOf_true_disabled.
Qed.

Lemma weekday_loop_needs_a_day_witness :
  indexOf_true no_day = -1 /\ weekday_loop no_day 1000 monday = None.
Proof.
  split; [reflexivity|]. exact (weekday_loop_needs_a_day no_day 1000 monday eq_refl).
Defined.

(** ** The patterns *)

Lemma contains_cons (p : string) (c : ascii) (s : string) :
  contains p s = true -> contains p (String c s) = true.
Proof. intros H. cbn [contains]. destruct (starts_with p (String c s)); auto. Qed.

Lemma read_digits_from_rest (s : string) :
  forall (acc z : Z) (r : string),
    read_digits_from acc s = (z, r) -> contains ":" r = true -> contains ":" s = true.
Proof.
  induction s as [|c s IH]; intros acc z r Hread Hr; simpl in Hread.
  - inversion Hread; subst. exact Hr.
  - destruct (is_digit c).
    + apply contains_cons. eapply IH; eassumption.
    + inversion Hread; subst. exact Hr.
Qed.

Lemma clock_here_colon (s : string) (h mi : Z) :
  clock_here s = Some (h, mi) -> contains ":" s = true /\ 0 <= h /\ 0 <= mi.
Proof.
  unfold clock_here. intros H.
  destruct (read_digits s) as [[h' r]|] eqn:Hh; [|discriminate].
  destruct r as [|c r]; [discriminate|].
  destruct (Ascii.eqb_spec c ":") as [->|Hc].
  2:{ destruct c as [[] [] [] [] [] [] [] []]; try discriminate. congruence. }
  destruct (read_digits r) as [[mi' r']|] eqn:Hmi; [|discriminate].
  inversion H; subst.
  pose proof (read_digits_nonneg _ _ _ Hh). pose proof (read_digits_nonneg _ _ _ Hmi).
  split; [|lia].
  destruct s as [|a s]; [discriminate|]. simpl in Hh.
  destruct (is_digit a); [|discriminate]. inversion Hh as [Hfrom].
  apply contains_cons. eapply read_digits_from_rest; [exact Hfrom | reflexivity].
Qed.

(** X4.  The clock pattern of [schedule] only matches a string that has a
    colon in it, and the hour and minute it yields are never negative; a
    name such as "sunrise" is therefore always left to SunCalc. *)
Theorem exec_clock_needs_colon (s : string) (h mi : Z) :
  exec_clock s = Some (h, mi) -> contains ":" s = true /\ 0 <= h /\ 0 <= mi.
Proof.
  induction s as [|c s IH]; cbn [exec_clock].
  - intros H. destruct (clock_here "") eqn:Hc; [|discriminate].
    unfold clock_here in Hc. simpl in Hc. discriminate.
  - destruct (clock_here (String c s)) as [[h' mi']|] eqn:Hc.
    + intros H. inversion H; subst. now apply clock_here_colon.
    + intros H. destruct (IH H) as (Hcol & Hh & Hmi).
      split; [now apply contains_cons | lia].
Qed.

Lemma exec_clock_needs_colon_witness :
  exec_clock "at 7:05 pm" = Some (7, 5) /\
  contains ":" "at 7:05 pm" = true /\ 0 <= 7 /\ 0 <= 5.
Proof.
  split; [reflexivity|].
  exact (exec_clock_needs_colon "at 7:05 pm" 7 5 eq_refl).
Defined.

Lemma take_nonspaces_no_space (s : string) : no_space (take_nonspaces s) = true.
Proof.
  induction s as [|c s IH]; [reflexivity|]. simpl.
  destruct (is_space c) eqn:Hc; [reflexivity|]. simpl. now rewrite Hc.
Qed.

Lemma starts_with_contains (p s r : string) :
  starts_with p s = Some r -> contains p s = true.
Proof. intros H. destruct s; cbn [contains]; now rewrite H. Qed.

Lemma prop_here_value (p s v : string) :
  prop_here p s = Some v -> v <> "" /\ no_space v = true /\ contains p s = true.
Proof.
  unfold prop_here. intros H.
  destruct (starts_with p s) as [[|c r]|] eqn:Hp; try discriminate.
  destruct (is_space c); [|discriminate].
  destruct (take_nonspaces (drop_spaces r)) as [|a t] eqn:Ht; [discriminate|].
  inversion H; subst. split; [discriminate|]. split.
  - rewrite <- Ht. apply take_nonspaces_no_space.
  - eapply starts_with_contains; eassumption.
Qed.

Lemma dotstar_prop_value (p s v : string) :
  dotstar_prop p s = Some v -> v <> "" /\ no_space v = true /\ contains p s = true.
Proof.
  revert v. induction s as [|c s IH]; intros v; cbn [dotstar_prop].
  - apply prop_here_value.
  - destruct (is_line_terminator c); [apply prop_here_value|].
    destruct (dotstar_prop p s) as [v'|].
    + intros H. inversion H; subst. destruct (IH v eq_refl) as (? & ? & ?).
      repeat split; auto. now apply contains_cons.
    + apply prop_here_value.
Qed.

(** X5.  The value a string command yields for a property (or for
    [suspended]) is never empty and never holds white space, and the
    property's name occurs in the payload: a topic or payload with a blank
    in it cannot be set by a string command, only its first word is
    taken. *)
Theorem exec_prop_value (p s v : string) :
  exec_prop p s = Some v -> v <> "" /\ no_space v = true /\ contains p s = true.
Proof.
  revert v. induction s as [|c s IH]; intros v; cbn [exec_prop].
  - destruct (dotstar_prop p "") eqn:Hd; [|discriminate].
    intros H. inversion H; subst. now apply dotstar_prop_value.
  - destruct (dotstar_prop p (String c s)) as [v'|] eqn:Hd.
    + intros H. inversion H; subst. now apply dotstar_prop_value.
    + intros H. destruct (IH v H) as (? & ? & ?).
      repeat split; auto. now apply contains_cons.
Qed.

Lemma exec_prop_value_witness :
  exec_prop "ontopic" "ontopic living room" = Some "living" /\
  "living" <> "" /\ no_space "living" = true /\
  contains "ontopic" "ontopic living room" = true.
Proof.
  split; [reflexivity|].
  exact (exec_prop_value "ontopic" "ontopic living room" "living" eq_refl).
Defined.

(** ** What a computation leaves alone *)

Lemma kp_ret {A X : Type} (f : node -> X) (a : A) : keeps_proj f (ret a).
Proof. intros n. reflexivity. Qed.

Lemma kp_throw {A X : Type} (f : node -> X) (e : string) : keeps_proj f (@throw A e).
Proof. intros n. reflexivity. Qed.

Lemma kp_hang {A X : Type} (f : node -> X) : keeps_proj f (@hang A).
Proof. intros n. reflexivity. Qed.

Lemma kp_get {X : Type} (f : node -> X) : keeps_proj f get.
Proof. intros n. reflexivity. Qed.

Lemma kp_bind {A B X : Type} (f : node -> X) (c : M A) (k : A -> M B) :
  keeps_proj f c -> (forall a, keeps_proj f (k a)) -> keeps_proj f (bind c k).
Proof.
  intros Hc Hk n. unfold bind. specialize (Hc n).
  destruct (c n) as [[a|e|] n1]; simpl in *; [|assumption|assumption].
  rewrite (Hk a n1). exact Hc.
Qed.

Lemma ki_ret {A : Type} (P : node -> Prop) (a : A) : keeps_inv P (ret a).
Proof. intros n H. exact H. Qed.

Lemma ki_throw {A : Type} (P : node -> Prop) (e : string) : keeps_inv P (@throw A e).
Proof. intros n H. exact H. Qed.

Lemma ki_get (P : node -> Prop) : keeps_inv P get.
Proof. intros n H. exact H. Qed.

Lemma ki_bind {A B : Type} (P : node -> Prop) (c : M A) (k : A -> M B) :
  keeps_inv P c -> (forall a, keeps_inv P (k a)) -> keeps_inv P (bind c k).
Proof.
  intros Hc Hk n HP. unfold bind. specialize (Hc n HP).
  destruct (c n) as [[a|e|] n1]; simpl in *; [|assumption|assumption].
  apply (Hk a n1 Hc).
Qed.

(** A step that is a plain state change, or a reading. *)
Ltac kp_leaf :=
  intros ?;
  repeat match goal with
         | ev : evname |- _ => destruct ev
         | h : option nat |- _ => destruct h
         end;
  reflexivity.

Ltac kp_step :=
  first
    [ apply kp_ret | apply kp_throw | apply kp_hang | apply kp_get
    | match goal with
      | |- keeps_proj _ (match ?x with _ => _ end) => destruct x
      | |- keeps_proj _ (if ?x then _ else _) => destruct x
      | |- keeps_proj _ (bind _ _) => apply kp_bind; [|intros ?]
      | |- keeps_proj _ (moment_now _) => solve [kp_leaf]
      | |- keeps_proj _ (Math_random _) => solve [kp_leaf]
      | |- keeps_proj _ (setTimeout _ _) => solve [kp_leaf]
      | |- keeps_proj _ (clearTimeout ?h) => destruct h; solve [kp_leaf]
      | |- keeps_proj _ (update_event _ _) => solve [kp_leaf]
      | |- keeps_proj _ (node_send _) => solve [kp_leaf]
      | |- keeps_proj _ (node_status _) => solve [kp_leaf]
      | |- keeps_proj _ (modify _) => solve [kp_leaf]
      end ].

Section Frames.

Variable E : env.

Lemma resolve_keeps_timer_state (ev : evname) : keeps_proj timer_state (resolve E ev).
Proof. unfold resolve. repeat kp_step. Qed.

Lemma apply_offset_keeps_timer_state (e : event) (m : Z) :
  keeps_proj timer_state (apply_offset E e m).
Proof. unfold apply_offset, adjustment. repeat kp_step. Qed.

Lemma offset_moment_keeps_timer_state (e : event) (m : Z) :
  keeps_proj timer_state (offset_moment E e m).
Proof. unfold offset_moment, apply_offset, adjustment. repeat kp_step. Qed.

Lemma schedule_keeps_config (fuel : nat) (ev : evname) (isInitial : bool) :
  keeps_proj node_config (schedule E fuel ev isInitial).
Proof.
  unfold schedule, resolve, offset_moment, apply_offset, adjustment, adjust_weekday.
  repeat kp_step.
Qed.

Lemma schedule_keeps_inverse (fuel : nat) (ev : evname) (isInitial : bool) :
  keeps_proj (events (inverse ev)) (schedule E fuel ev isInitial).
Proof.
  unfold schedule, resolve, offset_moment, apply_offset, adjustment, adjust_weekday.
  repeat kp_step.
Qed.

Lemma schedule_keeps_sent (fuel : nat) (ev : evname) (isInitial : bool) :
  keeps_proj sent (schedule E fuel ev isInitial).
Proof.
  unfold schedule, resolve, offset_moment, apply_offset, adjustment, adjust_weekday.
  repeat kp_step.
Qed.

End Frames.

(** ** What [schedule] does to the timers *)

(** [add] moves the moment by no more than the offset. *)
Lemma TimeClip_between (a b : Z) (q : Q) :
  (inject_Z a <= q)%Q -> (q <= inject_Z b)%Q -> a <= Moment.TimeClip q <= b.
Proof.
  intros Ha Hb. unfold Moment.TimeClip. destruct (Qle_bool 0 q).
  - split.
    + rewrite <- (Qfloor_Z a). now apply Qfloor_resp_le.
    + rewrite <- (Qfloor_Z b). now apply Qfloor_resp_le.
  - split.
    + rewrite <- (Qceiling_Z a). now apply Qceiling_resp_le.
    + rewrite <- (Qceiling_Z b). now apply Qceiling_resp_le.
Qed.

Lemma add_minutes_near (m x : Z) (r : Q) :
  (0 <= r <= 1)%Q ->
  m - Z.abs x * Moment.MS_MINUTE <= Moment.add_minutes m (inject_Z x * r)
  <= m + Z.abs x * Moment.MS_MINUTE.
Proof.
  intros [Hr0 Hr1]. unfold Moment.add_minutes. apply TimeClip_between.
  - replace (m - Z.abs x * Moment.MS_MINUTE) with (m + - (Z.abs x * Moment.MS_MINUTE))
      by lia.
    rewrite inject_Z_plus, inject_Z_opp, inject_Z_mult.
    change (inject_Z Moment.MS_MINUTE) with 60000%Q.
    destruct (Z.abs_spec x) as [[Hx ->]|[Hx ->]].
    + assert (0 <= inject_Z x)%Q by (unfold Qle; simpl; lia). nra.
    + rewrite inject_Z_opp. assert (inject_Z x <= 0)%Q by (unfold Qle; simpl; lia). nra.
  - rewrite inject_Z_plus, inject_Z_mult.
    change (inject_Z Moment.MS_MINUTE) with 60000%Q.
    destruct (Z.abs_spec x) as [[Hx ->]|[Hx ->]].
    + assert (0 <= inject_Z x)%Q by (unfold Qle; simpl; lia). nra.
    + rewrite inject_Z_opp. assert (inject_Z x <= 0)%Q by (unfold Qle; simpl; lia). nra.
Qed.

Section ScheduleEffect.

Variable E : env.

Lemma timer_state_timeout (ev : evname) (n n' : node) :
  timer_state n' = timer_state n -> timeout (events ev n') = timeout (events ev n).
Proof. unfold timer_state. intros H. destruct ev; simpl; congruence. Qed.

(** The offset moves the moment by no more than its size in minutes, when
    the draw is in [0,1]. *)
Lemma apply_offset_near (e : event) (m m1 : Z) (n n2 : node) :
  (0 <= random E (draws n) <= 1)%Q ->
  apply_offset E e m n = (Ret m1, n2) ->
  m - (reach e - 8 * Moment.MS_DAY) <= m1 <= m + (reach e - 8 * Moment.MS_DAY).
Proof.
  intros Hr. unfold apply_offset, reach.
  destruct (offset e) as [x|]; [|intros H; inversion H; subst; lia].
  destruct (x =? 0).
  - intros H. inversion H; subst. unfold Moment.MS_MINUTE. lia.
  - unfold adjustment, bind, Math_random, ret. destruct (randomoffset e); intros H;
      inversion H; subst.
    + pose proof (add_minutes_near m x (random E (draws n)) Hr). lia.
    + rewrite add_minutes_whole. unfold Moment.MS_MINUTE. lia.
Qed.

(** Either [schedule] arms: the event's old timer is cleared, a timer
    with the next handle is pending for it with delay moment minus now,
    and the event holds that handle; or it leaves timers and handles
    alone, returning after an "Invalid time" status or hanging in the
    loop. *)
Lemma schedule_cases (fuel : nat) (ev : evname) (isInitial : bool) (n : node) :
  let r := schedule E fuel ev isInitial n in
  (exists m : Z,
      fst r = Ret tt /\
      moment (events ev (snd r)) = Some m /\
      timers (snd r) =
        <[handles n := (ev, delay_of m (clock E (reads n)))]>
          (match timeout (events ev n) with
           | Some h => delete h (timers n)
           | None => timers n
           end) /\
      timeout (events ev (snd r)) = Some (handles n) /\
      handles (snd r) = S (handles n) /\
      statuses (snd r) = statuses n) \/
  ((fst r = Ret tt /\ moment (events ev (snd r)) = None /\
    statuses (snd r)
    = Status "red" "dot" ("Invalid time: " ++ time (events ev n)) :: statuses n
    \/ fst r = Hang) /\
   timer_state (snd r) = timer_state n).
Proof.
  intros r. subst r.
  destruct (resolve_returns E ev (set_reads (S (reads n)) n)) as (n1 & Hres).
  pose proof (resolve_keeps_timer_state E ev (set_reads (S (reads n)) n)) as H1.
  rewrite Hres in H1. cbn [snd] in H1.
  change (timer_state (set_reads (S (reads n)) n)) with (timer_state n) in H1.
  assert (Hcfg1 : node_config n1 = node_config n /\ statuses n1 = statuses n).
  { revert Hres. unfold resolve, bind, get, moment_now, update_event, modify, ret.
    cbv beta iota.
    destruct (exec_clock _) as [[h mi]|];
      [|destruct (getTimes _ _ _ _ _)]; intros Hres; inversion Hres; subst;
      destruct ev; split; reflexivity. }
  destruct Hcfg1 as [Hcfg1 Hst1].
  assert (Htime : time (events ev n1) = time (events ev n)).
  { unfold node_config, event_config in Hcfg1. destruct ev; simpl; congruence. }
  destruct (moment (events ev n1)) as [m0|] eqn:Hm0.
  - destruct (offset_moment_returns E (events ev n1) m0 n1) as (m1 & n2 & Hoff).
    pose proof (offset_moment_keeps_timer_state E (events ev n1) m0 n1) as H2.
    rewrite Hoff in H2. cbn [snd] in H2.
    assert (Hst2 : statuses n2 = statuses n1).
    { revert Hoff. unfold offset_moment, apply_offset, adjustment, bind, Math_random, ret.
      destruct (Moment.isValid m0);
        (destruct (offset (events ev n1)) as [x|];
         [destruct (x =? 0); [|destruct (randomoffset _)]|]);
        intros Hoff; inversion Hoff; reflexivity. }
    destruct (weekday_loop (weekdays E) fuel m1) as [[k c]|] eqn:Hloop.
    + left.
      destruct (schedule_armed E fuel ev isInitial n n1 n2 m0 m1 c k Hres Hm0 Hoff Hloop)
        as (n' & Hrun & Hmom & Hto & Htm & Hst & _).
      rewrite Hrun. cbn [fst snd].
      exists (rollover isInitial (clock E (reads n)) c).
      split; [reflexivity|]. split; [exact Hmom|].
      assert (Ht2 : timers n2 = timers n /\ handles n2 = handles n).
      { unfold timer_state in H1, H2. split; congruence. }
      destruct Ht2 as [Ht2 Hh2].
      rewrite (timer_state_timeout ev n n1 H1) in Htm.
      rewrite Ht2, Hh2 in Htm. rewrite Hh2 in Hto.
      split; [exact Htm|]. split; [exact Hto|]. split; [|congruence].
      revert Hrun. unfold schedule, bind, moment_now at 1.
      rewrite Hres. unfold get at 1. cbv beta iota. rewrite Hm0, Hoff.
      unfold adjust_weekday. rewrite Hloop. unfold ret at 1.
      unfold update_event, clearTimeout, setTimeout, modify.
      destruct (timeout (events ev n1)); intros Hrun; inversion Hrun; subst;
        destruct ev; simpl; congruence.
    + right.
      rewrite (schedule_hangs E fuel ev isInitial n n1 n2 m0 m1 Hres Hm0 Hoff Hloop).
      cbn [fst snd].
      split; [right; reflexivity | congruence].
  - right. rewrite (schedule_invalid E fuel ev isInitial n n1 Hres Hm0). cbn [fst snd].
    split.
    + left. split; [reflexivity|]. split.
      * destruct ev; exact Hm0.
      * cbn. now rewrite Htime, Hst1.
    + exact H1.
Qed.

(** With an enabled weekday within the seven entries and fuel for six
    advances, [schedule] returns with a valid moment when the moment it
    resolves is well inside the range, and it returns when it resolves
    none. *)
Lemma schedule_settles (fuel : nat) (ev : evname) (isInitial : bool) (n : node)
    (i m0 : Z) :
  0 <= i < 7 -> mask_at (weekdays E) i = true -> (6 <= fuel)%nat ->
  (0 <= random E (draws n) <= 1)%Q ->
  resolved_at E (S (reads n)) (events ev n) = Some m0 ->
  well_inside (events ev n) m0 = true ->
  exists (n' : node) (m1 c : Z) (k : nat),
    schedule E fuel ev isInitial n = (Ret tt, n') /\
    weekday_loop (weekdays E) fuel m1 = Some (k, c) /\
    m0 - reach (events ev n) < m1 <= m0 + reach (events ev n) - 8 * Moment.MS_DAY /\
    (k <= 6)%nat /\
    moment (events ev n') = Some (rollover isInitial (clock E (reads n)) c) /\
    Moment.isValid (rollover isInitial (clock E (reads n)) c) = true.
Proof.
  intros Hi Hmask Hfuel Hr Hres Hin.
  destruct (resolve_returns E ev (set_reads (S (reads n)) n)) as (n1 & Hrun1).
  destruct (resolve_moment E ev _ n1 Hrun1) as (Hm & _ & Hoffs & Hrnd & _ & Hdraws).
  replace (events ev (set_reads (S (reads n)) n)) with (events ev n) in *
    by (destruct ev; reflexivity).
  cbn [reads draws set_reads] in Hm, Hdraws. rewrite Hres in Hm.
  unfold well_inside in Hin. apply andb_true_iff in Hin. destruct Hin as [Hlo Hhi].
  apply isValid_range in Hlo, Hhi.
  assert (Hreach : 8 * Moment.MS_DAY <= reach (events ev n)).
  { unfold reach, Moment.MS_MINUTE. destruct (offset (events ev n)); lia. }
  assert (Hv0 : Moment.isValid m0 = true).
  { apply isValid_range. unfold Moment.MS_DAY in Hreach. lia. }
  destruct (offset_moment_returns E (events ev n1) m0 n1) as (m1 & n2 & Hoff).
  assert (Hnear : m0 - reach (events ev n) < m1
                  <= m0 + reach (events ev n) - 8 * Moment.MS_DAY).
  { revert Hoff. unfold offset_moment. rewrite Hv0. intros Hoff.
    assert (Hr1 : (0 <= random E (draws n1) <= 1)%Q) by (rewrite Hdraws; exact Hr).
    pose proof (apply_offset_near (events ev n1) _ _ _ _ Hr1 Hoff) as Hb.
    assert (Hre : reach (events ev n1) = reach (events ev n))
      by (unfold reach; now rewrite Hoffs).
    rewrite Hre in Hb. pose proof (seconds_near m0) as Hs.
    unfold Moment.MS_DAY, Moment.MS_MINUTE in *. lia. }
  assert (Hv1 : Moment.isValid m1 = true).
  { apply isValid_range. unfold Moment.MS_DAY in *. lia. }
  assert (Hv6 : Moment.isValid (Moment.add_days m1 6) = true).
  { apply isValid_range. unfold Moment.add_days, Moment.MS_DAY in *. lia. }
  destruct (weekday_loop_six (weekdays E) fuel m1 i Hi Hmask Hfuel Hv1 Hv6)
    as (k & c & Hloop & Hk & Hc & _).
  destruct (schedule_armed E fuel ev isInitial n n1 n2 m0 m1 c k Hrun1 Hm Hoff Hloop)
    as (n' & Hrun & Hmom & _).
  exists n', m1, c, k.
  split; [exact Hrun|]. split; [exact Hloop|]. split; [exact Hnear|].
  split; [exact Hk|]. split; [exact Hmom|].
  apply isValid_range.
  pose proof (rollover_near isInitial (clock E (reads n)) c) as Hroll.
  rewrite Hc in *. unfold Moment.add_days, Moment.MS_DAY in *. lia.
Qed.

End ScheduleEffect.

(** ** One timer per event *)

Lemma evname_eq_dec (a b : evname) : {a = b} + {a <> b}.
Proof. decide equality. Defined.

Lemma well_formed_same (n n' : node) :
  timer_state n' = timer_state n -> well_formed n -> well_formed n'.
Proof.
  intros Hsame [Hm Hf].
  assert (Hto : forall ev, timeout (events ev n') = timeout (events ev n))
    by (intros ev; unfold timer_state in Hsame; destruct ev; simpl; congruence).
  assert (Ht : timers n' = timers n) by (unfold timer_state in Hsame; congruence).
  assert (Hh : handles n' = handles n) by (unfold timer_state in Hsame; congruence).
  split.
  - intros h ev d Hh'. rewrite Hto. apply (Hm h ev d). now rewrite <- Ht.
  - intros ev h Hh'. rewrite Hh. apply (Hf ev h). now rewrite <- Hto.
Qed.

Lemma ki_same {A : Type} (c : M A) :
  keeps_proj timer_state c -> keeps_inv well_formed c.
Proof. intros Hc n Hwf. exact (well_formed_same n _ (Hc n) Hwf). Qed.

Lemma ki_delete (h : nat) :
  keeps_inv well_formed (modify (fun n => set_timers (delete h (timers n)) n)).
Proof.
  intros n [Hm Hf]. split.
  - intros i ev d Hi. cbn in Hi. apply lookup_delete_Some in Hi. destruct Hi as [_ Hi].
    destruct ev; [apply (Hm i ON d Hi) | apply (Hm i OFF d Hi)].
  - intros ev i Hi. cbn. destruct ev; [apply (Hf ON i Hi) | apply (Hf OFF i Hi)].
Qed.

Lemma ki_clearTimeout (h : option nat) : keeps_inv well_formed (clearTimeout h).
Proof. destruct h as [i|]; [apply ki_delete | apply ki_ret]. Qed.

Section OneTimer.

Variable E : env.

Lemma ki_schedule (fuel : nat) (ev : evname) (isInitial : bool) :
  keeps_inv well_formed (schedule E fuel ev isInitial).
Proof.
  intros n [Hm Hf].
  pose proof (schedule_keeps_inverse E fuel ev isInitial n) as Hinv.
  destruct (schedule_cases E fuel ev isInitial n)
    as [(m & _ & _ & Htm & Hto & Hh & _)|[_ Hsame]];
    [|exact (well_formed_same n _ Hsame (conj Hm Hf))].
  set (n' := snd (schedule E fuel ev isInitial n)) in *.
  assert (Hother : forall ev', ev' <> ev -> timeout (events ev' n') = timeout (events ev' n)).
  { intros ev' Hne. replace ev' with (inverse ev) by (destruct ev, ev'; simpl; congruence).
    now rewrite Hinv. }
  split.
  - intros h ev' d Hh'. rewrite Htm in Hh'.
    destruct (decide (h = handles n)) as [->|Hne].
    + rewrite lookup_insert_eq in Hh'. inversion Hh'; subst. exact Hto.
    + rewrite lookup_insert_ne in Hh' by congruence.
      assert (Hold : timers n !! h = Some (ev', d) /\ timeout (events ev n) <> Some h).
      { destruct (timeout (events ev n)) as [h0|]; [|split; [exact Hh' | discriminate]].
        apply lookup_delete_Some in Hh'. destruct Hh' as [Hne' Hh']. split; congruence. }
      destruct Hold as [Hold Hnot].
      pose proof (Hm h ev' d Hold) as Hheld.
      destruct (evname_eq_dec ev' ev) as [->|Hev]; [congruence|].
      now rewrite Hother.
  - intros ev' h Hh'. rewrite Hh.
    destruct (evname_eq_dec ev' ev) as [->|Hev].
    + rewrite Hto in Hh'. inversion Hh'. lia.
    + rewrite Hother in Hh' by exact Hev. pose proof (Hf ev' h Hh'). lia.
Qed.

Ltac ki_step :=
  first
    [ apply ki_ret | apply ki_throw | apply ki_get | apply ki_clearTimeout
    | apply ki_schedule
    | match goal with
      | |- keeps_inv _ (match ?x with _ => _ end) => destruct x
      | |- keeps_inv _ (if ?x then _ else _) => destruct x
      | |- keeps_inv _ (bind _ _) => apply ki_bind; [|intros ?]
      | |- keeps_inv _ (moment_now _) => apply ki_same; solve [kp_leaf]
      | |- keeps_inv _ (update_event _ (set_prop ?p ?v)) =>
          apply ki_same; destruct p, v; solve [kp_leaf]
      | |- keeps_inv _ (node_send _) => apply ki_same; solve [kp_leaf]
      | |- keeps_inv _ (node_status _) => apply ki_same; solve [kp_leaf]
      | |- keeps_inv _ (modify (fun n => set_bootstraps _ n)) => apply ki_same; solve [kp_leaf]
      | |- keeps_inv _ (modify (set_suspended _)) => apply ki_same; solve [kp_leaf]
      | |- keeps_inv _ (modify (fun n => set_timers (delete _ _) n)) => apply ki_delete
      end ].

Lemma ki_send (ev : evname) (manual : bool) : keeps_inv well_formed (send E ev manual).
Proof. unfold send. repeat ki_step. Qed.

Lemma ki_suspend : keeps_inv well_formed (suspend E).
Proof. unfold suspend. repeat ki_step. Qed.

Lemma ki_resume (fuel : nat) : keeps_inv well_formed (resume E fuel).
Proof. unfold resume. repeat ki_step. Qed.

Lemma ki_bootstrap (fuel : nat) : keeps_inv well_formed (bootstrap E fuel).
Proof.
  unfold bootstrap.
  apply ki_bind; [ki_step | intros _].
  apply ki_bind; [apply ki_get | intros n].
  destruct (suspended n || (indexOf_true (weekdays E) =? -1));
    [apply ki_suspend | apply ki_resume].
Qed.

Lemma ki_fire (fuel : nat) (h : nat) : keeps_inv well_formed (fire E fuel h).
Proof.
  unfold fire, callback.
  apply ki_bind; [apply ki_get | intros n].
  destruct (timers n !! h) as [[ev d]|]; [|apply ki_ret].
  apply ki_bind; [apply ki_delete | intros _].
  apply ki_bind; [apply ki_send | intros _; apply ki_schedule].
Qed.

Lemma ki_eachProp (lookup : string -> option jsval) (f : flags) :
  keeps_inv well_formed (eachProp (update_prop lookup) f).
Proof. unfold eachProp, update_prop. repeat ki_step. Qed.

Lemma ki_on_input (fuel : nat) (msg : input) : keeps_inv well_formed (on_input E fuel msg).
Proof.
  unfold on_input. apply ki_bind.
  - destruct msg as [s|o].
    + destruct (String.eqb s "on");
        [apply ki_bind; [apply ki_send | intros _; apply ki_ret]|].
      destruct (String.eqb s "off");
        [apply ki_bind; [apply ki_send | intros _; apply ki_ret]|].
      apply ki_bind; [|intros f; apply ki_eachProp].
      unfold update_suspended. repeat ki_step.
    + destruct (o !! "hasOwnProperty"); [apply ki_throw|].
      apply ki_bind; [|intros f; apply ki_eachProp].
      unfold update_suspended. repeat ki_step.
  - intros f. destruct (negb (handled f)); [ki_step|].
    destruct (requiresBootstrap f); [apply ki_bootstrap | apply ki_ret].
Qed.

End OneTimer.

Section ScheduleExtras.

Variable E : env.

(** X6.  However it ends, [schedule] leaves the configuration (the flag
    [suspended] and the five properties of both events), the whole inverse
    event and the log of sent messages as they were: it only works on the
    moment and the timer of its own event. *)
Theorem schedule_touches_own_event (fuel : nat) (ev : evname) (isInitial : bool) (n : node) :
  let n' := snd (schedule E fuel ev isInitial n) in
  node_config n' = node_config n /\
  events (inverse ev) n' = events (inverse ev) n /\
  sent n' = sent n.
Proof.
  cbv zeta. split; [apply schedule_keeps_config|].
  split; [apply schedule_keeps_inverse | apply schedule_keeps_sent].
Qed.

(** X7.  With a weekday enabled (and fuel for six advances) and the
    random draw in [0,1), [schedule] does not end silently.  When the
    first part leaves a moment in the event (the clock time of the
    pattern, else SunCalc's time, else the moment from before) that is
    well inside the range of [Date] (by the offset and eight days),
    [schedule] returns, the event has a valid moment and holds the handle
    of a pending timer whose delay is that moment minus the first clock
    reading, and no status is published; when that moment is invalid,
    [schedule] does not return.  When the first part leaves no moment,
    [schedule] returns, the timer table is untouched and the status
    "Invalid time" is published. *)
Theorem schedule_arms_or_reports (fuel : nat) (ev : evname) (isInitial : bool)
    (n : node) (i : Z) :
  0 <= i < 7 -> mask_at (weekdays E) i = true -> (6 <= fuel)%nat ->
  (0 <= random E (draws n) < 1)%Q ->
  match resolved_at E (S (reads n)) (events ev n) with
  | Some m0 =>
      (well_inside (events ev n) m0 = true ->
       exists (n' : node) (m : Z) (h : nat),
         schedule E fuel ev isInitial n = (Ret tt, n') /\
         moment (events ev n') = Some m /\ Moment.isValid m = true /\
         timeout (events ev n') = Some h /\
         timers n' !! h = Some (ev, m - clock E (reads n)) /\
         statuses n' = statuses n) /\
      (Moment.isValid m0 = false -> fst (schedule E fuel ev isInitial n) = Hang)
  | None =>
      exists n' : node,
        schedule E fuel ev isInitial n = (Ret tt, n') /\
        moment (events ev n') = None /\
        timers n' = timers n /\
        statuses n'
        = Status "red" "dot" ("Invalid time: " ++ time (events ev n)) :: statuses n
  end.
Proof.
  intros Hi Hmask Hfuel [Hr0 Hr1].
  assert (Hr : (0 <= random E (draws n) <= 1)%Q) by (split; [exact Hr0 | lra]).
  pose proof (schedule_cases E fuel ev isInitial n) as Hcases. cbv zeta in Hcases.
  destruct (resolved_at E (S (reads n)) (events ev n)) as [m0|] eqn:Hres.
  - split.
    + intros Hin.
      destruct (schedule_settles E fuel ev isInitial n i m0 Hi Hmask Hfuel Hr Hres Hin)
        as (n' & m1 & c & k & Hrun & _ & _ & _ & Hmom & Hvalid).
      rewrite Hrun in Hcases. cbn [fst snd] in Hcases.
      exists n', (rollover isInitial (clock E (reads n)) c), (handles n).
      split; [exact Hrun|]. split; [exact Hmom|]. split; [exact Hvalid|].
      destruct Hcases as [(m & _ & Hmom' & Htm & Hto & _ & Hst)|[Hout _]].
      * rewrite Hmom in Hmom'. inversion Hmom' as [Hm]. rewrite <- Hm in Htm.
        split; [exact Hto|]. split; [|exact Hst].
        rewrite Htm, lookup_insert_eq. unfold delay_of. now rewrite Hvalid.
      * destruct Hout as [(_ & Hnone & _)|Hhang]; [congruence | discriminate].
    + intros Hinv. now apply (schedule_invalid_moment E fuel ev isInitial n m0).
  - destruct (resolve_returns E ev (set_reads (S (reads n)) n)) as (n1 & Hrun1).
    destruct (resolve_moment E ev _ n1 Hrun1) as (Hm & _).
    replace (events ev (set_reads (S (reads n)) n)) with (events ev n) in Hm
      by (destruct ev; reflexivity).
    cbn [reads set_reads] in Hm. rewrite Hres in Hm.
    pose proof (schedule_invalid E fuel ev isInitial n n1 Hrun1 Hm) as Hrun.
    rewrite Hrun in Hcases. cbn [fst snd] in Hcases.
    eexists. split; [exact Hrun|].
    destruct Hcases as [(m & _ & Hmom' & _)|[Hout Hsame]].
    + exfalso. destruct ev; cbn in Hmom', Hm; congruence.
    + destruct Hout as [(_ & Hnone & Hst)|Hhang]; [|discriminate].
      split; [exact Hnone|]. split; [|exact Hst].
      unfold timer_state in Hsame. congruence.
Qed.

(** X8.  The node keeps its timers in order.  A node without timers and
    handles is well formed (every pending timer runs the callback of the
    event that holds its handle, and every handle held was given out
    before), and [bootstrap], the input handler, a firing timer and
    [suspend] all keep it so, however they end. *)
Theorem handlers_keep_well_formed (fuel : nat) (n : node) :
  (timers n = ∅ -> timeout (on n) = None -> timeout (off n) = None -> well_formed n) /\
  (well_formed n ->
   well_formed (snd (bootstrap E fuel n)) /\
   (forall msg : input, well_formed (snd (on_input E fuel msg n))) /\
   (forall h : nat, well_formed (snd (fire E fuel h n))) /\
   well_formed (snd (suspend E n))).
Proof.
  split.
  - intros Ht Hon Hoff. split.
    + intros h ev d Hh. rewrite Ht, lookup_empty in Hh. discriminate.
    + intros [] h Hh; simpl in Hh; congruence.
  - intros Hwf. split; [now apply ki_bootstrap|].
    split; [intros msg; now apply ki_on_input|].
    split; [intros h; now apply ki_fire | now apply ki_suspend].
Qed.

End ScheduleExtras.

Lemma schedule_arms_or_reports_witness :
  resolved_at monday_9am_env 1 (events ON fresh_node) = Some (at_time monday 8 0) /\
  well_inside (events ON fresh_node) (at_time monday 8 0) = true /\
  exists (n' : node) (m : Z) (h : nat),
    schedule monday_9am_env 7 ON true fresh_node = (Ret tt, n') /\
    moment (events ON n') = Some m /\ Moment.isValid m = true /\
    timeout (events ON n') = Some h /\
    timers n' !! h = Some (ON, m - clock monday_9am_env (reads fresh_node)) /\
    statuses n' = statuses fresh_node.
Proof.
  assert (H1 : 0 <= 1 < 7) by lia.
  assert (H6 : (6 <= 7)%nat) by lia.
  assert (Hr : (0 <= random monday_9am_env (draws fresh_node) < 1)%Q)
    by (split; [apply Qle_refl | reflexivity]).
  assert (Hres : resolved_at monday_9am_env (S (reads fresh_node)) (events ON fresh_node)
                 = Some (at_time monday 8 0)) by reflexivity.
  pose proof (schedule_arms_or_reports monday_9am_env 7 ON true fresh_node 1
                H1 eq_refl H6 Hr) as H.
  rewrite Hres in H. destruct H as [Harm _].
  split; [reflexivity|]. split; [reflexivity|]. exact (Harm eq_refl).
Defined.

Lemma running_node_well_formed : well_formed running_node.
Proof.
  split.
  - intros h ev d Hh. apply elem_of_map_to_list in Hh.
    assert (Hl : map_to_list (timers running_node)
                 = [(1%nat, (OFF, 46800000)); (0%nat, (ON, 3600000))])
      by (vm_compute; reflexivity).
    rewrite Hl in Hh.
    apply elem_of_cons in Hh. destruct Hh as [Hh|Hh]; [inversion Hh; reflexivity|].
    apply elem_of_cons in Hh. destruct Hh as [Hh|Hh]; [inversion Hh; reflexivity|].
    apply elem_of_nil in Hh. destruct Hh.
  - intros [] h Hh; vm_compute in Hh; inversion Hh; subst; vm_compute; lia.
Qed.

Lemma handlers_keep_well_formed_witness :
  well_formed running_node /\
  well_formed (snd (on_input monday_7am_env 7 moonrise_input running_node)) /\
  well_formed (snd (fire monday_7am_env 7 0 running_node)).
Proof.
  pose proof (proj2 (handlers_keep_well_formed monday_7am_env 7 running_node)
                running_node_well_formed) as (_ & Hin & Hfire & _).
  split; [exact running_node_well_formed|]. split; [apply Hin | apply Hfire].
Defined.

Lemma started_well_formed (n : node) : started n -> well_formed n.
Proof.
  intros (Ht & Hon & Hoff). split.
  - intros h ev d Hh. rewrite Ht, lookup_empty in Hh. discriminate.
  - intros [] h Hh; simpl in Hh; congruence.
Qed.

Lemma runs_well_formed (E : env) (n0 n : node) :
  started n0 -> runs E n0 n -> well_formed n.
Proof.
  intros Hstart Hruns. induction Hruns as [fuel|fuel msg n _ IH|fuel h n _ IH|n _ IH].
  - apply ki_bootstrap. now apply started_well_formed.
  - now apply ki_on_input.
  - now apply ki_fire.
  - now apply ki_suspend.
Qed.

(** X9.  The node never has two timers pending for one event.  Take the
    node as the constructor leaves it (no timer, no handle held) and let
    it run: [bootstrap], then any messages, firing timers and closes, in
    any order and however each of them ends.  In every node reached this
    way, two pending timers that run the same event's callback are one
    and the same, the event holds its handle in [timeout], and the
    handle was given out by an earlier [setTimeout]. *)
Theorem one_timer_per_event (E : env) (n0 n : node) (h1 h2 : nat) (ev : evname)
    (d1 d2 : Z) :
  started n0 -> runs E n0 n ->
  timers n !! h1 = Some (ev, d1) -> timers n !! h2 = Some (ev, d2) ->
  h1 = h2 /\ d1 = d2 /\ timeout (events ev n) = Some h1 /\ (h1 < handles n)%nat.
Proof.
  intros Hstart Hruns H1 H2.
  destruct (runs_well_formed E n0 n Hstart Hruns) as [Hm Hf].
  pose proof (Hm h1 ev d1 H1) as Ht1. pose proof (Hm h2 ev d2 H2) as Ht2.
  assert (h1 = h2) by congruence. subst h2.
  split; [reflexivity|]. split; [congruence|]. split; [exact Ht1|].
  exact (Hf ev h1 Ht1).
Qed.

Lemma one_timer_per_event_witness :
  let n := snd (on_input monday_7am_env 7 moonrise_input
                  running_node) in
  started fresh_node /\
  runs monday_7am_env fresh_node n /\
  timers n !! 3%nat = Some (OFF, 46800000) /\
  timeout (events OFF n) = Some 3%nat.
Proof.
  cbv zeta.
  assert (Hstart : started fresh_node) by (repeat split; reflexivity).
  assert (Hruns : runs monday_7am_env fresh_node
                    (snd (on_input monday_7am_env 7 moonrise_input
                            running_node))).
  { apply runs_input. apply (runs_bootstrap monday_7am_env fresh_node 7). }
  split; [exact Hstart|]. split; [exact Hruns|].
  assert (H1 : timers (snd (on_input monday_7am_env 7 moonrise_input
                              running_node)) !! 3%nat
               = Some (OFF, 46800000)) by (vm_compute; reflexivity).
  destruct (one_timer_per_event monday_7am_env fresh_node _ 3 3 OFF _ _ Hstart Hruns H1 H1)
    as (_ & _ & Hheld & _).
  split; [exact H1 | exact Hheld].
Defined.

(** ** Suspension *)

Section Suspension.

Variable E : env.

Lemma suspend_clears (n : node) :
  forall (ev : evname) (h : nat),
    timeout (events ev n) = Some h -> timers (snd (suspend E n)) !! h = None.
Proof.
  intros ev h Hh. rewrite suspend_run. cbn.
  destruct ev; simpl in Hh; rewrite Hh.
  - destruct (timeout (off n)) as [h'|]; [|apply lookup_delete_eq].
    destruct (decide (h' = h)) as [->|Hne]; [apply lookup_delete_eq|].
    rewrite lookup_delete_ne by exact Hne. apply lookup_delete_eq.
  - destruct (timeout (on n)); apply lookup_delete_eq.
Qed.

Lemma suspend_subset (n : node) (h : nat) (x : evname * Z) :
  timers (snd (suspend E n)) !! h = Some x -> timers n !! h = Some x.
Proof.
  rewrite suspend_run. cbn.
  destruct (timeout (on n)), (timeout (off n)); intros H;
    repeat (apply lookup_delete_Some in H; destruct H as [_ H]); exact H.
Qed.

Lemma suspend_empties (n : node) :
  timers_matched n -> timers (snd (suspend E n)) = ∅.
Proof.
  intros Hm. apply map_eq. intros h. rewrite lookup_empty.
  destruct (timers (snd (suspend E n)) !! h) as [[ev d]|] eqn:Hh; [|reflexivity].
  pose proof (suspend_subset n h _ Hh) as Hold.
  pose proof (suspend_clears n ev h (Hm h ev d Hold)). congruence.
Qed.

(** X10.  With the flag [suspended] set, [bootstrap] suspends whatever the
    weekdays are: it returns without reading the clock, cancels the
    timers whose handles the events hold (none is left when every pending
    timer belongs to an event), keeps both events as they are, and
    publishes the grey status, which names the weekdays as the cause only
    when none is enabled. *)
Theorem bootstrap_suspended_flag (fuel : nat) (n : node) :
  suspended n = true ->
  exists n' : node,
    bootstrap E fuel n = (Ret tt, n') /\
    (forall (ev : evname) (h : nat),
        timeout (events ev n) = Some h -> timers n' !! h = None) /\
    (timers_matched n -> timers n' = ∅) /\
    statuses n' =
      Status "grey" "dot"
        (if indexOf_true (weekdays E) =? -1
         then "Scheduling suspended (no weekdays selected) - manual mode only"
         else "Scheduling suspended - manual mode only")
      :: statuses n /\
    on n' = on n /\ off n' = off n /\ reads n' = reads n /\ sent n' = sent n.
Proof.
  intros Hs.
  assert (Hrun : bootstrap E fuel n
                 = (Ret tt, snd (suspend E (set_bootstraps (S (bootstraps n)) n)))).
  { unfold bootstrap, bind, modify, get. cbv beta iota.
    change (suspended (set_bootstraps (S (bootstraps n)) n)) with (suspended n).
    rewrite Hs. cbn [orb]. now rewrite suspend_run. }
  eexists. split; [exact Hrun|].
  split; [intros ev h Hh; apply (suspend_clears _ ev h); destruct ev; exact Hh|].
  split.
  - intros Hm. apply suspend_empties. intros h ev d Hh. destruct ev; apply (Hm h _ d Hh).
  - rewrite suspend_run. cbn.
    destruct (indexOf_true (weekdays E) =? -1); repeat split; reflexivity.
Qed.

(** X11.  [suspend] can be repeated: a second call cancels nothing more
    and changes nothing but the status log, to which it adds the same
    status again. *)
Theorem suspend_twice (n : node) :
  let n1 := snd (suspend E n) in
  let n2 := snd (suspend E n1) in
  fst (suspend E n1) = Ret tt /\
  timers n2 = timers n1 /\ on n2 = on n1 /\ off n2 = off n1 /\
  suspended n2 = suspended n1 /\ handles n2 = handles n1 /\
  exists s : status, statuses n1 = s :: statuses n /\ statuses n2 = s :: statuses n1.
Proof.
  cbv zeta. rewrite !suspend_run. cbn.
  split; [reflexivity|]. split.
  - destruct (timeout (on n)) as [a|], (timeout (off n)) as [b|]; cbn;
      apply map_eq; intros i; rewrite ?lookup_delete; repeat case_decide; reflexivity.
  - repeat split. eexists. split; reflexivity.
Qed.

End Suspension.

Lemma bootstrap_suspended_flag_witness :
  suspended (set_suspended true running_node) = true /\
  exists n' : node,
    bootstrap monday_7am_env 7 (set_suspended true running_node) = (Ret tt, n') /\
    timers n' = ∅ /\
    statuses n' = Status "grey" "dot" "Scheduling suspended - manual mode only"
                  :: statuses running_node.
Proof.
  split; [reflexivity|].
  destruct (bootstrap_suspended_flag monday_7am_env 7 (set_suspended true running_node)
              eq_refl) as (n' & Hrun & _ & Hnone & Hst & _).
  exists n'. split; [exact Hrun|]. split; [|exact Hst].
  apply Hnone. intros h ev d Hh.
  destruct running_node_well_formed as [Hm _]. destruct ev; apply (Hm h _ d Hh).
Defined.

(** ** Resuming *)

Section Resuming.

Variable E : env.

Lemma resolve_reads (ev : evname) (n : node) :
  reads (snd (resolve E ev n)) = S (reads n).
Proof.
  unfold resolve, bind, get, moment_now, update_event, modify, ret. cbv beta iota.
  destruct (exec_clock _) as [[h mi]|]; [destruct ev; reflexivity|].
  destruct (getTimes _ _ _ _ _); destruct ev; reflexivity.
Qed.

(** [schedule] reads the clock twice, however it ends. *)
Lemma schedule_reads (fuel : nat) (ev : evname) (isInitial : bool) (n : node) :
  reads (snd (schedule E fuel ev isInitial n)) = S (S (reads n)).
Proof.
  destruct (resolve_returns E ev (set_reads (S (reads n)) n)) as (n1 & Hres).
  pose proof (resolve_reads ev (set_reads (S (reads n)) n)) as Hr.
  rewrite Hres in Hr. cbn in Hr.
  unfold schedule. unfold bind at 1, moment_now at 1. cbv beta iota.
  unfold bind at 1. rewrite Hres.
  match goal with
  | |- reads (snd (?c n1)) = _ =>
      assert (Hkeep : keeps_proj reads c)
        by (unfold offset_moment, apply_offset, adjustment, adjust_weekday;
            repeat kp_step)
  end.
  rewrite Hkeep. exact Hr.
Qed.

(** A time spec that resolves well inside the range, an enabled weekday:
    [schedule] arms. *)
Lemma schedule_arms (fuel : nat) (ev : evname) (isInitial : bool) (n : node) (i m0 : Z) :
  0 <= i < 7 -> mask_at (weekdays E) i = true -> (6 <= fuel)%nat ->
  (0 <= random E (draws n) < 1)%Q ->
  resolved_at E (S (reads n)) (events ev n) = Some m0 ->
  well_inside (events ev n) m0 = true ->
  exists (n' : node) (m : Z),
    schedule E fuel ev isInitial n = (Ret tt, n') /\
    moment (events ev n') = Some m /\
    Moment.isValid m = true /\
    timers n' =
      <[handles n := (ev, m - clock E (reads n))]>
        (match timeout (events ev n) with
         | Some h => delete h (timers n)
         | None => timers n
         end) /\
    timeout (events ev n') = Some (handles n) /\
    handles n' = S (handles n) /\
    statuses n' = statuses n.
Proof.
  intros Hi Hmask Hfuel [Hr0 Hr1] Hres Hin.
  assert (Hr : (0 <= random E (draws n) <= 1)%Q) by (split; [exact Hr0 | lra]).
  destruct (schedule_settles E fuel ev isInitial n i m0 Hi Hmask Hfuel Hr Hres Hin)
    as (n' & m1 & c & k & Hrun & _ & _ & _ & Hmom & Hvalid).
  pose proof (schedule_cases E fuel ev isInitial n) as Hcases.
  rewrite Hrun in Hcases. cbn [fst snd] in Hcases.
  exists n', (rollover isInitial (clock E (reads n)) c).
  split; [exact Hrun|]. split; [exact Hmom|]. split; [exact Hvalid|].
  destruct Hcases as [(m & _ & Hmom' & Htm & Hrest)|[[(_ & Hnone & _)|Hhang] _]];
    [|congruence | discriminate].
  rewrite Hmom in Hmom'. inversion Hmom' as [Hm]. rewrite <- Hm in Htm.
  unfold delay_of in Htm. rewrite Hvalid in Htm. split; [exact Htm | exact Hrest].
Qed.

End Resuming.

Section Active.

Variable E : env.

(** X12.  With the flag [suspended] off, a weekday enabled, the random
    draws in [0,1) and both time specs resolving well inside the range
    of [Date] (a clock time, SunCalc's time or a moment from before, at
    least the offset and eight days from both ends), [bootstrap] makes
    the node active: it returns, both events get a valid moment, each
    holds the handle of a pending timer of its own (the two next handles)
    whose delay is its moment minus the clock reading its [schedule]
    began with, the timers the events held before are no longer pending,
    the configuration is unchanged, and the yellow status names the
    earlier event first. *)
Theorem bootstrap_arms_both (fuel : nat) (n : node) (a0 b0 : Z) :
  suspended n = false ->
  indexOf_true (weekdays E) <> -1 -> length (weekdays E) = 7%nat -> (6 <= fuel)%nat ->
  (forall k : nat, (0 <= random E k < 1)%Q) ->
  handles_fresh n ->
  resolved_at E (S (reads n)) (on n) = Some a0 -> well_inside (on n) a0 = true ->
  resolved_at E (S (S (S (reads n)))) (off n) = Some b0 -> well_inside (off n) b0 = true ->
  exists (n' : node) (m_on m_off : Z),
    bootstrap E fuel n = (Ret tt, n') /\
    moment (on n') = Some m_on /\ moment (off n') = Some m_off /\
    Moment.isValid m_on = true /\ Moment.isValid m_off = true /\
    timeout (on n') = Some (handles n) /\ timeout (off n') = Some (S (handles n)) /\
    timers n' !! handles n = Some (ON, m_on - clock E (reads n)) /\
    timers n' !! S (handles n) = Some (OFF, m_off - clock E (S (S (reads n)))) /\
    (forall (ev : evname) (h : nat),
        timeout (events ev n) = Some h -> timers n' !! h = None) /\
    node_config n' = node_config n /\
    statuses n' =
      Status "yellow" "dot"
        (if Moment.isBefore m_on m_off
         then "ON " ++ format E m_on ++ ", OFF " ++ format E m_off
         else "OFF " ++ format E m_off ++ ", ON " ++ format E m_on)
      :: statuses n.
Proof.
  intros Hsusp Hidx Hlen Hfuel Hrnd Hfresh Hon Hona Hoff Hoffb.
  destruct (indexOf_true_enabled (weekdays E) Hidx Hlen) as (i & Hi & Hmask).
  set (n0 := set_bootstraps (S (bootstraps n)) n).
  destruct (schedule_arms E fuel ON true n0 i a0 Hi Hmask Hfuel (Hrnd _) Hon Hona)
    as (n1 & m1 & Hrun1 & Hmom1 & Hv1 & Htm1 & Hto1 & Hh1 & Hst1).
  pose proof (schedule_keeps_inverse E fuel ON true n0) as Hinv1.
  pose proof (schedule_keeps_config E fuel ON true n0) as Hcfg1.
  pose proof (schedule_reads E fuel ON true n0) as Hrd1.
  rewrite Hrun1 in Hinv1, Hcfg1, Hrd1. cbn [snd] in Hcfg1. cbn in Hinv1, Hrd1.
  assert (Hoff1 : resolved_at E (S (reads n1)) (events OFF n1) = Some b0)
    by (cbn; rewrite Hinv1, Hrd1; exact Hoff).
  assert (Hoffb1 : well_inside (events OFF n1) b0 = true)
    by (cbn; rewrite Hinv1; exact Hoffb).
  destruct (schedule_arms E fuel OFF true n1 i b0 Hi Hmask Hfuel (Hrnd _) Hoff1 Hoffb1)
    as (n2 & m2 & Hrun2 & Hmom2 & Hv2 & Htm2 & Hto2 & Hh2 & Hst2).
  pose proof (schedule_keeps_inverse E fuel OFF true n1) as Hinv2.
  pose proof (schedule_keeps_config E fuel OFF true n1) as Hcfg2.
  rewrite Hrun2 in Hinv2, Hcfg2. cbn [snd] in Hcfg2. cbn in Hinv2.
  assert (Hcfg : node_config n2 = node_config n)
    by (transitivity (node_config n1); [exact Hcfg2 | exact Hcfg1]).
  cbn in Hmom1, Htm1, Hto1, Hh1, Hst1, Hmom2, Htm2, Hto2, Hh2, Hst2.
  rewrite Hinv1 in Htm2. rewrite Hh1 in Htm2, Hto2. rewrite Hrd1 in Htm2.
  assert (Hmon2 : moment (on n2) = Some m1) by (rewrite Hinv2; exact Hmom1).
  assert (Hton2 : timeout (on n2) = Some (handles n)) by (rewrite Hinv2; exact Hto1).
  assert (Hrun : bootstrap E fuel n
                 = (Ret tt,
                    set_statuses
                      (Status "yellow" "dot"
                         (if Moment.isBefore m1 m2
                          then "ON " ++ format E m1 ++ ", OFF " ++ format E m2
                          else "OFF " ++ format E m2 ++ ", ON " ++ format E m1)
                       :: statuses n2) n2)).
  { unfold bootstrap. unfold bind at 1, modify at 1. cbv beta iota. fold n0.
    unfold bind at 1, get at 1. cbv beta iota.
    change (suspended n0) with (suspended n). rewrite Hsusp.
    destruct (Z.eqb_spec (indexOf_true (weekdays E)) (-1)) as [Heq|_]; [contradiction|].
    cbn [orb]. unfold resume. unfold bind at 1. rewrite Hrun1.
    unfold bind at 1. rewrite Hrun2. unfold bind at 1, get at 1. cbv beta iota.
    rewrite Hmon2, Hmom2, Hv1, Hv2. cbn [andb]. unfold node_status, modify.
    destruct (Moment.isBefore m1 m2); reflexivity. }
  assert (Hfon : forall h, timeout (on n) = Some h -> h <> handles n /\ h <> S (handles n))
    by (intros h Hh; pose proof (Hfresh ON h Hh); lia).
  assert (Hfoff : forall h, timeout (off n) = Some h -> h <> handles n /\ h <> S (handles n))
    by (intros h Hh; pose proof (Hfresh OFF h Hh); lia).
  exists (set_statuses
            (Status "yellow" "dot"
               (if Moment.isBefore m1 m2
                then "ON " ++ format E m1 ++ ", OFF " ++ format E m2
                else "OFF " ++ format E m2 ++ ", ON " ++ format E m1)
             :: statuses n2) n2), m1, m2.
  split; [exact Hrun|]. cbn.
  split; [exact Hmon2|]. split; [exact Hmom2|].
  split; [exact Hv1|]. split; [exact Hv2|].
  split; [exact Hton2|]. split; [exact Hto2|].
  split; [|split; [|split; [|split]]].
  - rewrite Htm2, lookup_insert_ne by lia.
    destruct (timeout (off n)) as [b|] eqn:Hb.
    + destruct (Hfoff b eq_refl) as [Hb1 _].
      rewrite lookup_delete_ne by exact Hb1. rewrite Htm1. apply lookup_insert_eq.
    + rewrite Htm1. apply lookup_insert_eq.
  - rewrite Htm2. apply lookup_insert_eq.
  - intros ev h Hh. rewrite Htm2, Htm1.
    assert (Hne : h <> handles n /\ h <> S (handles n))
      by (destruct ev; [apply Hfon | apply Hfoff]; exact Hh).
    destruct Hne as [Hne1 Hne2].
    rewrite lookup_insert_ne by congruence.
    destruct ev; simpl in Hh.
    + destruct (timeout (off n)) as [b|];
        [rewrite lookup_delete; case_decide; [reflexivity|]|];
        rewrite lookup_insert_ne by congruence; rewrite Hh; apply lookup_delete_eq.
    + rewrite Hh. apply lookup_delete_eq.
  - exact Hcfg.
  - now rewrite Hst2, Hst1.
Qed.

End Active.

Lemma bootstrap_arms_both_witness :
  suspended fresh_node = false /\
  indexOf_true (weekdays monday_7am_env) <> -1 /\
  resolved_at monday_7am_env 1 (on fresh_node) = Some (at_time monday 8 0 + 123) /\
  well_inside (on fresh_node) (at_time monday 8 0 + 123) = true /\
  exists (n' : node) (m_on m_off : Z),
    bootstrap monday_7am_env 7 fresh_node = (Ret tt, n') /\
    moment (on n') = Some m_on /\ moment (off n') = Some m_off /\
    timers n' !! handles fresh_node
    = Some (ON, m_on - clock monday_7am_env (reads fresh_node)).
Proof.
  assert (Hidx : indexOf_true (weekdays monday_7am_env) <> -1) by discriminate.
  assert (H6 : (6 <= 7)%nat) by lia.
  assert (Hfresh : handles_fresh fresh_node) by (intros [] h Hh; discriminate).
  assert (Hrnd : forall k : nat, (0 <= random monday_7am_env k < 1)%Q)
    by (intros k; split; [apply Qle_refl | reflexivity]).
  split; [reflexivity|]. split; [exact Hidx|].
  split; [reflexivity|]. split; [reflexivity|].
  destruct (bootstrap_arms_both monday_7am_env 7 fresh_node
              (at_time monday 8 0 + 123) (at_time monday 20 0 + 123)
              eq_refl Hidx eq_refl H6 Hrnd Hfresh eq_refl eq_refl eq_refl eq_refl)
    as (n' & m_on & m_off & Hrun & Hon & Hoff & _ & _ & _ & _ & Hton & _).
  exists n', m_on, m_off. auto.
Defined.

(** ** Six advances decide the loop *)

(** The loop gives the same result with any fuel that covers the
    advances it makes. *)
Lemma weekday_loop_enough (wd : list bool) :
  forall (fuel : nat) (m : Z) (k : nat) (m' : Z) (fuel' : nat),
    weekday_loop wd fuel m = Some (k, m') -> (k <= fuel')%nat ->
    weekday_loop wd fuel' m = Some (k, m').
Proof.
  induction fuel as [|fuel IH]; intros m k m' fuel' Hrun Hk; simpl in Hrun;
    destruct (Moment.isValid m) eqn:Hv; cbn [negb] in Hrun; try discriminate;
    destruct (mask_at wd (Moment.weekday m)) eqn:Hhere; try discriminate.
  - inversion Hrun; subst. destruct fuel'; simpl; rewrite Hv, Hhere; reflexivity.
  - inversion Hrun; subst. destruct fuel'; simpl; rewrite Hv, Hhere; reflexivity.
  - destruct (weekday_loop wd fuel (Moment.add_days m 1)) as [[j m'']|] eqn:Hrec;
      [|discriminate].
    inversion Hrun; subst. destruct fuel' as [|fuel']; [lia|].
    simpl. rewrite Hv, Hhere. cbn [negb].
    rewrite (IH _ _ _ fuel' Hrec) by lia. reflexivity.
Qed.

(** The loop never makes a seventh advance: the day it would stop on has
    the weekday of a day it has passed. *)
Lemma weekday_loop_at_most_six (wd : list bool) (fuel : nat) (m : Z) (k : nat) (m' : Z) :
  weekday_loop wd fuel m = Some (k, m') -> (k <= 6)%nat.
Proof.
  intros Hrun. destruct (weekday_loop_sound wd fuel m k m' Hrun) as [Hm' Hen].
  destruct (le_lt_dec k 6) as [Hle|Hgt]; [exact Hle | exfalso].
  pose proof (weekday_loop_skips wd fuel m k m' Hrun (k - 7) ltac:(lia)) as Hskip.
  rewrite Hm', weekday_add_days in Hen. rewrite weekday_add_days in Hskip.
  replace (Moment.weekday m + Z.of_nat k)
    with (Moment.weekday m + Z.of_nat (k - 7) + 1 * 7) in Hen by lia.
  rewrite Z.mod_add in Hen by lia. congruence.
Qed.

Lemma weekday_loop_fuel (wd : list bool) (fuel : nat) (m : Z) :
  (6 <= fuel)%nat -> weekday_loop wd fuel m = weekday_loop wd 6 m.
Proof.
  intros Hfuel.
  destruct (weekday_loop wd fuel m) as [[k m']|] eqn:Hrun.
  - pose proof (weekday_loop_at_most_six wd fuel m k m' Hrun) as Hk.
    symmetry. now apply (weekday_loop_enough wd fuel).
  - destruct (weekday_loop wd 6 m) as [[k m']|] eqn:Hsix; [|reflexivity].
    pose proof (weekday_loop_at_most_six wd 6 m k m' Hsix) as Hk.
    rewrite (weekday_loop_enough wd 6 m k m' fuel Hsix) in Hrun by lia. discriminate.
Qed.

Lemma bind_ext {A B : Type} (c : M A) (k k' : A -> M B) (n : node) :
  (forall (a : A) (n1 : node), k a n1 = k' a n1) -> bind c k n = bind c k' n.
Proof. intros H. unfold bind. destruct (c n) as [[a|e|] n1]; auto. Qed.

Section Fuel.

Variable E : env.

Lemma schedule_fuel (fuel : nat) (ev : evname) (isInitial : bool) (n : node) :
  (6 <= fuel)%nat -> schedule E fuel ev isInitial n = schedule E 6 ev isInitial n.
Proof.
  intros Hfuel. unfold schedule.
  apply bind_ext. intros now n1. apply bind_ext. intros _ n2.
  apply bind_ext. intros n3 n4.
  destruct (moment (events ev n3)); [|reflexivity].
  apply bind_ext. intros m1 n5.
  unfold adjust_weekday. now rewrite (weekday_loop_fuel _ fuel m1 Hfuel).
Qed.

Lemma bootstrap_fuel (fuel : nat) (n : node) :
  (6 <= fuel)%nat -> bootstrap E fuel n = bootstrap E 6 n.
Proof.
  intros Hfuel. unfold bootstrap.
  apply bind_ext. intros _ n1. apply bind_ext. intros n2 n3.
  destruct (suspended n2 || (indexOf_true (weekdays E) =? -1)); [reflexivity|].
  unfold resume, bind. rewrite (schedule_fuel fuel ON true n3 Hfuel).
  destruct (schedule E 6 ON true n3) as [[[]|e|] n4]; try reflexivity.
  now rewrite (schedule_fuel fuel OFF true n4 Hfuel).
Qed.

Lemma fire_fuel (fuel : nat) (h : nat) (n : node) :
  (6 <= fuel)%nat -> fire E fuel h n = fire E 6 h n.
Proof.
  intros Hfuel. unfold fire.
  apply bind_ext. intros n1 n2. destruct (timers n1 !! h) as [[ev d]|]; [|reflexivity].
  apply bind_ext. intros _ n3. unfold callback.
  apply bind_ext. intros _ n4. now apply schedule_fuel.
Qed.

Lemma on_input_fuel (fuel : nat) (msg : input) (n : node) :
  (6 <= fuel)%nat -> on_input E fuel msg n = on_input E 6 msg n.
Proof.
  intros Hfuel. unfold on_input.
  apply bind_ext. intros f n1.
  destruct (negb (handled f)); [reflexivity|].
  destruct (requiresBootstrap f); [now apply bootstrap_fuel | reflexivity].
Qed.

(** X13.  Six advances decide the weekday loop.  Whenever the loop ends
    it has made six advances at most, whatever the weekday array and the
    moment it starts from; from a valid moment that is still valid six
    days later it does end when one of the seven weekdays is enabled.  So
    a loop that has not ended after six advances never ends, and what
    [bootstrap], the input handler and a firing timer do is the same for
    every bound of six advances or more: a call that does not come back
    within six advances does not come back at all. *)
Theorem six_advances_decide (fuel : nat) :
  (6 <= fuel)%nat ->
  (forall (wd : list bool) (m : Z) (k : nat) (m' : Z),
      weekday_loop wd fuel m = Some (k, m') -> (k <= 6)%nat) /\
  (forall (wd : list bool) (m i : Z),
      0 <= i < 7 -> mask_at wd i = true ->
      Moment.isValid m = true -> Moment.isValid (Moment.add_days m 6) = true ->
      exists (k : nat) (m' : Z), weekday_loop wd fuel m = Some (k, m')) /\
  (forall (wd : list bool) (m : Z), weekday_loop wd fuel m = weekday_loop wd 6 m) /\
  (forall n : node, bootstrap E fuel n = bootstrap E 6 n) /\
  (forall (msg : input) (n : node), on_input E fuel msg n = on_input E 6 msg n) /\
  (forall (h : nat) (n : node), fire E fuel h n = fire E 6 h n).
Proof.
  intros Hfuel.
  split; [intros wd m k m' Hrun; now apply (weekday_loop_at_most_six wd fuel m k m')|].
  split.
  { intros wd m i Hi Hmask Hv Hv6.
    destruct (weekday_loop_six wd fuel m i Hi Hmask Hfuel Hv Hv6) as (k & m' & Hrun & _).
    now exists k, m'. }
  split; [intros wd m; now apply weekday_loop_fuel|].
  split; [intros n; now apply bootstrap_fuel|].
  split; [intros msg n; now apply on_input_fuel | intros h n; now apply fire_fuel].
Qed.

End Fuel.

Lemma six_advances_decide_witness :
  (6 <= 100)%nat /\
  weekday_loop mondays_only 100 (at_time (monday + Moment.MS_DAY) 8 0)
  = Some (6%nat, at_time (monday + 7 * Moment.MS_DAY) 8 0) /\
  on_input monday_7am_env 100 far_hour_input running_node
  = on_input monday_7am_env 6 far_hour_input running_node.
Proof.
  assert (H : (6 <= 100)%nat) by lia.
  destruct (six_advances_decide monday_7am_env 100 H) as (_ & _ & Hloop & _ & Hin & _).
  split; [exact H|]. split; [|apply Hin].
  rewrite Hloop. vm_compute. reflexivity.
Defined.

(** ** Without a weekday *)

Lemma ki_no_timer {A : Type} (c : M A) : keeps_proj timers c -> keeps_inv no_timer c.
Proof. intros Hc n Hn. unfold no_timer in *. now rewrite Hc. Qed.

Lemma ki_no_timer_clear (h : option nat) : keeps_inv no_timer (clearTimeout h).
Proof.
  destruct h as [i|]; [|apply ki_ret]. intros n Hn. unfold no_timer in *. cbn.
  rewrite Hn. apply delete_empty.
Qed.

Section NoHang.

Variable E : env.

(** With no weekday enabled, a node without timers stays without. *)
Lemma ki_no_timer_suspend : keeps_inv no_timer (suspend E).
Proof.
  unfold suspend.
  apply ki_bind; [apply ki_get | intros n].
  apply ki_bind; [apply ki_no_timer_clear | intros _].
  apply ki_bind; [apply ki_no_timer_clear | intros _].
  apply ki_no_timer. kp_leaf.
Qed.

Lemma ki_no_timer_send (ev : evname) (manual : bool) : keeps_inv no_timer (send E ev manual).
Proof. apply ki_no_timer. unfold send. repeat kp_step. Qed.

Lemma ki_no_timer_bootstrap (fuel : nat) :
  indexOf_true (weekdays E) = -1 -> keeps_inv no_timer (bootstrap E fuel).
Proof.
  intros Hidx. unfold bootstrap.
  apply ki_bind; [apply ki_no_timer; kp_leaf | intros _].
  apply ki_bind; [apply ki_get | intros n].
  rewrite Hidx. change (-1 =? -1) with true. rewrite orb_true_r. apply ki_no_timer_suspend.
Qed.

Lemma ki_no_timer_on_input (fuel : nat) (msg : input) :
  indexOf_true (weekdays E) = -1 -> keeps_inv no_timer (on_input E fuel msg).
Proof.
  intros Hidx. unfold on_input. apply ki_bind.
  - apply ki_no_timer.
    destruct msg as [s|o]; unfold send, update_suspended, eachProp, update_prop;
      repeat kp_step.
  - intros f. destruct (negb (handled f)); [apply ki_no_timer; kp_leaf|].
    destruct (requiresBootstrap f); [now apply ki_no_timer_bootstrap | apply ki_ret].
Qed.

Lemma ki_no_timer_fire (fuel : nat) (h : nat) : keeps_inv no_timer (fire E fuel h).
Proof.
  intros n Hn. unfold fire, bind, get. cbv beta iota.
  unfold no_timer in Hn. rewrite Hn, lookup_empty. exact Hn.
Qed.

(** X14.  With no weekday enabled nothing is ever scheduled: a node that
    has no timer pending has none after [bootstrap], after any message,
    after [suspend] and after the runtime tries to fire a timer, however
    these end. *)
Theorem no_weekday_no_timer (fuel : nat) (n : node) :
  indexOf_true (weekdays E) = -1 -> no_timer n ->
  no_timer (snd (bootstrap E fuel n)) /\
  (forall msg : input, no_timer (snd (on_input E fuel msg n))) /\
  (forall h : nat, no_timer (snd (fire E fuel h n))) /\
  no_timer (snd (suspend E n)).
Proof.
  intros Hidx Hn. split; [now apply ki_no_timer_bootstrap|].
  split; [intros msg; now apply ki_no_timer_on_input|].
  split; [intros h; now apply ki_no_timer_fire | now apply ki_no_timer_suspend].
Qed.

End NoHang.

Lemma no_weekday_no_timer_witness :
  indexOf_true (weekdays no_day_env) = -1 /\ no_timer fresh_node /\
  no_timer (snd (on_input no_day_env 7 (PayloadString "suspended false") fresh_node)).
Proof.
  destruct (no_weekday_no_timer no_day_env 7 fresh_node eq_refl eq_refl)
    as (_ & Hin & _).
  split; [reflexivity|]. split; [reflexivity | apply Hin].
Defined.

(** ** Firing *)

Section Firing.

Variable E : env.

Lemma send_keeps_config (ev : evname) (manual : bool) :
  keeps_proj node_config (send E ev manual).
Proof. unfold send. repeat kp_step. Qed.

Lemma send_keeps_events (ev ev' : evname) (manual : bool) :
  keeps_proj (events ev') (send E ev manual).
Proof. unfold send. repeat kp_step. Qed.

Lemma send_keeps_timer_state (ev : evname) (manual : bool) :
  keeps_proj timer_state (send E ev manual).
Proof. unfold send. repeat kp_step. Qed.

(** X15.  Firing a handle that is not pending does nothing at all.
    Firing a pending timer of a well-formed node takes it out of the
    table for good, emits the message of its event (topic and payload as
    configured) just once, and leaves the configuration and the whole
    inverse event as they were, however the callback ends. *)
Theorem fire_timer (fuel : nat) (h : nat) (n : node) :
  (timers n !! h = None -> fire E fuel h n = (Ret tt, n)) /\
  (forall (ev : evname) (d : Z),
      well_formed n -> timers n !! h = Some (ev, d) ->
      let n' := snd (fire E fuel h n) in
      timers n' !! h = None /\
      sent n' = Message (topic (events ev n)) (payload (events ev n)) :: sent n /\
      node_config n' = node_config n /\
      events (inverse ev) n' = events (inverse ev) n).
Proof.
  split.
  - intros Hnone. unfold fire, bind, get. cbv beta iota. now rewrite Hnone.
  - intros ev d [Hm Hf] Hpending. cbv zeta.
    pose proof (Hm h ev d Hpending) as Hheld.
    pose proof (Hf ev h Hheld) as Hlt.
    set (n0 := set_timers (delete h (timers n)) n).
    assert (Hev0 : forall ev', events ev' n0 = events ev' n) by (intros []; reflexivity).
    assert (Hfire : fire E fuel h n = callback E fuel ev n0).
    { unfold fire, bind at 1, get at 1. cbv beta iota. rewrite Hpending. reflexivity. }
    rewrite Hfire. unfold callback.
    pose proof (send_frame E ev false n0) as Hframe. cbv zeta in Hframe.
    pose proof (send_keeps_config ev false n0) as Hcfg.
    pose proof (send_keeps_events ev (inverse ev) false n0) as Hinv.
    pose proof (send_keeps_events ev ev false n0) as Hown.
    unfold bind.
    destruct (send E ev false n0) as [[[]|e|] n1]; cbn [fst snd] in *;
      destruct Hframe as (_ & _ & _ & Htm & Hh & Hsent).
    + pose proof (schedule_keeps_config E fuel ev false n1) as Hcfg2.
      pose proof (schedule_keeps_inverse E fuel ev false n1) as Hinv2.
      pose proof (schedule_keeps_sent E fuel ev false n1) as Hsent2.
      split; [|split; [|split]].
      * destruct (schedule_cases E fuel ev false n1)
          as [(m & _ & _ & Htm2 & _)|[_ Hsame]].
        -- rewrite Htm2, Hh. rewrite lookup_insert_ne by (cbn; lia).
           rewrite Hown, Hev0, Hheld, Htm. cbn.
           apply lookup_delete_eq.
        -- unfold timer_state in Hsame.
           assert (Ht : timers (snd (schedule E fuel ev false n1)) = timers n1) by congruence.
           rewrite Ht, Htm. apply lookup_delete_eq.
      * rewrite Hsent2, Hsent, !Hev0. reflexivity.
      * rewrite Hcfg2, Hcfg. reflexivity.
      * rewrite Hinv2, Hinv. apply Hev0.
    + split; [rewrite Htm; apply lookup_delete_eq|].
      split; [rewrite Hsent, !Hev0; reflexivity|].
      split; [rewrite Hcfg; reflexivity | rewrite Hinv; apply Hev0].
    + split; [rewrite Htm; apply lookup_delete_eq|].
      split; [rewrite Hsent, !Hev0; reflexivity|].
      split; [rewrite Hcfg; reflexivity | rewrite Hinv; apply Hev0].
Qed.

End Firing.

Lemma fire_timer_witness :
  well_formed running_node /\
  timers running_node !! 0%nat = Some (ON, Moment.MS_HOUR) /\
  timers (snd (fire monday_7am_env 7 0 running_node)) !! 0%nat = None /\
  sent (snd (fire monday_7am_env 7 0 running_node)) = [Message "lamp" "1"].
Proof.
  assert (H0 : timers running_node !! 0%nat = Some (ON, Moment.MS_HOUR))
    by (vm_compute; reflexivity).
  destruct (proj2 (fire_timer monday_7am_env 7 0 running_node) ON _
              running_node_well_formed H0) as (Hgone & Hsent & _).
  split; [exact running_node_well_formed|]. split; [exact H0|].
  split; [exact Hgone | exact Hsent].
Defined.

(** ** Messages *)

Section Messages.

Variable E : env.

Lemma send_run_suspended (ev : evname) (manual : bool) (n : node) :
  suspended n = true ->
  send E ev manual n =
    (Ret tt,
     set_statuses
       (Status (if manual then "blue" else "green") (shape ev)
          (name ev ++ (if manual then " manual" else " auto") ++ " - scheduling suspended")
        :: statuses n)
       (set_sent (Message (topic (events ev n)) (payload (events ev n)) :: sent n) n)).
Proof.
  intros Hs. unfold send, bind, get, node_send, node_status, modify. cbv beta iota.
  rewrite Hs. reflexivity.
Qed.

Lemma send_run_until (ev : evname) (manual : bool) (n : node) (m : Z) :
  suspended n = false -> moment (events (inverse ev) n) = Some m ->
  send E ev manual n =
    (Ret tt,
     set_statuses
       (Status (if manual then "blue" else "green") (shape ev)
          (name ev ++ (if manual then " manual" else " auto") ++ " until " ++ format E m)
        :: statuses n)
       (set_sent (Message (topic (events ev n)) (payload (events ev n)) :: sent n) n)).
Proof.
  intros Hs Hm. unfold send, bind, get, node_send, node_status, modify. cbv beta iota.
  rewrite Hs.
  replace (events (inverse ev)
             (set_sent (Message (topic (events ev n)) (payload (events ev n)) :: sent n) n))
    with (events (inverse ev) n) by (destruct ev; reflexivity).
  rewrite Hm. reflexivity.
Qed.

(** X16.  The payloads "on" and "off" fire the event by hand: whatever
    the state and however the call ends, the event's message is emitted
    once and the flag [suspended], both events (configuration, moments,
    handles), the timer table and the count of [bootstrap] calls are
    untouched; and unless the flag is off while the inverse event has no
    moment, the call returns and publishes the blue "manual" status, with
    the inverse event's moment when the node is not suspended. *)
Theorem manual_fire (fuel : nat) (ev : evname) (n : node) :
  let r := on_input E fuel (PayloadString (key ev)) n in
  (suspended (snd r) = suspended n /\ on (snd r) = on n /\ off (snd r) = off n /\
   timers (snd r) = timers n /\ handles (snd r) = handles n /\
   bootstraps (snd r) = bootstraps n /\
   sent (snd r) = Message (topic (events ev n)) (payload (events ev n)) :: sent n) /\
  (suspended n = true ->
   fst r = Ret tt /\
   statuses (snd r)
   = Status "blue" (shape ev) (name ev ++ " manual" ++ " - scheduling suspended") :: statuses n) /\
  (forall m : Z,
      suspended n = false -> moment (events (inverse ev) n) = Some m ->
      fst r = Ret tt /\
      statuses (snd r)
      = Status "blue" (shape ev) (name ev ++ " manual" ++ " until " ++ format E m) :: statuses n).
Proof.
  cbv zeta.
  assert (Hrun : on_input E fuel (PayloadString (key ev)) n
                 = (x <- send E ev true ;; ret tt) n).
  { unfold on_input. destruct ev; cbn [key String.eqb Ascii.eqb Bool.eqb];
      unfold bind; destruct (send E _ true n) as [[[]|e|] n1]; reflexivity. }
  split; [|split].
  - pose proof (manual_fire_frame E fuel ev n) as Hframe. cbv zeta in Hframe.
    destruct Hframe as (H1 & H2 & H3 & H4 & H5 & H6).
    repeat (split; [assumption|]). split; [|assumption].
    rewrite Hrun.
    apply (keeps_bind (send E ev true) (fun _ => ret tt));
      [apply keeps_send | intros a; apply keeps_ret].
  - intros Hs. rewrite Hrun. unfold bind.
    rewrite (send_run_suspended ev true n Hs). split; reflexivity.
  - intros m Hs Hm. rewrite Hrun. unfold bind.
    rewrite (send_run_until ev true n m Hs Hm). split; reflexivity.
Qed.

Lemma fold_apply_prop_absent (lookup : string -> option jsval)
    (l : list (evname * property)) :
  forall n : node,
    existsb (prop_present lookup) l = false -> fold_left (apply_prop lookup) l n = n.
Proof.
  induction l as [|ep l IH]; intros n Habs; [reflexivity|].
  cbn [existsb] in Habs. apply orb_false_iff in Habs. destruct Habs as [Hep Hl].
  cbn [fold_left].
  assert (Hn : apply_prop lookup n ep = n).
  { unfold apply_prop. unfold prop_present in Hep.
    destruct (lookup _); [discriminate | reflexivity]. }
  rewrite Hn. now apply IH.
Qed.

Lemma changes_absent (lookup : string -> option jsval) (n : node)
    (l : list (evname * property)) :
  existsb (prop_present lookup) l = false -> existsb (prop_changes lookup n) l = false.
Proof.
  intros Habs. destruct (existsb (prop_changes lookup n) l) eqn:Hch; [|reflexivity].
  rewrite (changes_are_present lookup n l Hch) in Habs. discriminate.
Qed.

(** X17.  A payload in which the handler finds neither [suspended] nor
    any of the ten properties (a text other than "on" and "off" without
    the word suspended in which none of the ten patterns matches; an
    object with none of the eleven keys and without a property
    hasOwnProperty of its own, which would make the handler throw) gets
    the red status "Unsupported input" and changes nothing else: the
    handler returns, no property is stored, [bootstrap] is not called and
    no timer is touched. *)
Theorem unsupported_input (fuel : nat) (msg : input) (n : node) :
  match msg with
  | PayloadString s =>
      String.eqb s "on" = false /\ String.eqb s "off" = false /\
      contains "suspended" s = false /\
      existsb (prop_present (fun prop => JString <$> exec_prop prop s)) all_props = false
  | PayloadObject o =>
      o !! "hasOwnProperty" = None /\ o !! "suspended" = None /\
      existsb (prop_present (fun prop => o !! prop)) all_props = false
  end ->
  on_input E fuel msg n =
    (Ret tt, set_statuses (Status "red" "dot" "Unsupported input" :: statuses n) n).
Proof.
  destruct msg as [s|o].
  - intros (Hon & Hoff & Hsus & Habs). unfold on_input.
    rewrite Hon, Hoff, Hsus, bind_assoc.
    rewrite (bind_run _ _ n n (Flags false false) eq_refl).
    unfold bind. rewrite eachProp_run, Habs.
    rewrite (fold_apply_prop_absent _ _ n Habs). reflexivity.
  - intros (Hown & Hsus & Habs). unfold on_input. rewrite Hown, Hsus, bind_assoc.
    rewrite (bind_run _ _ n n (Flags false false) eq_refl).
    unfold bind. rewrite eachProp_run, Habs.
    rewrite (fold_apply_prop_absent _ _ n Habs). reflexivity.
Qed.

End Messages.

Lemma manual_fire_witness :
  suspended running_node = false /\
  moment (events (inverse ON) running_node) = Some (at_time monday 20 0 + 123) /\
  fst (on_input monday_7am_env 7 (PayloadString (key ON)) running_node) = Ret tt /\
  timers (snd (on_input monday_7am_env 7 (PayloadString (key ON)) running_node))
  = timers running_node.
Proof.
  assert (Hm : moment (events (inverse ON) running_node) = Some (at_time monday 20 0 + 123))
    by (vm_compute; reflexivity).
  destruct (manual_fire monday_7am_env 7 ON running_node) as (Hframe & _ & Hstatus).
  destruct (Hstatus _ eq_refl Hm) as [Hret _].
  destruct Hframe as (_ & _ & _ & Htm & _).
  split; [reflexivity|]. split; [exact Hm|]. split; [exact Hret | exact Htm].
Defined.

Lemma unsupported_input_witness :
  on_input monday_7am_env 7 (PayloadObject ∅) running_node =
    (Ret tt,
     set_statuses (Status "red" "dot" "Unsupported input" :: statuses running_node)
       running_node) /\
  on_input monday_7am_env 7 (PayloadString "hello world") running_node =
    (Ret tt,
     set_statuses (Status "red" "dot" "Unsupported input" :: statuses running_node)
       running_node).
Proof.
  split.
  - apply (unsupported_input monday_7am_env 7 (PayloadObject ∅) running_node).
    repeat split; reflexivity.
  - apply (unsupported_input monday_7am_env 7 (PayloadString "hello world") running_node).
    repeat split; reflexivity.
Defined.

(** ** What a message stores *)

Lemma config_get_prop (a b : node) (ev : evname) (p : property) :
  node_config a = node_config b -> get_prop p (events ev a) = get_prop p (events ev b).
Proof.
  unfold node_config, event_config. intros H.
  destruct ev, p; simpl; congruence.
Qed.

Lemma config_suspended (a b : node) : node_config a = node_config b -> suspended a = suspended b.
Proof. unfold node_config. congruence. Qed.

Lemma apply_prop_own (lookup : string -> option jsval) (n : node) (ev : evname) (p : property) :
  get_prop p (events ev (apply_prop lookup n (ev, p)))
  = match lookup (key ev ++ msgProperty p) with
    | Some raw => typeConstructor p raw
    | None => get_prop p (events ev n)
    end.
Proof.
  unfold apply_prop. cbn [fst snd].
  destruct (lookup (key ev ++ msgProperty p)) as [raw|]; [|reflexivity].
  destruct ev, p; reflexivity.
Qed.

Lemma apply_prop_other (lookup : string -> option jsval) (n : node)
    (ev ev' : evname) (p p' : property) :
  (ev, p) <> (ev', p') ->
  get_prop p (events ev (apply_prop lookup n (ev', p'))) = get_prop p (events ev n).
Proof. intros Hne. exact (events_apply_prop_other lookup n (ev, p) (ev', p') Hne). Qed.

Lemma fold_apply_prop_outside (lookup : string -> option jsval) (ev : evname) (p : property)
    (l : list (evname * property)) :
  forall n : node,
    (ev, p) ∉ l ->
    get_prop p (events ev (fold_left (apply_prop lookup) l n)) = get_prop p (events ev n).
Proof.
  induction l as [|[ev' p'] l IH]; intros n Hout; [reflexivity|].
  cbn [fold_left]. apply not_elem_of_cons in Hout. destruct Hout as [Hne Hout].
  rewrite IH by exact Hout. now apply apply_prop_other.
Qed.

Lemma fold_apply_prop_inside (lookup : string -> option jsval) (ev : evname) (p : property)
    (l : list (evname * property)) :
  NoDup l ->
  forall n : node,
    (ev, p) ∈ l ->
    get_prop p (events ev (fold_left (apply_prop lookup) l n))
    = match lookup (key ev ++ msgProperty p) with
      | Some raw => typeConstructor p raw
      | None => get_prop p (events ev n)
      end.
Proof.
  induction 1 as [|[ev' p'] l Hnotin Hnodup IH]; intros n Hin.
  - apply elem_of_nil in Hin. destruct Hin.
  - cbn [fold_left]. apply elem_of_cons in Hin. destruct Hin as [Heq|Hin].
    + inversion Heq; subst. rewrite fold_apply_prop_outside by exact Hnotin.
      apply apply_prop_own.
    + rewrite IH by exact Hin.
      assert (Hne : (ev, p) <> (ev', p')) by (intros Heq; rewrite Heq in Hin; contradiction).
      destruct (lookup (key ev ++ msgProperty p)); [reflexivity|].
      now apply apply_prop_other.
Qed.

Lemma all_props_NoDup : NoDup all_props.
Proof.
  unfold all_props.
  repeat (apply NoDup_cons; split;
          [rewrite ?elem_of_cons, elem_of_nil; intuition discriminate|]).
  apply NoDup_nil. exact I.
Qed.

Lemma all_props_complete (ev : evname) (p : property) : (ev, p) ∈ all_props.
Proof. unfold all_props. destruct ev, p; rewrite ?elem_of_cons; auto 12. Qed.

Section Stored.

Variable E : env.

Lemma suspend_keeps_config : keeps_proj node_config (suspend E).
Proof. unfold suspend. repeat kp_step. Qed.

Lemma resume_keeps_config (fuel : nat) : keeps_proj node_config (resume E fuel).
Proof.
  unfold resume.
  apply kp_bind; [apply schedule_keeps_config | intros _].
  apply kp_bind; [apply schedule_keeps_config | intros _].
  repeat kp_step.
Qed.

Lemma bootstrap_keeps_config (fuel : nat) : keeps_proj node_config (bootstrap E fuel).
Proof.
  unfold bootstrap.
  apply kp_bind; [kp_leaf | intros _].
  apply kp_bind; [apply kp_get | intros n].
  destruct (suspended n || (indexOf_true (weekdays E) =? -1));
    [apply suspend_keeps_config | apply resume_keeps_config].
Qed.

Lemma input_tail_config (fuel : nat) (lookup : string -> option jsval) (f : flags) (n : node) :
  node_config
    (snd ((f' <- eachProp (update_prop lookup) f ;;
           if negb (handled f') then node_status (Status "red" "dot" "Unsupported input")
           else if requiresBootstrap f' then bootstrap E fuel
           else ret tt) n))
  = node_config (fold_left (apply_prop lookup) all_props n).
Proof.
  unfold bind at 1. rewrite eachProp_run. cbn [handled requiresBootstrap].
  destruct (negb _); [reflexivity|].
  destruct (_ || _); [apply bootstrap_keeps_config | reflexivity].
Qed.

Lemma object_input_config (fuel : nat) (o : gmap string jsval) (n : node) :
  o !! "hasOwnProperty" = None ->
  node_config (snd (on_input E fuel (PayloadObject o) n))
  = node_config
      (fold_left (apply_prop (fun prop => o !! prop)) all_props
         (match o !! "suspended" with
          | Some v => set_suspended (truthy v) n
          | None => n
          end)).
Proof.
  intros Hown. unfold on_input. rewrite Hown, bind_assoc.
  destruct (o !! "suspended") as [v|].
  - rewrite (bind_run _ _ _ _ _ (update_suspended_run (truthy v) _ n)).
    apply input_tail_config.
  - rewrite (bind_run _ _ n n (Flags false false) eq_refl).
    apply input_tail_config.
Qed.

Lemma object_input_props (fuel : nat) (o : gmap string jsval) (n : node)
    (ev : evname) (p : property) :
  o !! "hasOwnProperty" = None ->
  get_prop p (events ev (snd (on_input E fuel (PayloadObject o) n)))
  = match o !! (key ev ++ msgProperty p) with
    | Some raw => typeConstructor p raw
    | None => get_prop p (events ev n)
    end.
Proof.
  intros Hown. pose proof (object_input_config fuel o n Hown) as Hcfg.
  rewrite (config_get_prop _ _ ev p Hcfg).
  rewrite (fold_apply_prop_inside _ ev p all_props all_props_NoDup)
    by apply all_props_complete.
  destruct (o !! (key ev ++ msgProperty p)); [reflexivity|].
  destruct (o !! "suspended"); destruct ev; reflexivity.
Qed.

Lemma object_input_flag (fuel : nat) (o : gmap string jsval) (n : node) :
  o !! "hasOwnProperty" = None ->
  suspended (snd (on_input E fuel (PayloadObject o) n))
  = match o !! "suspended" with
    | Some v => truthy v
    | None => suspended n
    end.
Proof.
  intros Hown. pose proof (object_input_config fuel o n Hown) as Hcfg.
  rewrite (config_suspended _ _ Hcfg).
  destruct (fold_apply_prop_frame (fun prop => o !! prop) all_props
              (match o !! "suspended" with
               | Some v => set_suspended (truthy v) n
               | None => n
               end)) as [_ Hs].
  rewrite Hs. destruct (o !! "suspended"); reflexivity.
Qed.

(** X18.  An object payload that has no property hasOwnProperty of its
    own, and whose values are of the kinds the embedding converts exactly,
    is stored property by property: after the handler, however it ends,
    each of the ten properties for which the object has a value holds
    that value passed through the property's constructor ([String],
    [Number], [toBoolean]), every other property is as before, and the
    flag [suspended] is the truthiness of the object's value, or as
    before when the object has none.  An object with a property
    hasOwnProperty of its own makes the handler throw at once: nothing is
    stored. *)
Theorem object_input_stored (fuel : nat) (o : gmap string jsval) (n : node) :
  (o !! "hasOwnProperty" = None -> exact_object o ->
   let n' := snd (on_input E fuel (PayloadObject o) n) in
   (forall (ev : evname) (p : property),
       get_prop p (events ev n')
       = match o !! (key ev ++ msgProperty p) with
         | Some raw => typeConstructor p raw
         | None => get_prop p (events ev n)
         end) /\
   suspended n' = match o !! "suspended" with
                  | Some v => truthy v
                  | None => suspended n
                  end) /\
  (forall v : jsval,
      o !! "hasOwnProperty" = Some v ->
      on_input E fuel (PayloadObject o) n = (Throw TypeError, n)).
Proof.
  split.
  - intros Hown _. cbv zeta. split.
    + intros ev p. now apply object_input_props.
    + now apply object_input_flag.
  - intros v Hown. now apply (object_input_throws E fuel o n v).
Qed.

End Stored.

Lemma strict_neq_same (v : value) :
  (forall x, v = VNumber x -> x <> NaN) -> strict_neq v v = false.
Proof.
  intros Hnum. destruct v as [s|[z|]|b]; simpl.
  - now rewrite String.eqb_refl.
  - now rewrite Z.eqb_refl.
  - destruct (Hnum NaN eq_refl eq_refl).
  - now destruct b.
Qed.

Section Rebootstrap.

Variable E : env.

(** X19.  For an object payload that has no property hasOwnProperty of
    its own, and whose values are of the kinds the embedding converts
    exactly, the handler calls [bootstrap] exactly once when the flag
    [suspended] or one of the ten properties gets a value that differs
    ([!==]) from the one the node has, and not at all when every value
    the object holds is the one already there. *)
Theorem object_input_rebootstrap (fuel : nat) (o : gmap string jsval) (n : node) :
  o !! "hasOwnProperty" = None -> exact_object o ->
  (object_changes o n = true ->
   bootstraps (snd (on_input E fuel (PayloadObject o) n)) = S (bootstraps n)) /\
  (object_changes o n = false ->
   bootstraps (snd (on_input E fuel (PayloadObject o) n)) = bootstraps n).
Proof.
  intros Hown _.
  pose proof (object_input_bootstraps E fuel o n Hown) as Hcount.
  split; intros Hch; rewrite Hch in Hcount; rewrite Hcount.
  - apply Nat.add_1_r.
  - apply Nat.add_0_r.
Qed.

Lemma object_changes_config (o : gmap string jsval) (a b : node) :
  node_config a = node_config b -> object_changes o a = object_changes o b.
Proof.
  intros Hcfg. unfold object_changes.
  rewrite (config_suspended a b Hcfg). f_equal.
  induction all_props as [|[ev p] l IH]; [reflexivity|].
  cbn [existsb]. rewrite IH. f_equal.
  unfold prop_changes. cbn [fst snd].
  now rewrite (config_get_prop a b ev p Hcfg).
Qed.

(** Once an object payload is stored, it changes nothing any more. *)
Lemma object_stored_no_change (fuel : nat) (o : gmap string jsval) (n : node) :
  o !! "hasOwnProperty" = None ->
  offsets_are_numbers o ->
  object_changes o (snd (on_input E fuel (PayloadObject o) n)) = false.
Proof.
  intros Hown Hnum.
  pose proof (fun ev p => object_input_props E fuel o n ev p Hown) as Hprops.
  pose proof (object_input_flag E fuel o n Hown) as Hsusp.
  set (n1 := snd (on_input E fuel (PayloadObject o) n)) in *.
  unfold object_changes. apply orb_false_iff. split.
  - rewrite Hsusp. destruct (o !! "suspended") as [v|]; [|reflexivity].
    now destruct (truthy v).
  - assert (Hall : forall ep, prop_changes (fun prop => o !! prop) n1 ep = false).
    { intros [ev p]. unfold prop_changes. cbn [fst snd]. rewrite Hprops.
      destruct (o !! (key ev ++ msgProperty p)) as [raw|] eqn:Hraw; [|reflexivity].
      apply strict_neq_same. intros x Hx. destruct p; try discriminate.
      cbn in Hx. inversion Hx; subst. exact (Hnum ev raw Hraw). }
    induction all_props as [|ep l IH]; [reflexivity|].
    cbn [existsb]. now rewrite Hall, IH.
Qed.

(** X20.  Reconfiguration is idempotent: when the same object payload
    arrives a second time (no offset in it being [NaN]), the handler finds
    every value already in place and does not call [bootstrap] again. *)
Theorem object_input_twice (fuel fuel' : nat) (o : gmap string jsval) (n : node) :
  offsets_are_numbers o ->
  let n1 := snd (on_input E fuel (PayloadObject o) n) in
  bootstraps (snd (on_input E fuel' (PayloadObject o) n1)) = bootstraps n1.
Proof.
  intros Hnum. cbv zeta.
  destruct (o !! "hasOwnProperty") as [v|] eqn:Hown.
  - now rewrite (object_input_throws E fuel' o _ v Hown).
  - rewrite (object_input_bootstraps E fuel' o _ Hown).
    rewrite (object_stored_no_change fuel o n Hown Hnum). apply Nat.add_0_r.
Qed.

End Rebootstrap.

(** A check of [exact_object] on a given object. *)
Ltac exact_object_by_cases :=
  intros ev p raw Hraw; destruct ev, p; vm_compute in Hraw;
  first [discriminate | inversion Hraw; subst; reflexivity].

Lemma ontime_object_exact : exact_object {[ "ontime" := JString "08:00" ]}.
Proof. exact_object_by_cases. Qed.

Lemma object_input_stored_witness :
  get_prop P_time
    (events ON (snd (on_input monday_7am_env 7
                       (PayloadObject {[ "ontime" := JString "08:00" ]}) fresh_node)))
  = VString "08:00" /\
  on_input monday_7am_env 7 (PayloadObject {[ "hasOwnProperty" := JNumber (Num 1) ]})
    running_node
  = (Throw TypeError, running_node).
Proof.
  destruct (object_input_stored monday_7am_env 7 {[ "ontime" := JString "08:00" ]}
              fresh_node) as [Hstore _].
  destruct (Hstore eq_refl ontime_object_exact) as [Hprops _].
  split; [exact (Hprops ON P_time)|].
  exact (proj2 (object_input_stored monday_7am_env 7
                  {[ "hasOwnProperty" := JNumber (Num 1) ]} running_node)
           (JNumber (Num 1)) eq_refl).
Defined.

Lemma object_input_rebootstrap_witness :
  object_changes {[ "ontime" := JString "08:00" ]} running_node = false /\
  bootstraps (snd (on_input monday_7am_env 7
                     (PayloadObject {[ "ontime" := JString "08:00" ]}) running_node))
  = bootstraps running_node.
Proof.
  assert (Hsame : object_changes {[ "ontime" := JString "08:00" ]} running_node = false)
    by (vm_compute; reflexivity).
  split; [exact Hsame|].
  exact (proj2 (object_input_rebootstrap monday_7am_env 7
                  {[ "ontime" := JString "08:00" ]} running_node
                  eq_refl ontime_object_exact) Hsame).
Defined.

Lemma topic_object_offsets : offsets_are_numbers {[ "onoffset" := JString "15" ]}.
Proof.
  intros ev raw Hraw.
  destruct ev; cbn in Hraw.
  - rewrite lookup_singleton_eq in Hraw. inversion Hraw. discriminate.
  - rewrite lookup_singleton_ne in Hraw by discriminate. discriminate.
Qed.

Lemma object_input_twice_witness :
  offsets_are_numbers {[ "onoffset" := JString "15" ]} /\
  bootstraps (snd (on_input monday_7am_env 7 (PayloadObject {[ "onoffset" := JString "15" ]})
                     (snd (on_input monday_7am_env 7
                             (PayloadObject {[ "onoffset" := JString "15" ]})
                             running_node))))
  = bootstraps (snd (on_input monday_7am_env 7
                       (PayloadObject {[ "onoffset" := JString "15" ]}) running_node)).
Proof.
  split; [exact topic_object_offsets|].
  exact (object_input_twice monday_7am_env 7 7 _ running_node topic_object_offsets).
Defined.

(** A [NaN] offset is different from itself: the same payload triggers
    [bootstrap] each time it arrives. *)
Example nan_offset_rebootstraps :
  let msg := PayloadObject {[ "onoffset" := JString "soon" ]} in
  let n1 := snd (on_input monday_7am_env 7 msg running_node) in
  offset (on n1) = NaN /\
  bootstraps (snd (on_input monday_7am_env 7 msg n1)) = S (bootstraps n1).
Proof. cbv zeta. split; vm_compute; reflexivity. Qed.

(** ** Clock times, armed *)

Lemma fields_add_days (m k : Z) :
  Moment.get_hour (Moment.add_days m k) = Moment.get_hour m /\
  Moment.get_minute (Moment.add_days m k) = Moment.get_minute m /\
  Moment.get_second (Moment.add_days m k) = Moment.get_second m /\
  Moment.get_millisecond (Moment.add_days m k) = Moment.get_millisecond m.
Proof.
  unfold Moment.get_hour, Moment.get_minute, Moment.get_second, Moment.get_millisecond,
    Moment.add_days, Moment.MS_DAY, Moment.MS_HOUR, Moment.MS_MINUTE, Moment.MS_SECOND.
  replace (m + k * 86400000) with (m + (k * 24) * 3600000) at 2 by lia.
  replace (m + k * 86400000) with (m + (k * 1440) * 60000) at 2 by lia.
  replace (m + k * 86400000) with (m + (k * 86400) * 1000) at 2 by lia.
  rewrite !Z_mod_plus_full. auto.
Qed.

Section ClockArmed.

Variable E : env.

Lemma apply_offset_none (e : event) (m : Z) (n : node) :
  offset e = Num 0 \/ offset e = NaN -> apply_offset E e m n = (Ret m, n).
Proof. unfold apply_offset. intros [-> | ->]; reflexivity. Qed.

(** X21.  An event whose time is a clock time "H:M" within range and
    that has no offset is always armed for that time of day, to the
    second: when a weekday is enabled and the clock does not run
    backwards between the two readings, [schedule] returns, the moment it
    stores has hour H, minute M and second 0, and the delay of the timer
    it arms is not negative. *)
Theorem clock_time_armed (fuel : nat) (ev : evname) (isInitial : bool) (n : node)
    (h mi i : Z) :
  spec_clock (time (events ev n)) = Some (h, mi) ->
  offset (events ev n) = Num 0 \/ offset (events ev n) = NaN ->
  0 <= i < 7 -> mask_at (weekdays E) i = true -> (6 <= fuel)%nat ->
  clock E (reads n) <= clock E (S (reads n)) ->
  exists (n' : node) (m : Z) (hd : nat),
    schedule E fuel ev isInitial n = (Ret tt, n') /\
    moment (events ev n') = Some m /\
    Moment.get_hour m = h /\ Moment.get_minute m = mi /\ Moment.get_second m = 0 /\
    timeout (events ev n') = Some hd /\
    timers n' !! hd = Some (ev, m - clock E (reads n)) /\
    0 <= m - clock E (reads n).
Proof.
  intros Hspec Hoff Hi Hmask Hfuel Hclock.
  destruct (spec_clock_exec _ h mi Hspec) as (Hexec & Hh & Hmi).
  destruct (clock_time_day E (S (reads n)) h mi Hh Hmi) as (Hct & Hrange).
  set (now := clock E (reads n)) in *. set (fresh := clock E (S (reads n))) in *.
  set (n0 := set_reads (S (reads n)) n).
  assert (Hexec0 : exec_clock (time (events ev n0)) = Some (h, mi))
    by (destruct ev; exact Hexec).
  pose proof (resolve_clock E ev n0 h mi Hexec0) as Hres.
  set (n1 := set_event ev
               (set_moment (Some (clock_time (clock E (reads n0)) h mi))
                  (events ev (set_reads (S (reads n0)) n0)))
               (set_reads (S (reads n0)) n0)) in *.
  set (m0 := Moment.minute (Moment.hour fresh h) mi).
  assert (Hm0 : moment (events ev n1) = Some m0)
    by (unfold m0; rewrite <- Hct; destruct ev; reflexivity).
  fold m0 in Hct. rewrite Hct in Hrange.
  assert (Hv0 : Moment.isValid m0 = true)
    by (apply isValid_range; unfold Moment.MS_DAY in Hrange; lia).
  assert (Hoff1 : offset (events ev n1) = Num 0 \/ offset (events ev n1) = NaN)
    by (destruct ev; exact Hoff).
  assert (Hadj : offset_moment E (events ev n1) m0 n1 = (Ret (Moment.seconds m0 0), n1)).
  { unfold offset_moment. rewrite Hv0. now apply apply_offset_none. }
  pose proof (seconds_near m0) as Hsec0.
  assert (Hv1 : Moment.isValid (Moment.seconds m0 0) = true) by now apply seconds_valid.
  assert (Hv6 : Moment.isValid (Moment.add_days (Moment.seconds m0 0) 6) = true).
  { apply isValid_range. unfold Moment.add_days, Moment.MS_DAY, Moment.MS_MINUTE in *. lia. }
  destruct (weekday_loop_six (weekdays E) fuel (Moment.seconds m0 0) i Hi Hmask Hfuel
              Hv1 Hv6) as (k & c & Hloop & Hk & Hc & _).
  destruct (schedule_armed E fuel ev isInitial n n1 n1 m0 (Moment.seconds m0 0) c k
              Hres Hm0 Hadj Hloop) as (n' & Hrun & Hmom & Hto & Htm & _).
  cbv zeta in Hmom, Htm. fold now in Hmom, Htm.
  destruct (clock_moment_fields fresh h mi Hh Hmi) as (Hday & Hhour & Hmin & Hsec & _).
  cbv zeta in Hday, Hhour, Hmin, Hsec. fold m0 in Hday, Hhour, Hmin, Hsec.
  destruct (fields_add_days (Moment.seconds m0 0) (Z.of_nat k)) as (Fh & Fm & Fs & _).
  rewrite <- Hc in Fh, Fm, Fs.
  destruct (fields_add_days c 1) as (Gh & Gm & Gs & _).
  assert (Hge : fresh - Moment.MS_DAY < c).
  { assert (Moment.startOfDay fresh <= Moment.seconds m0 0).
    { unfold m0. rewrite clock_moment.
      unfold Moment.get_millisecond, Moment.MS_HOUR, Moment.MS_MINUTE, Moment.MS_SECOND.
      pose proof (Z.mod_pos_bound fresh 1000 ltac:(lia)). lia. }
    assert (fresh - Moment.MS_DAY < Moment.startOfDay fresh).
    { unfold Moment.startOfDay, Moment.MS_DAY. Z.div_mod_to_equations. lia. }
    rewrite Hc. unfold Moment.add_days, Moment.MS_DAY in *. lia. }
  assert (Hvalid : Moment.isValid (rollover isInitial now c) = true).
  { apply isValid_range. pose proof (rollover_near isInitial now c) as Hroll.
    rewrite Hc in *. unfold Moment.add_days, Moment.MS_DAY, Moment.MS_MINUTE in *. lia. }
  exists n', (rollover isInitial now c), (handles n1).
  split; [exact Hrun|]. split; [exact Hmom|].
  assert (Hfields : Moment.get_hour (rollover isInitial now c) = h /\
                    Moment.get_minute (rollover isInitial now c) = mi /\
                    Moment.get_second (rollover isInitial now c) = 0).
  { unfold rollover. destruct (negb isInitial || isInitial && Moment.isAfter now c).
    - rewrite Gh, Gm, Gs, Fh, Fm, Fs. auto.
    - rewrite Fh, Fm, Fs. auto. }
  destruct Hfields as (Rh & Rm & Rs).
  split; [exact Rh|]. split; [exact Rm|]. split; [exact Rs|].
  split; [exact Hto|].
  split; [rewrite Htm, lookup_insert_eq; unfold delay_of; now rewrite Hvalid|].
  clear Hvalid Hv6 Hv1 Hv0 Hrange.
  unfold rollover, Moment.isAfter, Moment.add_days, Moment.MS_DAY in *.
  destruct isInitial; cbn [negb orb andb]; [destruct (Z.ltb_spec c now)|]; lia.
Qed.

End ClockArmed.

Lemma clock_time_armed_witness :
  spec_clock (time (events ON fresh_node)) = Some (8, 0) /\
  exists (n' : node) (m : Z) (hd : nat),
    schedule monday_9am_env 7 ON true fresh_node = (Ret tt, n') /\
    moment (events ON n') = Some m /\
    Moment.get_hour m = 8 /\ Moment.get_minute m = 0 /\ Moment.get_second m = 0 /\
    timeout (events ON n') = Some hd /\
    timers n' !! hd = Some (ON, m - clock monday_9am_env (reads fresh_node)) /\
    0 <= m - clock monday_9am_env (reads fresh_node).
Proof.
  assert (H1 : 0 <= 1 < 7) by lia.
  assert (H6 : (6 <= 7)%nat) by lia.
  assert (Hclock : clock monday_9am_env (reads fresh_node)
                   <= clock monday_9am_env (S (reads fresh_node))) by (cbn; lia).
  split; [reflexivity|].
  exact (clock_time_armed monday_9am_env 7 ON true fresh_node 8 0 1
           eq_refl (or_introl eq_refl) H1 eq_refl H6 Hclock).
Defined.

(** ** Construction *)

Lemma mapKeys_keeps (f : string -> string) (k : string) (v : jsval) (l : config_t) :
  forall m0 : gmap string slot,
    m0 !! k = Some (Data v) ->
    (forall key' v', In (key', v') l -> f key' = k -> v' = v) ->
    fold_left (fun (m : gmap string slot) kv => <[f (fst kv) := Data (snd kv)]> m) l m0
    !! k = Some (Data v).
Proof.
  induction l as [|[key' v'] l IH]; intros m0 Hm0 Hagree; [exact Hm0|].
  cbn [fold_left fst snd]. apply IH.
  - destruct (decide (f key' = k)) as [Heq|Hne].
    + rewrite Heq, lookup_insert_eq. do 2 f_equal.
      apply (Hagree key' v'); [now left | exact Heq].
    + now rewrite lookup_insert_ne.
  - intros key'' v'' Hin. apply Hagree. now right.
Qed.

Lemma mapKeys_complete (f : string -> string) (ck : string) (v : jsval) (l : config_t) :
  forall m0 : gmap string slot,
    In (ck, v) l ->
    (forall key' v', In (key', v') l -> f key' = f ck -> v' = v) ->
    fold_left (fun (m : gmap string slot) kv => <[f (fst kv) := Data (snd kv)]> m) l m0
    !! f ck = Some (Data v).
Proof.
  induction l as [|[key' v'] l IH]; intros m0 Hin Hagree; [destruct Hin|].
  cbn [fold_left fst snd]. destruct Hin as [Heq|Hin].
  - inversion Heq; subst. apply mapKeys_keeps; [apply lookup_insert_eq|].
    intros key'' v'' Hin'. apply Hagree. now right.
  - apply IH; [exact Hin|]. intros key'' v'' Hin'. apply Hagree. now right.
Qed.

Lemma mapKeys_sound (f : string -> string) (k : string) (s : slot) (l : config_t) :
  forall m0 : gmap string slot,
    fold_left (fun (m : gmap string slot) kv => <[f (fst kv) := Data (snd kv)]> m) l m0
    !! k = Some s ->
    m0 !! k = Some s \/ exists ck v, s = Data v /\ In (ck, v) l /\ f ck = k.
Proof.
  induction l as [|[key' v'] l IH]; intros m0 Hl; [now left|].
  cbn [fold_left fst snd] in Hl. destruct (IH _ Hl) as [Hm|(ck & v & Hs & Hin & Hk)].
  - destruct (decide (f key' = k)) as [Heq|Hne].
    + rewrite Heq, lookup_insert_eq in Hm. inversion Hm; subst.
      right. exists key', v'. split; [reflexivity|]. split; [now left | reflexivity].
    + rewrite lookup_insert_ne in Hm by exact Hne. now left.
  - right. exists ck, v. split; [exact Hs|]. split; [now right | exact Hk].
Qed.

(** X22.  The event object [setupEvent] builds has the event's name in
    upper case as [name], its shape as [shape] and the function as
    [callback], whatever the config holds; each other property of it
    comes from a config property whose key begins with the event name,
    under the rest of that key in lower case; and such a config property
    does show up under that name with its value, provided the name is
    none of the three and no other picked key with a different value maps
    to the same name. *)
Theorem setupEvent_properties (config : config_t) (ev : evname) :
  let event := setupEvent config ev in
  event !! "name" = Some (Data (JString (name ev))) /\
  event !! "shape" = Some (Data (JString (shape ev))) /\
  event !! "callback" = Some Callback /\
  (forall (k : string) (s : slot),
      k <> "name" -> k <> "shape" -> k <> "callback" -> event !! k = Some s ->
      exists (ck : string) (v : jsval),
        s = Data v /\ In (ck, v) config /\ picked (key ev) (ck, v) = true /\
        mapped_key (key ev) ck = k) /\
  (forall (ck : string) (v : jsval),
      In (ck, v) config -> picked (key ev) (ck, v) = true ->
      mapped_key (key ev) ck <> "name" -> mapped_key (key ev) ck <> "shape" ->
      mapped_key (key ev) ck <> "callback" ->
      (forall ck' v',
          In (ck', v') config -> picked (key ev) (ck', v') = true ->
          mapped_key (key ev) ck' = mapped_key (key ev) ck -> v' = v) ->
      event !! mapped_key (key ev) ck = Some (Data v)).
Proof.
  cbv zeta. unfold setupEvent, mapKeys.
  split.
  { rewrite !lookup_insert_ne by discriminate. rewrite lookup_insert_eq.
    destruct ev; reflexivity. }
  split; [rewrite lookup_insert_ne by discriminate; apply lookup_insert_eq|].
  split; [apply lookup_insert_eq|]. split.
  - intros k s Hname Hshape Hcb Hk.
    rewrite !lookup_insert_ne in Hk by congruence.
    destruct (mapKeys_sound _ _ _ _ _ Hk) as [Hempty|(ck & v & Hs & Hin & Hkey)].
    + rewrite lookup_empty in Hempty. discriminate.
    + apply filter_In in Hin. destruct Hin as [Hin Hpick].
      exists ck, v. auto.
  - intros ck v Hin Hpick Hname Hshape Hcb Hagree.
    rewrite !lookup_insert_ne by congruence.
    apply mapKeys_complete.
    + apply filter_In. auto.
    + intros ck' v' Hin' Hsame. apply filter_In in Hin'. destruct Hin' as [Hin' Hpick'].
      now apply (Hagree ck' v').
Qed.

Lemma setupEvent_properties_witness :
  In ("onTopic", JString "lamp") sample_config /\
  setupEvent sample_config ON !! "topic" = Some (Data (JString "lamp")) /\
  setupEvent sample_config ON !! "name" = Some (Data (JString "ON")) /\
  setupEvent [("oncallback", JString "x")] ON !! "callback" = Some Callback.
Proof.
  assert (Hin : In ("onTopic", JString "lamp") sample_config)
    by (unfold sample_config; simpl; auto).
  destruct (setupEvent_properties sample_config ON) as (Hname & _ & _ & _ & Hget).
  destruct (setupEvent_properties [("oncallback", JString "x")] ON)
    as (_ & _ & Hcb & _).
  split; [exact Hin|]. split; [|split; [exact Hname | exact Hcb]].
  apply (Hget "onTopic" (JString "lamp") Hin); try reflexivity; try discriminate.
  intros ck' v' Hin' Hpick' Hsame.
  unfold sample_config in Hin'. simpl in Hin'.
  repeat (destruct Hin' as [Heq|Hin']; [inversion Heq; subst; try reflexivity; discriminate|]).
  destruct Hin'.
Defined.

Lemma indexOf_js_true_found (l : list jsval) :
  indexOf_js_true l <> -1 ->
  exists i : nat, (i < length l)%nat /\ l !! i = Some (JBool true).
Proof.
  induction l as [|v l IH]; [intros H; now destruct H|].
  intros Hidx.
  assert (Hcases : v = JBool true \/
                   indexOf_js_true (v :: l)
                   = (let i := indexOf_js_true l in if i =? -1 then -1 else i + 1))
    by (destruct v as [| |[]| |]; auto).
  destruct Hcases as [->|Hstep].
  - exists O. split; [simpl; lia | reflexivity].
  - assert (Hrec : indexOf_js_true l <> -1).
    { intros Heq. apply Hidx. rewrite Hstep. cbv zeta. now rewrite Heq. }
    destruct (IH Hrec) as (i & Hi & Hl). exists (S i). split; [simpl; lia | exact Hl].
Qed.

Lemma indexOf_js_true_agrees (l : list jsval) :
  Forall (fun v => is_nullish v = true \/ exists b, v = JBool b) l ->
  indexOf_js_true l = indexOf_true (map truthy l).
Proof.
  induction 1 as [|v l Hv _ IH]; [reflexivity|].
  destruct Hv as [Hnull|[b ->]].
  - destruct v; try discriminate; cbn; now rewrite IH.
  - destruct b; cbn; [reflexivity | now rewrite IH].
Qed.

(** X24.  The test of [bootstrap] and the weekday loop look at the array
    in different ways, strict equality with [true] against truthiness.
    Whenever [indexOf(true)] finds an entry, that entry is enabled for the
    loop too, so the loop of a resumed node has a day to stop on; and on
    an array of booleans and undefined values both views agree. *)
Theorem weekday_views_agree (l : list jsval) :
  (indexOf_js_true l <> -1 ->
   exists i : Z, 0 <= i < Z.of_nat (length l) /\ mask_at (map truthy l) i = true) /\
  (Forall (fun v => is_nullish v = true \/ exists b, v = JBool b) l ->
   indexOf_js_true l = indexOf_true (map truthy l)).
Proof.
  split; [|apply indexOf_js_true_agrees].
  intros Hidx. destruct (indexOf_js_true_found l Hidx) as (i & Hi & Hl).
  exists (Z.of_nat i). split; [lia|]. unfold mask_at.
  destruct (Z.ltb_spec (Z.of_nat i) 0); [lia|].
  rewrite Nat2Z.id, list_lookup_fmap, Hl. reflexivity.
Qed.

Lemma weekday_views_agree_witness :
  indexOf_js_true (weekdays_of_config sample_config) <> -1 /\
  exists i : Z,
    0 <= i < Z.of_nat (length (weekdays_of_config sample_config)) /\
    mask_at (map truthy (weekdays_of_config sample_config)) i = true.
Proof.
  assert (H : indexOf_js_true (weekdays_of_config sample_config) <> -1) by discriminate.
  split; [exact H|].
  exact (proj1 (weekday_views_agree (weekdays_of_config sample_config)) H).
Defined.

(** A string "true" is enabled for the loop, yet [indexOf(true)] does not
    find it: such a node stays suspended. *)
Example truthy_string_not_found :
  indexOf_js_true [JString "true"] = -1 /\ map truthy [JString "true"] = [true].
Proof. split; reflexivity. Qed.

(** ** String commands *)

Lemma terminator_is_space (c : ascii) : is_line_terminator c = true -> is_space c = true.
Proof.
  unfold is_line_terminator, is_space. intros H.
  apply orb_true_iff in H. apply orb_true_iff. left.
  destruct H as [H|H]; apply Z.eqb_eq in H; rewrite H; reflexivity.
Qed.

Lemma starts_with_no_space (q t r : string) :
  no_space t = true -> starts_with q t = Some r -> no_space r = true.
Proof.
  revert t. induction q as [|x q IH]; intros t Ht Hs; simpl in Hs.
  - inversion Hs; subst. exact Ht.
  - destruct t as [|c t]; [discriminate|].
    destruct (Ascii.eqb x c); [|discriminate].
    simpl in Ht. apply andb_true_iff in Ht. destruct Ht as [_ Ht]. eapply IH; eassumption.
Qed.

Lemma prop_here_no_space (q t : string) : no_space t = true -> prop_here q t = None.
Proof.
  intros Ht. unfold prop_here.
  destruct (starts_with q t) as [[|c r]|] eqn:Hs; try reflexivity.
  pose proof (starts_with_no_space q t _ Ht Hs) as Hr. simpl in Hr.
  apply andb_true_iff in Hr. destruct Hr as [Hc _].
  destruct (is_space c); [discriminate | reflexivity].
Qed.

Lemma dotstar_no_space (q t : string) : no_space t = true -> dotstar_prop q t = None.
Proof.
  induction t as [|c t IH]; intros Ht; cbn [dotstar_prop].
  - now apply prop_here_no_space.
  - pose proof Ht as Ht'. simpl in Ht'. apply andb_true_iff in Ht'. destruct Ht' as [_ Htl].
    rewrite (IH Htl), (prop_here_no_space q _ Ht). now destruct (is_line_terminator c).
Qed.

Lemma exec_prop_no_space (q t : string) : no_space t = true -> exec_prop q t = None.
Proof.
  induction t as [|c t IH]; intros Ht; cbn [exec_prop].
  - now rewrite (dotstar_no_space q "" Ht).
  - rewrite (dotstar_no_space q _ Ht).
    simpl in Ht. apply andb_true_iff in Ht. destruct Ht as [_ Htl]. now apply IH.
Qed.

Lemma take_nonspaces_id (v : string) : no_space v = true -> take_nonspaces v = v.
Proof.
  induction v as [|c v IH]; [reflexivity|]. simpl. intros H.
  apply andb_true_iff in H. destruct H as [Hc Hv].
  destruct (is_space c); [discriminate|]. now rewrite (IH Hv).
Qed.

Lemma drop_spaces_id (v : string) : no_space v = true -> drop_spaces v = v.
Proof.
  destruct v as [|c v]; [reflexivity|]. simpl. intros H.
  apply andb_true_iff in H. destruct H as [Hc _]. now destruct (is_space c).
Qed.

(** The pattern at the head of [a], a blank and the word [v]: it matches
    when [a] is the property's name. *)
Lemma prop_here_command (q : string) :
  forall a v : string,
    no_space q = true -> no_space a = true -> no_space v = true -> v <> "" ->
    prop_here q (a ++ String " " v) = if String.eqb q a then Some v else None.
Proof.
  induction q as [|x q IH]; intros a v Hq Ha Hv Hne.
  - destruct a as [|c a].
    + unfold prop_here. rewrite ?append_empty, ?append_String; cbn [starts_with].
      change (is_space " ") with true. cbv iota.
      rewrite (drop_spaces_id v Hv), (take_nonspaces_id v Hv).
      destruct v; [congruence | reflexivity].
    + unfold prop_here. rewrite ?append_empty, ?append_String; cbn [starts_with String.eqb]. simpl in Ha.
      apply andb_true_iff in Ha. destruct Ha as [Hc _]. now destruct (is_space c).
  - simpl in Hq. apply andb_true_iff in Hq. destruct Hq as [Hx Hq].
    destruct a as [|c a].
    + unfold prop_here. rewrite ?append_empty, ?append_String; cbn [starts_with String.eqb].
      destruct (Ascii.eqb_spec x " ") as [->|Hxs]; [discriminate | reflexivity].
    + simpl in Ha. apply andb_true_iff in Ha. destruct Ha as [_ Ha].
      specialize (IH a v Hq Ha Hv Hne).
      unfold prop_here in *. rewrite ?append_empty, ?append_String; cbn [starts_with String.eqb].
      destruct (Ascii.eqb x c); [exact IH | reflexivity].
Qed.

Lemma dotstar_command (q : string) (v : string) :
  no_space q = true -> no_space v = true -> v <> "" ->
  forall a : string,
    no_space a = true ->
    dotstar_prop q (a ++ String " " v) = if is_suffix q a then Some v else None.
Proof.
  intros Hq Hv Hne. induction a as [|c a IH]; intros Ha.
  - pose proof (prop_here_command q "" v Hq eq_refl Hv Hne) as Hhere.
    rewrite append_empty in *. cbn [dotstar_prop is_suffix].
    change (is_line_terminator " ") with false. cbv iota.
    rewrite (dotstar_no_space q v Hv), Hhere. now rewrite orb_false_r.
  - pose proof Ha as Ha'. simpl in Ha'. apply andb_true_iff in Ha'.
    destruct Ha' as [Hc Hatl].
    pose proof (prop_here_command q (String c a) v Hq Ha Hv Hne) as Hhere.
    rewrite append_String in *. cbn [dotstar_prop is_suffix].
    assert (Hterm : is_line_terminator c = false).
    { destruct (is_line_terminator c) eqn:Ht; [|reflexivity].
      rewrite (terminator_is_space c Ht) in Hc. discriminate. }
    rewrite Hterm, (IH Hatl), Hhere.
    destruct (is_suffix q a); [now rewrite orb_true_r | now rewrite orb_false_r].
Qed.

(** The whole pattern on a name-like word, a blank and the word [v]:
    the value is [v] when the property's name ends the first word, and
    there is no match otherwise. *)
Lemma exec_prop_command (q : string) (v : string) :
  no_space q = true -> no_space v = true -> v <> "" ->
  forall a : string,
    no_space a = true ->
    exec_prop q (a ++ String " " v) = if is_suffix q a then Some v else None.
Proof.
  intros Hq Hv Hne. induction a as [|c a IH]; intros Ha.
  - pose proof (dotstar_command q v Hq Hv Hne "" eq_refl) as Hd.
    rewrite append_empty in *. cbn [exec_prop]. rewrite Hd.
    destruct (is_suffix q ""); [reflexivity|]. now apply exec_prop_no_space.
  - pose proof Ha as Ha'. simpl in Ha'. apply andb_true_iff in Ha'.
    destruct Ha' as [_ Hatl].
    pose proof (dotstar_command q v Hq Hv Hne (String c a) Ha) as Hd.
    rewrite append_String in *. cbn [exec_prop]. rewrite Hd.
    destruct (is_suffix q (String c a)) eqn:Hsuf; [reflexivity|].
    rewrite (IH Hatl). cbn [is_suffix] in Hsuf.
    apply orb_false_iff in Hsuf. destruct Hsuf as [_ Hsuf]. now rewrite Hsuf.
Qed.

Lemma command_names (ev ev' : evname) (p p' : property) :
  is_suffix (key ev' ++ msgProperty p') (key ev ++ msgProperty p) = true ->
  (ev', p') = (ev, p).
Proof. destruct ev, ev', p, p'; vm_compute; intros H; congruence. Qed.

Lemma command_name_suffix (ev : evname) (p : property) :
  is_suffix (key ev ++ msgProperty p) (key ev ++ msgProperty p) = true.
Proof. destruct ev, p; reflexivity. Qed.

Lemma command_name_no_space (ev : evname) (p : property) :
  no_space (key ev ++ msgProperty p) = true.
Proof. destruct ev, p; reflexivity. Qed.

Lemma command_not_suspended (ev : evname) (p : property) (v : string) :
  contains "suspended" v = false -> contains "suspended" (command ev p v) = false.
Proof. intros H. destruct ev, p; vm_compute in H |- *; exact H. Qed.

Lemma command_not_manual (ev : evname) (p : property) (v : string) :
  String.eqb (command ev p v) "on" = false /\ String.eqb (command ev p v) "off" = false.
Proof. destruct ev, p; split; reflexivity. Qed.

(** What the command's pattern search gives for each of the ten
    properties. *)
Lemma command_lookup (ev ev' : evname) (p p' : property) (v : string) :
  no_space v = true -> v <> "" ->
  exec_prop (key ev' ++ msgProperty p') (command ev p v)
  = if is_suffix (key ev' ++ msgProperty p') (key ev ++ msgProperty p) then Some v else None.
Proof.
  intros Hv Hne. unfold command.
  apply exec_prop_command; auto using command_name_no_space.
Qed.

Section StringCommand.

Variable E : env.

Lemma string_input_config (fuel : nat) (s : string) (n : node) :
  String.eqb s "on" = false -> String.eqb s "off" = false ->
  contains "suspended" s = false ->
  node_config (snd (on_input E fuel (PayloadString s) n))
  = node_config
      (fold_left (apply_prop (fun prop => JString <$> exec_prop prop s)) all_props n).
Proof.
  intros Hon Hoff Hsus. unfold on_input. rewrite Hon, Hoff, Hsus.
  rewrite bind_assoc.
  rewrite (bind_run _ _ n n (Flags false false) eq_refl).
  apply input_tail_config.
Qed.

Lemma string_command_props (fuel : nat) (ev ev' : evname) (p p' : property) (v : string)
    (n : node) :
  no_space v = true -> v <> "" -> contains "suspended" v = false ->
  get_prop p' (events ev' (snd (on_input E fuel (PayloadString (command ev p v)) n)))
  = if is_suffix (key ev' ++ msgProperty p') (key ev ++ msgProperty p)
    then typeConstructor p' (JString v)
    else get_prop p' (events ev' n).
Proof.
  intros Hv Hne Hsus.
  destruct (command_not_manual ev p v) as [Hon Hoff].
  pose proof (string_input_config fuel _ n Hon Hoff (command_not_suspended ev p v Hsus))
    as Hcfg.
  rewrite (config_get_prop _ _ ev' p' Hcfg).
  rewrite (fold_apply_prop_inside _ ev' p' all_props all_props_NoDup)
    by apply all_props_complete.
  rewrite (command_lookup ev ev' p p' v Hv Hne).
  now destruct (is_suffix _ _).
Qed.

Lemma string_command_flag (fuel : nat) (ev : evname) (p : property) (v : string) (n : node) :
  contains "suspended" v = false ->
  suspended (snd (on_input E fuel (PayloadString (command ev p v)) n)) = suspended n.
Proof.
  intros Hsus.
  destruct (command_not_manual ev p v) as [Hon Hoff].
  pose proof (string_input_config fuel _ n Hon Hoff (command_not_suspended ev p v Hsus))
    as Hcfg.
  rewrite (config_suspended _ _ Hcfg).
  now destruct (fold_apply_prop_frame
                  (fun prop => JString <$> exec_prop prop (command ev p v)) all_props n)
    as [_ Hs].
Qed.

(** X26.  A string command, the name of one of the ten properties, a
    blank and a word without white space that does not hold the text
    suspended, sets that property and nothing else: after the handler,
    however it ends, the property holds the word passed through the
    property's constructor, the nine other properties are as before, and
    so is the flag [suspended].  For an offset the word is one [Number]
    is embedded exactly on ([number_text]: an optionally signed run of
    digits that writes a safe integer, or a word without any digit that
    does not hold Infinity). *)
Theorem string_command_stored (fuel : nat) (ev : evname) (p : property) (v : string)
    (n : node) :
  no_space v = true -> v <> "" -> contains "suspended" v = false ->
  (p = P_offset -> number_text v = true) ->
  let n' := snd (on_input E fuel (PayloadString (command ev p v)) n) in
  get_prop p (events ev n') = typeConstructor p (JString v) /\
  (forall (ev' : evname) (p' : property),
      (ev', p') <> (ev, p) -> get_prop p' (events ev' n') = get_prop p' (events ev' n)) /\
  suspended n' = suspended n.
Proof.
  intros Hv Hne Hsus _. cbv zeta. split; [|split].
  - rewrite (string_command_props fuel ev ev p p v n Hv Hne Hsus).
    now rewrite command_name_suffix.
  - intros ev' p' Hother.
    rewrite (string_command_props fuel ev ev' p p' v n Hv Hne Hsus).
    destruct (is_suffix _ _) eqn:Hsuf; [|reflexivity].
    destruct Hother. now apply command_names.
  - now apply string_command_flag.
Qed.

End StringCommand.

Lemma string_command_stored_witness :
  number_text "-15" = true /\
  let n' := snd (on_input monday_9am_env 8 (PayloadString (command OFF P_offset "-15"))
                   running_node) in
  get_prop P_offset (events OFF n') = VNumber (Num (-15)) /\
  (forall (ev' : evname) (p' : property),
      (ev', p') <> (OFF, P_offset) ->
      get_prop p' (events ev' n') = get_prop p' (events ev' running_node)) /\
  suspended n' = suspended running_node.
Proof.
  split; [reflexivity|].
  apply (string_command_stored monday_9am_env 8 OFF P_offset "-15" running_node);
    [reflexivity | discriminate | reflexivity | intros _; reflexivity].
Defined.

(** X25.  The property pattern on a word, a blank and a second word
    (none of them with white space, the second not empty): the pattern
    is not anchored, so it matches exactly when the property's name is
    the end of the first word, and its group is then the whole second
    word. *)
Theorem exec_prop_first_word (q a v : string) :
  no_space q = true -> no_space a = true -> no_space v = true -> v <> "" ->
  (is_suffix q a = true -> exec_prop q (a ++ String " " v) = Some v) /\
  (is_suffix q a = false -> exec_prop q (a ++ String " " v) = None).
Proof.
  intros Hq Ha Hv Hne.
  rewrite (exec_prop_command q v Hq Hv Hne a Ha).
  split; intros ->; reflexivity.
Qed.

Lemma exec_prop_first_word_witness :
  (is_suffix "ontime" "xontime" = true -> exec_prop "ontime" ("xontime" ++ " 10:30") = Some "10:30") /\
  (is_suffix "ontime" "xontime" = false -> exec_prop "ontime" ("xontime" ++ " 10:30") = None).
Proof.
  apply (exec_prop_first_word "ontime" "xontime" "10:30");
    [reflexivity | reflexivity | reflexivity | discriminate].
Defined.
